(** * The System module transformer (src/compiler/transformers/module/system.ts)

    A shallow embedding of [transformSystemModule]: the syntax trees it reads
    and builds, the per-file state it keeps in its closure, the functions that
    lower one source file to a [System.register] call, and a small evaluator
    for the JavaScript that the lowered tree stands for. *)

From stdpp Require Import base strings list gmap.
From Stdlib Require Import ZArith.

Set Warnings "-register-all".

Open Scope string_scope.
Open Scope list_scope.

(** ** Syntax trees *)

(** A node is identified by the number of the parsed node it stands for (its
    text range): a node that the factory builds with a [location] argument
    carries the number of that location. *)
Definition NodeId := nat.

(** Identifiers: parsed or [createIdentifier] names, [createUniqueName] names
    and [getGeneratedNameForNode] names. *)
Inductive Identifier :=
  | Named (text : string)
  | UniqueName (text : string) (autoGenerateId : nat)
  | GeneratedNameForNode (node : NodeId).

#[global] Instance Identifier_eq_dec : EqDecision Identifier.
Proof. solve_decision. Defined.

(** [name.text]: a name generated for a node has no text of its own. *)
Definition identifierText (name : Identifier) : string :=
  match name with
  | Named text => text
  | UniqueName text _ => text
  | GeneratedNameForNode _ => ""
  end.

(** Operator tokens ([SyntaxKind.*Token]) used by this transformer. *)
Inductive Token :=
  | EqualsToken
  | PlusToken
  | MinusToken
  | PlusPlusToken
  | MinusMinusToken
  | ExclamationToken
  | AmpersandAmpersandToken
  | ExclamationEqualsEqualsToken
  | OtherToken (kind : nat).

#[global] Instance Token_eq_dec : EqDecision Token.
Proof. solve_decision. Defined.

Inductive ModifierFlags :=
  | Export
  | Default
  | OtherModifier (kind : nat).

#[global] Instance ModifierFlags_eq_dec : EqDecision ModifierFlags.
Proof. solve_decision. Defined.

(** [hasModifier(node, flag)], on the node's modifier list. *)
Definition hasModifier (modifiers : list ModifierFlags) (flag : ModifierFlags) : bool :=
  bool_decide (flag ∈ modifiers).

Inductive PropertyName :=
  | IdentifierName (text : string)
  | StringLiteralName (text : string).

Inductive ParameterDeclaration :=
  | NamedParameter (name : option Identifier)
  | SourceParameter (node : NodeId).

(** The module specifier of an import or export: an expression, of which only
    the kind and, for a string literal, the text are read. *)
Inductive ModuleSpecifier :=
  | StringLiteralSpecifier (text : string)
  | OtherSpecifier (node : NodeId).

Record ImportSpecifier := {
  importSpecifierPropertyName : option Identifier;
  importSpecifierName : Identifier
}.

Inductive NamedImportBindings :=
  | NamespaceImport (name : Identifier)
  | NamedImports (elements : list ImportSpecifier).

Record ImportClause := {
  importClauseName : option Identifier;
  namedBindings : option NamedImportBindings
}.

Record ImportDeclaration := {
  importId : NodeId;
  importClause : option ImportClause;
  importModuleSpecifier : ModuleSpecifier
}.

Inductive ModuleReference :=
  | ExternalModuleReference (expression : ModuleSpecifier)
  | EntityNameReference (node : NodeId).

Record ImportEqualsDeclaration := {
  importEqualsId : NodeId;
  importEqualsName : Identifier;
  moduleReference : ModuleReference
}.

Record ExportSpecifier := {
  exportSpecifierId : NodeId;
  propertyName : option Identifier;
  exportSpecifierName : Identifier
}.

Record ExportDeclaration := {
  exportId : NodeId;
  exportClause : option (list ExportSpecifier);
  moduleSpecifier : option ModuleSpecifier
}.

#[global] Instance ModuleSpecifier_eq_dec : EqDecision ModuleSpecifier.
Proof. solve_decision. Defined.
#[global] Instance ImportSpecifier_eq_dec : EqDecision ImportSpecifier.
Proof. solve_decision. Defined.
#[global] Instance NamedImportBindings_eq_dec : EqDecision NamedImportBindings.
Proof. solve_decision. Defined.
#[global] Instance ImportClause_eq_dec : EqDecision ImportClause.
Proof. solve_decision. Defined.
#[global] Instance ImportDeclaration_eq_dec : EqDecision ImportDeclaration.
Proof. solve_decision. Defined.
#[global] Instance ModuleReference_eq_dec : EqDecision ModuleReference.
Proof. solve_decision. Defined.
#[global] Instance ImportEqualsDeclaration_eq_dec : EqDecision ImportEqualsDeclaration.
Proof. solve_decision. Defined.
#[global] Instance ExportSpecifier_eq_dec : EqDecision ExportSpecifier.
Proof. solve_decision. Defined.
#[global] Instance ExportDeclaration_eq_dec : EqDecision ExportDeclaration.
Proof. solve_decision. Defined.

(** An element of [externalImports]:
    [ImportDeclaration | ImportEqualsDeclaration | ExportDeclaration]. *)
Inductive ExternalImport :=
  | ExternalImportDeclaration (node : ImportDeclaration)
  | ExternalImportEqualsDeclaration (node : ImportEqualsDeclaration)
  | ExternalExportDeclaration (node : ExportDeclaration).

#[global] Instance ExternalImport_eq_dec : EqDecision ExternalImport.
Proof. solve_decision. Defined.

(** Expressions and statements. [Absent] is [undefined] in a place where the
    source passes an expression and [MissingStatement] is [undefined] where a
    statement is held; [HasOwnProperty] is what [createHasOwnProperty] builds
    (see below). [OtherStatement] stands for the statement kinds that
    [visitNestedNode] has no case for and that are not listed here ([break],
    [throw], the empty statement and so on), by kind and node number. A block
    that a [try] statement or a [catch] clause holds is held as the statement
    it is. *)
Inductive Expression :=
  | Absent
  | EIdentifier (name : Identifier)
  | StringLiteral (text : string)
  | NumericLiteral (value : Z)
  | BooleanLiteral (value : bool)
  | PropertyAccess (expression : Expression) (name : string)
  | ElementAccess (expression : Expression) (argumentExpression : Expression)
  | Call (expression : Expression) (arguments : list Expression)
  | HasOwnProperty (target : Expression) (propertyName : Expression)
  | PrefixUnary (operator : Token) (operand : Expression)
  | PostfixUnary (operator : Token) (operand : Expression)
  | Binary (left : Expression) (operatorToken : Token) (right : Expression)
  | ObjectLiteral (properties : list ObjectLiteralElement)
  | ArrayLiteral (elements : list Expression)
  | FunctionExpression (asteriskToken : option NodeId) (name : option Identifier)
      (parameters : list ParameterDeclaration) (body : Statement)
  | ClassExpression (name : option Identifier) (heritageClauses members : NodeId)
  | OmittedExpression
  | OtherExpression (node : NodeId)
with ObjectLiteralElement :=
  | PropertyAssignment (name : PropertyName) (initializer : Expression)
with Statement :=
  | ImportDeclarationStatement (node : ImportDeclaration)
  | ImportEqualsDeclarationStatement (node : ImportEqualsDeclaration)
  | ExportDeclarationStatement (node : ExportDeclaration)
  | ExportAssignment (id : NodeId) (isExportEquals : bool) (expression : Expression)
  | VariableStatement (modifiers : list ModifierFlags) (declarations : list VariableDeclaration)
  | FunctionDeclaration (id : NodeId) (modifiers : list ModifierFlags)
      (asteriskToken : option NodeId) (name : option Identifier)
      (parameters : list ParameterDeclaration) (body : Statement)
  | ClassDeclaration (id : NodeId) (modifiers : list ModifierFlags)
      (name : option Identifier) (heritageClauses members : NodeId)
  | ExpressionStatement (expression : Expression)
  | ReturnStatement (expression : Expression)
  | IfStatement (expression : Expression) (thenStatement : Statement)
      (elseStatement : option Statement)
  | ForStatement (initializer : option ForInitializer)
      (condition incrementor : option Expression) (statement : Statement)
  | ForInStatement (initializer : ForInitializer) (expression : Expression)
      (statement : Statement)
  | ForOfStatement (initializer : ForInitializer) (expression : Expression)
      (statement : Statement)
  | DoStatement (statement : Statement) (expression : Expression)
  | WhileStatement (expression : Expression) (statement : Statement)
  | LabeledStatement (label : Identifier) (statement : Statement)
  | WithStatement (expression : Expression) (statement : Statement)
  | SwitchStatement (expression : Expression) (caseBlock : CaseBlock)
  | TryStatement (tryBlock : Statement) (catchClause : option CatchClause)
      (finallyBlock : option Statement)
  | Block (statements : list Statement)
  | MissingStatement
  | OtherStatement (kind : nat) (node : NodeId)
with CaseBlock :=
  | mkCaseBlock (clauses : list CaseOrDefaultClause)
with CaseOrDefaultClause :=
  | CaseClause (expression : Expression) (statements : list Statement)
  | DefaultClause (statements : list Statement)
with CatchClause :=
  | mkCatchClause (variableDeclaration : VariableDeclaration) (block : Statement)
with VariableDeclaration :=
  | mkVariableDeclaration (name : BindingName) (initializer : option Expression)
with BindingName :=
  | BindingIdentifier (name : Identifier)
  | BindingPattern (elements : list BindingElement)
with BindingElement :=
  | mkBindingElement (name : option BindingName) (initializer : option Expression)
with ForInitializer :=
  | VariableDeclarationList (declarations : list VariableDeclaration)
  | InitializerExpression (expression : Expression).

(** ** Source files *)

Record SourceFile := {
  fileId : NodeId;
  externalModuleIndicator : option NodeId;
  moduleName : option string;
  renamedDependencies : option (gmap string string);
  sourceStatements : list Statement
}.

(** [isExternalModule(file)]: the file has an external module indicator. *)
Definition isExternalModule (file : SourceFile) : bool :=
  bool_decide (is_Some (externalModuleIndicator file)).

(** Truthiness of an optional string: [undefined] and [""] are falsy. *)
Definition truthyString (s : option string) : bool :=
  match s with
  | Some text => negb (bool_decide (text = ""))
  | None => false
  end.

(** ** The node factory

    The [create*] functions of factory.ts that system.ts calls build one node
    each from their arguments; [location] arguments, [setMultiLine] and
    [setNodeEmitFlags] only attach printing metadata and are left out. *)

Definition createIdentifier (text : string) : Identifier := Named text.
Definition getSynthesizedClone (name : Identifier) : Identifier := name.
Definition getGeneratedNameForNode (node : NodeId) : Identifier := GeneratedNameForNode node.
Definition createLiteral (text : string) : Expression := StringLiteral text.
Definition createNumericLiteral (value : Z) : Expression := NumericLiteral value.
Definition createBooleanLiteral (value : bool) : Expression := BooleanLiteral value.
Definition createPropertyAccess (expression : Expression) (name : string) : Expression :=
  PropertyAccess expression name.
Definition createElementAccess (expression index : Expression) : Expression :=
  ElementAccess expression index.
Definition createCall (expression : Expression) (argumentsArray : list Expression) : Expression :=
  Call expression argumentsArray.
Definition createAssignment (left right : Expression) : Expression :=
  Binary left EqualsToken right.
Definition createAdd (left right : Expression) : Expression := Binary left PlusToken right.
Definition createSubtract (left right : Expression) : Expression := Binary left MinusToken right.
Definition createLogicalAnd (left right : Expression) : Expression :=
  Binary left AmpersandAmpersandToken right.
Definition createStrictInequality (left right : Expression) : Expression :=
  Binary left ExclamationEqualsEqualsToken right.
Definition createLogicalNot (operand : Expression) : Expression :=
  PrefixUnary ExclamationToken operand.
Definition createPrefix (operator : Token) (operand : Expression) : Expression :=
  PrefixUnary operator operand.
Definition createObjectLiteral (properties : list ObjectLiteralElement) : Expression :=
  ObjectLiteral properties.
Definition createArrayLiteral (elements : list Expression) : Expression :=
  ArrayLiteral elements.
Definition createPropertyAssignment (name : PropertyName) (initializer : Expression)
  : ObjectLiteralElement := PropertyAssignment name initializer.
Definition createParameter (name : option Identifier) : ParameterDeclaration :=
  NamedParameter name.
Definition createFunctionExpression (asteriskToken : option NodeId) (name : option Identifier)
    (parameters : list ParameterDeclaration) (body : Statement) : Expression :=
  FunctionExpression asteriskToken name parameters body.
Definition createClassExpression (name : option Identifier) (heritageClauses members : NodeId)
  : Expression := ClassExpression name heritageClauses members.
Definition createStatement (expression : Expression) : Statement :=
  ExpressionStatement expression.
Definition createReturn (expression : Expression) : Statement := ReturnStatement expression.
Definition createIf (expression : Expression) (thenStatement : Statement) : Statement :=
  IfStatement expression thenStatement None.
Definition createBlock (statements : list Statement) : Statement := Block statements.
Definition createVariableDeclaration (name : Identifier) (initializer : option Expression)
  : VariableDeclaration := mkVariableDeclaration (BindingIdentifier name) initializer.
Definition createVariableDeclarationList (declarations : list VariableDeclaration)
  : list VariableDeclaration := declarations.
Definition createVariableStatement (modifiers : list ModifierFlags)
    (declarationList : list VariableDeclaration) : Statement :=
  VariableStatement modifiers declarationList.
Definition createForIn (initializer : list VariableDeclaration) (expression : Expression)
    (statement : Statement) : Statement :=
  ForInStatement (VariableDeclarationList initializer) expression statement.
Definition createFor (initializer : Expression) (condition incrementor : option Expression)
    (statement : Statement) : Statement :=
  ForStatement (Some (InitializerExpression initializer)) condition incrementor statement.
Definition createFunctionDeclaration (modifiers : list ModifierFlags)
    (asteriskToken : option NodeId) (name : option Identifier)
    (parameters : list ParameterDeclaration) (body : Statement) (location : NodeId)
  : Statement :=
  FunctionDeclaration location modifiers asteriskToken name parameters body.

(** Modelled from the spec: [createHasOwnProperty] (factory.ts) is not under
    src/. Its result is kept as one node, the test that [propertyName] is a
    key present in [target] (section 4.6: "except keys present in that map"). *)
Definition createHasOwnProperty (target propertyName : Expression) : Expression :=
  HasOwnProperty target propertyName.

(** Modelled from the spec: [inlineExpressions] (factory.ts) is not under
    src/. Section 4.4: "Multiple declarators flatten into one comma/sequence
    expression statement, in source order". The comma operator is
    [OtherToken 0]. *)
Definition inlineExpressions (expressions : list Expression) : Expression :=
  match expressions with
  | [] => Absent
  | first :: rest => foldl (fun left right => Binary left (OtherToken 0) right) first rest
  end.

(** [addNode(to, from)] and [addNodes(to, from)]: push when defined. *)
Definition addNode {A : Type} (to : list A) (from : option A) : list A :=
  match from with
  | Some node => to ++ [node]
  | None => to
  end.

Definition addNodes {A : Type} (to : list A) (from : option (list A)) : list A :=
  match from with
  | Some nodes => to ++ nodes
  | None => to
  end.

(** [node.name] and [node.modifiers] of a declaration statement. *)
Definition declarationName (node : Statement) : option Identifier :=
  match node with
  | FunctionDeclaration _ _ _ name _ _ => name
  | ClassDeclaration _ _ name _ _ => name
  | _ => None
  end.

Definition declarationModifiers (node : Statement) : list ModifierFlags :=
  match node with
  | VariableStatement modifiers _ => modifiers
  | FunctionDeclaration _ modifiers _ _ _ _ => modifiers
  | ClassDeclaration _ modifiers _ _ _ => modifiers
  | _ => []
  end.

Definition declarationId (node : Statement) : NodeId :=
  match node with
  | FunctionDeclaration id _ _ _ _ _ => id
  | ClassDeclaration id _ _ _ _ => id
  | ExportAssignment id _ _ => id
  | OtherStatement _ id => id
  | _ => 0%nat
  end.

(** Modelled from the spec: [isPrologueDirective] and [addPrologueDirectives]
    (factory.ts) are not under src/. The leading prologue directives
    (expression statements that are string literals) are copied to the output
    and their number is the offset at which the visit of the file starts. *)
Definition isPrologueDirective (node : Statement) : bool :=
  match node with
  | ExpressionStatement (StringLiteral _) => true
  | _ => false
  end.

Fixpoint prologueDirectives (source : list Statement) : list Statement :=
  match source with
  | node :: rest => if isPrologueDirective node then node :: prologueDirectives rest else []
  | [] => []
  end.

Definition addPrologueDirectives (target source : list Statement) : list Statement * nat :=
  (target ++ prologueDirectives source, length (prologueDirectives source)).

(** ** Results of fallible code *)

Inductive Error :=
  | AssertionFailure
  | TypeError.

Inductive Outcome (A : Type) :=
  | Returned (value : A)
  | Threw (error : Error).
Arguments Returned {A} value.
Arguments Threw {A} error.

(** ** The dependency grouper *)

Record DependencyGroup := {
  groupName : string;
  groupExternalImports : list ExternalImport
}.

(** [getExternalModuleName] (utilities.ts): the module specifier expression of
    an import or export, if it has one. *)
Definition getExternalModuleName (node : ExternalImport) : option ModuleSpecifier :=
  match node with
  | ExternalImportDeclaration d => Some (importModuleSpecifier d)
  | ExternalImportEqualsDeclaration d =>
      match moduleReference d with
      | ExternalModuleReference expression => Some expression
      | EntityNameReference _ => None
      end
  | ExternalExportDeclaration d => moduleSpecifier d
  end.

(** [tryRenameExternalModule]: the text of the literal that it builds when the
    file renames the dependency, [Returned None] for [undefined]. Reading
    [currentSourceFile.renamedDependencies] throws while no file is current. *)
Definition tryRenameExternalModule (currentSourceFile : option SourceFile) (text : string)
  : Outcome (option string) :=
  match currentSourceFile with
  | None => Threw TypeError
  | Some file =>
      match renamedDependencies file with
      | Some renamed => Returned (renamed !! text)
      | None => Returned None
      end
  end.

(** [getExternalModuleNameLiteral]: the text of the (renamed or cloned) string
    literal; [Returned None] is [undefined]; reading [.kind] of a missing
    specifier throws. *)
Definition getExternalModuleNameLiteral (currentSourceFile : option SourceFile)
    (importNode : ExternalImport) : Outcome (option string) :=
  match getExternalModuleName importNode with
  | None => Threw TypeError
  | Some (StringLiteralSpecifier text) =>
      match tryRenameExternalModule currentSourceFile text with
      | Returned (Some renamed) => Returned (Some renamed)
      | Returned None => Returned (Some text)
      | Threw e => Threw e
      end
  | Some (OtherSpecifier _) => Returned None
  end.

(** [dependencyGroups[groupIndex].externalImports.push(externalImport)]. *)
Definition pushExternalImport (externalImport : ExternalImport) (group : DependencyGroup)
  : DependencyGroup :=
  {| groupName := groupName group;
     groupExternalImports := groupExternalImports group ++ [externalImport] |}.

(** [groupIndices] is an object literal ([{}]) used as a map from specifier
    text to group index; the finite map holds its own properties, which is
    what [hasProperty] tests. [groupIndices[text] = index] creates an own
    property for every key but ["__proto__"]: that assignment goes to the
    setter of the prototype, which ignores a number, and the object stays as
    it was. *)
Definition setGroupIndex (text : string) (index : nat) (groupIndices : gmap string nat)
  : gmap string nat :=
  if decide (text = "__proto__") then groupIndices else <[text := index]> groupIndices.

(** The body of the loop of [collectDependencyGroups], on the two locals
    [groupIndices] and [dependencyGroups]. *)
Definition collectDependencyGroupsStep (currentSourceFile : option SourceFile)
    (acc : gmap string nat * list DependencyGroup) (externalImport : ExternalImport)
  : Outcome (gmap string nat * list DependencyGroup) :=
  let '(groupIndices, dependencyGroups) := acc in
  match getExternalModuleNameLiteral currentSourceFile externalImport with
  | Threw e => Threw e
  | Returned None => Threw TypeError
  | Returned (Some text) =>
      match groupIndices !! text with
      | Some groupIndex =>
          match dependencyGroups !! groupIndex with
          | Some group =>
              Returned (groupIndices,
                        <[groupIndex := pushExternalImport externalImport group]> dependencyGroups)
          | None => Threw TypeError
          end
      | None =>
          Returned (setGroupIndex text (length dependencyGroups) groupIndices,
                    dependencyGroups ++
                      [{| groupName := text; groupExternalImports := [externalImport] |}])
      end
  end.

Fixpoint collectDependencyGroupsLoop (currentSourceFile : option SourceFile)
    (acc : gmap string nat * list DependencyGroup) (externalImports : list ExternalImport)
  : Outcome (gmap string nat * list DependencyGroup) :=
  match externalImports with
  | [] => Returned acc
  | externalImport :: rest =>
      match collectDependencyGroupsStep currentSourceFile acc externalImport with
      | Returned acc' => collectDependencyGroupsLoop currentSourceFile acc' rest
      | Threw e => Threw e
      end
  end.

Definition collectDependencyGroups (currentSourceFile : option SourceFile)
    (externalImports : list ExternalImport) : Outcome (list DependencyGroup) :=
  match collectDependencyGroupsLoop currentSourceFile (∅, []) externalImports with
  | Returned (_, dependencyGroups) => Returned dependencyGroups
  | Threw e => Threw e
  end.

Definition getNameOfDependencyGroup (dependencyGroup : DependencyGroup) : Expression :=
  StringLiteral (groupName dependencyGroup).

(** ** Collaborators of the transformer *)

(** The container that [getReferencedExportContainer] reports. *)
Inductive Container :=
  | SourceFileContainer
  | ModuleDeclarationContainer.

(** The part of the emit resolver that the functions below consult. *)
Record EmitResolver := {
  getReferencedExportContainer : Identifier -> option Container;
  isValueAliasDeclaration : NodeId -> bool;
  getReferencedValueDeclaration : Identifier -> option NodeId
}.

(** What [collectExternalModuleInfo] returns. *)
Record ExternalModuleInfo := {
  infoExternalImports : list ExternalImport;
  infoExportSpecifiers : gmap string (list ExportSpecifier);
  infoExportEquals : option NodeId;
  infoHasExportStars : bool
}.

(** The transformation context: compiler options, resolver and the lexical
    environment service, whose state [LexEnv] is opaque to the transformer. *)
Record TransformationContext (LexEnv : Type) := {
  isolatedModules : bool;
  resolver : EmitResolver;
  startLexicalEnvironment : LexEnv -> LexEnv;
  endLexicalEnvironment : LexEnv -> list Statement * LexEnv;
  hoistVariableDeclaration : Identifier -> LexEnv -> LexEnv;
  hoistFunctionDeclaration : Statement -> LexEnv -> LexEnv
}.
Arguments isolatedModules {LexEnv} _.
Arguments resolver {LexEnv} _.
Arguments startLexicalEnvironment {LexEnv} _ _.
Arguments endLexicalEnvironment {LexEnv} _ _.
Arguments hoistVariableDeclaration {LexEnv} _ _ _.
Arguments hoistFunctionDeclaration {LexEnv} _ _ _.

(** ** Per-file transform state

    The nine variables that [transformSystemModule] declares in its closure;
    [None] is [undefined]. *)
Record TransformState := {
  currentSourceFile : option SourceFile;
  externalImports : option (list ExternalImport);
  exportSpecifiers : option (gmap string (list ExportSpecifier));
  exportEquals : option NodeId;
  hasExportStars : option bool;
  exportFunctionForFile : option Identifier;
  contextObjectForFile : option Identifier;
  exportedLocalNames : option (list Identifier);
  exportedFunctionDeclarations : option (list Statement)
}.

(** The closure variables as declared: all [undefined]. *)
Definition initialTransformState : TransformState :=
  {| currentSourceFile := None; externalImports := None; exportSpecifiers := None;
     exportEquals := None; hasExportStars := None; exportFunctionForFile := None;
     contextObjectForFile := None; exportedLocalNames := None;
     exportedFunctionDeclarations := None |}.

(** The closure variables after the reset at the end of [transformSourceFile]. *)
Definition clearedTransformState : TransformState :=
  {| currentSourceFile := None; externalImports := None; exportSpecifiers := None;
     exportEquals := None; hasExportStars := Some false; exportFunctionForFile := None;
     contextObjectForFile := None; exportedLocalNames := None;
     exportedFunctionDeclarations := None |}.

Definition setCurrentSourceFile (file : option SourceFile) (st : TransformState)
  : TransformState :=
  {| currentSourceFile := file; externalImports := externalImports st;
     exportSpecifiers := exportSpecifiers st; exportEquals := exportEquals st;
     hasExportStars := hasExportStars st; exportFunctionForFile := exportFunctionForFile st;
     contextObjectForFile := contextObjectForFile st;
     exportedLocalNames := exportedLocalNames st;
     exportedFunctionDeclarations := exportedFunctionDeclarations st |}.

Definition setExternalModuleInfo (info : ExternalModuleInfo) (st : TransformState)
  : TransformState :=
  {| currentSourceFile := currentSourceFile st;
     externalImports := Some (infoExternalImports info);
     exportSpecifiers := Some (infoExportSpecifiers info);
     exportEquals := infoExportEquals info;
     hasExportStars := Some (infoHasExportStars info);
     exportFunctionForFile := exportFunctionForFile st;
     contextObjectForFile := contextObjectForFile st;
     exportedLocalNames := exportedLocalNames st;
     exportedFunctionDeclarations := exportedFunctionDeclarations st |}.

Definition setExportFunctionForFile (name : option Identifier) (st : TransformState)
  : TransformState :=
  {| currentSourceFile := currentSourceFile st; externalImports := externalImports st;
     exportSpecifiers := exportSpecifiers st; exportEquals := exportEquals st;
     hasExportStars := hasExportStars st; exportFunctionForFile := name;
     contextObjectForFile := contextObjectForFile st;
     exportedLocalNames := exportedLocalNames st;
     exportedFunctionDeclarations := exportedFunctionDeclarations st |}.

Definition setContextObjectForFile (name : option Identifier) (st : TransformState)
  : TransformState :=
  {| currentSourceFile := currentSourceFile st; externalImports := externalImports st;
     exportSpecifiers := exportSpecifiers st; exportEquals := exportEquals st;
     hasExportStars := hasExportStars st; exportFunctionForFile := exportFunctionForFile st;
     contextObjectForFile := name;
     exportedLocalNames := exportedLocalNames st;
     exportedFunctionDeclarations := exportedFunctionDeclarations st |}.

Definition setExportedLocalNames (names : option (list Identifier)) (st : TransformState)
  : TransformState :=
  {| currentSourceFile := currentSourceFile st; externalImports := externalImports st;
     exportSpecifiers := exportSpecifiers st; exportEquals := exportEquals st;
     hasExportStars := hasExportStars st; exportFunctionForFile := exportFunctionForFile st;
     contextObjectForFile := contextObjectForFile st;
     exportedLocalNames := names;
     exportedFunctionDeclarations := exportedFunctionDeclarations st |}.

Definition setExportedFunctionDeclarations (exports : option (list Statement))
    (st : TransformState) : TransformState :=
  {| currentSourceFile := currentSourceFile st; externalImports := externalImports st;
     exportSpecifiers := exportSpecifiers st; exportEquals := exportEquals st;
     hasExportStars := hasExportStars st; exportFunctionForFile := exportFunctionForFile st;
     contextObjectForFile := contextObjectForFile st;
     exportedLocalNames := exportedLocalNames st;
     exportedFunctionDeclarations := exports |}.

(** Everything the transformer mutates: its own closure variables, the
    counter behind [createUniqueName] and the lexical environment of the
    context. *)
Record EmitState (LexEnv : Type) := {
  transformState : TransformState;
  nextAutoGenerateId : nat;
  lexicalEnvironment : LexEnv
}.
Arguments transformState {LexEnv} _.
Arguments nextAutoGenerateId {LexEnv} _.
Arguments lexicalEnvironment {LexEnv} _.

(** ** A state monad with exceptions

    A computation returns a value or throws; either way the state it has
    reached stays as it is (nothing is rolled back on a throw). *)
Definition M (S A : Type) : Type := S -> Outcome A * S.

Definition ret {S A : Type} (a : A) : M S A := fun s => (Returned a, s).

Definition bind {S A B : Type} (m : M S A) (k : A -> M S B) : M S B :=
  fun s =>
    match m s with
    | (Returned a, s') => k a s'
    | (Threw e, s') => (Threw e, s')
    end.

Definition throw {S A : Type} (e : Error) : M S A := fun s => (Threw e, s).

Definition liftOutcome {S A : Type} (o : Outcome A) : M S A := fun s => (o, s).

Declare Scope monad_scope.
Delimit Scope monad_scope with monad.
Notation "x <- m ;; k" := (bind m (fun x => k))
  (at level 100, m at next level, right associativity) : monad_scope.
Notation "m ;; k" := (bind m (fun _ => k))
  (at level 100, right associativity) : monad_scope.
Open Scope monad_scope.

(** [Debug.assert(condition)]. *)
Definition Debug_assert {S : Type} (condition : bool) : M S unit :=
  if condition then ret tt else throw AssertionFailure.

(** Runs [f] on each element in order and collects the results. *)
Fixpoint mapM {S A B : Type} (f : A -> M S B) (l : list A) : M S (list B) :=
  match l with
  | [] => ret []
  | x :: rest => y <- f x ;; ys <- mapM f rest ;; ret (y :: ys)
  end.

(** Modelled from the spec: [visitNodes] (visitor.ts) is not under src/. From
    [start] on, each node is given to the visitor in source order and the
    nodes it returns (none, one or several) are put in its place. *)
Definition visitNodes {S : Type} (nodes : list Statement)
    (visitor : Statement -> M S (list Statement)) (start : nat) : M S (list Statement) :=
  visited <- mapM visitor (drop start nodes) ;; ret (concat visited).

(** Modelled from the spec: [visitNode] and [liftToBlock] (visitor.ts) are not
    under src/. Section 4.4: "Loop/if/try bodies that are single statements
    get lifted to a block if rewriting introduced multiple statements". The
    visitor is run on the node; the one statement it returns is the result,
    several statements are put in a block, and when it returns none,
    [undefined] takes the place of the statement. The arguments [test],
    [optional] and [lift] of the calls are left out. *)
Definition liftToBlock (nodes : list Statement) : Statement :=
  match nodes with
  | [node] => node
  | _ => createBlock nodes
  end.

Definition visitNode {S : Type} (node : Statement)
    (visitor : Statement -> M S (list Statement)) : M S Statement :=
  visited <- visitor node ;;
  match visited with
  | [] => ret MissingStatement
  | _ => ret (liftToBlock visited)
  end.

(** ** Names of imports (utilities.ts) *)

(** [getNamespaceDeclarationNode(node).name]: the name of the namespace
    import or of the import-equals declaration, if the node is one. *)
Definition getNamespaceDeclarationNode (node : ExternalImport) : option Identifier :=
  match node with
  | ExternalImportEqualsDeclaration d => Some (importEqualsName d)
  | ExternalImportDeclaration d =>
      match importClause d with
      | Some clause =>
          match namedBindings clause with
          | Some (NamespaceImport n) => Some n
          | _ => None
          end
      | None => None
      end
  | ExternalExportDeclaration _ => None
  end.

Definition isDefaultImport (node : ExternalImport) : bool :=
  match node with
  | ExternalImportDeclaration d =>
      match importClause d with
      | Some clause => bool_decide (is_Some (importClauseName clause))
      | None => false
      end
  | _ => false
  end.

(** [getLocalNameForExternalImport]; the source text of a name node is the
    text of the name. *)
Definition getLocalNameForExternalImport (node : ExternalImport) : option Identifier :=
  match getNamespaceDeclarationNode node, isDefaultImport node with
  | Some namespaceName, false => Some (createIdentifier (identifierText namespaceName))
  | _, _ =>
      match node with
      | ExternalImportDeclaration d =>
          match importClause d with
          | Some _ => Some (getGeneratedNameForNode (importId d))
          | None => None
          end
      | ExternalExportDeclaration d =>
          match moduleSpecifier d with
          | Some _ => Some (getGeneratedNameForNode (exportId d))
          | None => None
          end
      | ExternalImportEqualsDeclaration _ => None
      end
  end.

Definition getLocalNameTextForExternalImport (node : ExternalImport) : option string :=
  identifierText <$> getLocalNameForExternalImport node.

(** [forEach(array, callback)]: the first truthy result of the callback. *)
Fixpoint forEach {A : Type} (array : list A) (callback : A -> option string) : option string :=
  match array with
  | [] => None
  | x :: rest => if truthyString (callback x) then callback x else forEach rest callback
  end.

(** [contains(array, value)], with [array] possibly [undefined]. *)
Definition contains (array : option (list ExternalImport)) (value : ExternalImport) : bool :=
  match array with
  | Some l => bool_decide (value ∈ l)
  | None => false
  end.

(** [isEmpty(map)], with [map] possibly [undefined]. *)
Definition isEmpty (map : option (gmap string (list ExportSpecifier))) : bool :=
  match map with
  | Some m => bool_decide (m = ∅)
  | None => true
  end.

(** A closure variable that holds an identifier, read where a node is
    expected. *)
Definition identifierOrAbsent (name : option Identifier) : Expression :=
  match name with
  | Some n => EIdentifier n
  | None => Absent
  end.

(** ** Export calls *)

Definition createExportExpression (st : TransformState) (name value : Expression)
  : Expression :=
  let exportName :=
    match name with
    | EIdentifier n => createLiteral (identifierText n)
    | _ => name
    end in
  createCall (identifierOrAbsent (exportFunctionForFile st)) [exportName; value].

Definition createExportStatement (st : TransformState) (name value : Expression)
  : Statement :=
  createStatement (createExportExpression st name value).

Definition getDeclarationName (node : Statement) : Identifier :=
  match declarationName node with
  | Some n => getSynthesizedClone n
  | None => getGeneratedNameForNode (declarationId node)
  end.

Definition createDeclarationExport (st : TransformState) (node : Statement) : Statement :=
  let declarationName := EIdentifier (getDeclarationName node) in
  let exportName :=
    if hasModifier (declarationModifiers node) Default
    then createLiteral "default" else declarationName in
  createExportStatement st exportName declarationName.

(** ** Expression substitution: postfix increment and decrement *)

Definition substitutePostfixUnaryExpression (resolver : EmitResolver) (st : TransformState)
    (node : Expression) : Expression :=
  match node with
  | PostfixUnary operator (EIdentifier operand) =>
      match getReferencedExportContainer resolver operand with
      | Some _ =>
          let exportCall :=
            createExportExpression st (EIdentifier operand)
              (createPrefix operator (EIdentifier operand)) in
          if bool_decide (operator = PlusPlusToken)
          then createSubtract exportCall (createNumericLiteral 1%Z)
          else createAdd exportCall (createNumericLiteral 1%Z)
      | None => node
      end
  | _ => node
  end.

(** ** The export-star helper *)

Definition exportStarCondition (localNames : option Identifier) : Expression :=
  let n := EIdentifier (createIdentifier "n") in
  let condition := createStrictInequality n (createLiteral "default") in
  match localNames with
  | Some names =>
      createLogicalAnd condition
        (createLogicalNot (createHasOwnProperty (EIdentifier names) n))
  | None => condition
  end.

(** The function declaration that [addExportStarFunction] adds. *)
Definition exportStarFunctionDeclaration (st : TransformState)
    (exportStarFunction : Identifier) (localNames : option Identifier) : Statement :=
  let m := createIdentifier "m" in
  let n := createIdentifier "n" in
  let exports := createIdentifier "exports" in
  createFunctionDeclaration [] None (Some exportStarFunction) [createParameter (Some m)]
    (createBlock [
       createVariableStatement []
         (createVariableDeclarationList [
            createVariableDeclaration exports (Some (createObjectLiteral []))]);
       createForIn
         (createVariableDeclarationList [createVariableDeclaration n None])
         (EIdentifier m)
         (createBlock [
            createIf (exportStarCondition localNames)
              (createStatement
                 (createAssignment
                    (createElementAccess (EIdentifier exports) (EIdentifier n))
                    (createElementAccess (EIdentifier m) (EIdentifier n))))]);
       createStatement
         (createCall (identifierOrAbsent (exportFunctionForFile st)) [EIdentifier exports])])
    0%nat.

(** The property assignments of the [exportedNames] object literal. *)
Definition exportedNameProperty (text : string) : ObjectLiteralElement :=
  createPropertyAssignment (StringLiteralName text) (createBooleanLiteral true).

Definition exportClauseNames (externalImport : ExternalImport) : list string :=
  match externalImport with
  | ExternalExportDeclaration exportDecl =>
      match exportClause exportDecl with
      | Some elements => (fun element => identifierText (exportSpecifierName element)) <$> elements
      | None => []
      end
  | _ => []
  end.

Definition exportedNamesOf (st : TransformState) (externalImports : list ExternalImport)
  : list string :=
  (identifierText <$> default [] (exportedLocalNames st))
    ++ concat (exportClauseNames <$> externalImports).

Definition hasExportDeclarationWithExportClause (externalImports : list ExternalImport)
  : bool :=
  existsb
    (fun externalImport =>
       match externalImport with
       | ExternalExportDeclaration exportDecl => bool_decide (is_Some (exportClause exportDecl))
       | _ => false
       end)
    externalImports.

(** ** The transformer *)

Section Transformer.

Context {LexEnv : Type}.

(** The [context] argument of [transformSystemModule]. *)
Variable context : TransformationContext LexEnv.

(** Passes of the compiler that live in other files: the module-info
    collector and the destructuring flattener. *)
Variable collectExternalModuleInfo : SourceFile -> ExternalModuleInfo.
Variable flattenVariableDestructuringToExpression :
  VariableDeclaration -> LexEnv -> Expression * LexEnv.

Definition getTransformState : M (EmitState LexEnv) TransformState :=
  fun s => (Returned (transformState s), s).

Definition modifyTransformState (f : TransformState -> TransformState)
  : M (EmitState LexEnv) unit :=
  fun s =>
    (Returned tt,
     {| transformState := f (transformState s);
        nextAutoGenerateId := nextAutoGenerateId s;
        lexicalEnvironment := lexicalEnvironment s |}).

Definition withLexicalEnvironment {A : Type} (f : LexEnv -> A * LexEnv)
  : M (EmitState LexEnv) A :=
  fun s =>
    let '(a, env) := f (lexicalEnvironment s) in
    (Returned a,
     {| transformState := transformState s;
        nextAutoGenerateId := nextAutoGenerateId s;
        lexicalEnvironment := env |}).

Definition modifyLexicalEnvironment (f : LexEnv -> LexEnv) : M (EmitState LexEnv) unit :=
  withLexicalEnvironment (fun env => (tt, f env)).

(** Modelled from the spec: [createUniqueName] (factory.ts) is not under
    src/. Section 6: "unique-name generation (collision-free ...)"; each call
    takes the next number of a counter. *)
Definition createUniqueName (text : string) : M (EmitState LexEnv) Identifier :=
  fun s =>
    (Returned (UniqueName text (nextAutoGenerateId s)),
     {| transformState := transformState s;
        nextAutoGenerateId := S (nextAutoGenerateId s);
        lexicalEnvironment := lexicalEnvironment s |}).

Definition recordExportName (name : Identifier) : M (EmitState LexEnv) unit :=
  modifyTransformState (fun st =>
    setExportedLocalNames (Some (default [] (exportedLocalNames st) ++ [name])) st).

Definition recordExportedFunctionDeclaration (node : Statement) : M (EmitState LexEnv) unit :=
  modifyTransformState (fun st =>
    setExportedFunctionDeclarations
      (Some (default [] (exportedFunctionDeclarations st) ++ [createDeclarationExport st node]))
      st).

(** [hoistBindingElement(node, isExported)], on [node.name]. An omitted
    element of an array pattern has no name: [isIdentifier(name)] then reads
    [.kind] of [undefined] and throws, after the elements before it have been
    hoisted. *)
Fixpoint hoistBindingElement (name : BindingName) (isExported : bool)
  : M (EmitState LexEnv) unit :=
  match name with
  | BindingIdentifier n =>
      modifyLexicalEnvironment (hoistVariableDeclaration context (getSynthesizedClone n)) ;;
      if isExported then recordExportName n else ret tt
  | BindingPattern elements =>
      (fix each (elements : list BindingElement) : M (EmitState LexEnv) unit :=
         match elements with
         | [] => ret tt
         | mkBindingElement (Some elementName) _ :: rest =>
             hoistBindingElement elementName isExported ;; each rest
         | mkBindingElement None _ :: rest => throw TypeError
         end) elements
  end.

Definition transformVariable (node : VariableDeclaration) (isExported : bool)
  : M (EmitState LexEnv) (option Expression) :=
  match node with
  | mkVariableDeclaration name initializer =>
      hoistBindingElement name isExported ;;
      match initializer with
      | None => ret None
      | Some value =>
          match name with
          | BindingIdentifier n => ret (Some (createAssignment (EIdentifier n) value))
          | BindingPattern _ =>
              flattened <- withLexicalEnvironment
                             (flattenVariableDestructuringToExpression node) ;;
              ret (Some flattened)
          end
      end
  end.

Definition visitVariableStatement (modifiers : list ModifierFlags)
    (declarations : list VariableDeclaration) : M (EmitState LexEnv) (list Statement) :=
  let isExported := hasModifier modifiers Export in
  transformed <- mapM (fun variable => transformVariable variable isExported) declarations ;;
  let expressions := omap id transformed in
  if bool_decide (expressions = [])
  then ret []
  else ret [createStatement (inlineExpressions expressions)].

Definition visitFunctionDeclaration (node : Statement) : M (EmitState LexEnv) (list Statement) :=
  match node with
  | FunctionDeclaration id modifiers asteriskToken name parameters body =>
      (if hasModifier modifiers Export
       then
         let name := default (getGeneratedNameForNode id) name in
         let node :=
           createFunctionDeclaration [] asteriskToken (Some name) parameters body id in
         recordExportedFunctionDeclaration node ;;
         (if negb (hasModifier (declarationModifiers node) Default)
          then recordExportName name else ret tt) ;;
         modifyLexicalEnvironment (hoistFunctionDeclaration context node)
       else modifyLexicalEnvironment (hoistFunctionDeclaration context node)) ;;
      ret []
  | _ => ret [node]
  end.

Definition visitClassDeclaration (node : Statement) : M (EmitState LexEnv) (list Statement) :=
  match node with
  | ClassDeclaration id modifiers className heritageClauses members =>
      let name := getDeclarationName node in
      modifyLexicalEnvironment (hoistVariableDeclaration context name) ;;
      let statements :=
        [createStatement
           (createAssignment (EIdentifier name)
              (createClassExpression className heritageClauses members))] in
      if hasModifier modifiers Export
      then
        (if negb (hasModifier modifiers Default) then recordExportName name else ret tt) ;;
        st <- getTransformState ;;
        ret (addNode statements (Some (createDeclarationExport st node)))
      else ret statements
  | _ => ret [node]
  end.

Definition visitImportDeclaration (node : ImportDeclaration)
  : M (EmitState LexEnv) (list Statement) :=
  st <- getTransformState ;;
  (if bool_decide (is_Some (importClause node))
      && contains (externalImports st) (ExternalImportDeclaration node)
   then
     match getLocalNameForExternalImport (ExternalImportDeclaration node) with
     | Some localName => modifyLexicalEnvironment (hoistVariableDeclaration context localName)
     | None => ret tt
     end
   else ret tt) ;;
  ret [].

Definition visitImportEqualsDeclaration (node : ImportEqualsDeclaration)
  : M (EmitState LexEnv) (list Statement) :=
  st <- getTransformState ;;
  (if contains (externalImports st) (ExternalImportEqualsDeclaration node)
   then
     match getLocalNameForExternalImport (ExternalImportEqualsDeclaration node) with
     | Some localName => modifyLexicalEnvironment (hoistVariableDeclaration context localName)
     | None => ret tt
     end
   else ret tt) ;;
  ret [].

Definition visitExportSpecifier (specifier : ExportSpecifier)
  : M (EmitState LexEnv) (option Statement) :=
  let referenced := default (exportSpecifierName specifier) (propertyName specifier) in
  if bool_decide (is_Some (getReferencedValueDeclaration (resolver context) referenced))
     || isValueAliasDeclaration (resolver context) (exportSpecifierId specifier)
  then
    recordExportName (exportSpecifierName specifier) ;;
    st <- getTransformState ;;
    ret (Some (createExportStatement st
                 (EIdentifier (exportSpecifierName specifier)) (EIdentifier referenced)))
  else ret None.

Definition visitExportDeclaration (node : ExportDeclaration)
  : M (EmitState LexEnv) (list Statement) :=
  match moduleSpecifier node with
  | None =>
      match exportClause node with
      | Some elements =>
          visited <- mapM visitExportSpecifier elements ;;
          ret (omap id visited)
      | None => throw TypeError
      end
  | Some _ => ret []
  end.

Definition visitExportAssignment (node : Statement) : M (EmitState LexEnv) (list Statement) :=
  match node with
  | ExportAssignment id isExportEquals expression =>
      if negb isExportEquals && isValueAliasDeclaration (resolver context) id
      then
        st <- getTransformState ;;
        ret [createExportStatement st (createLiteral "default") expression]
      else ret []
  | _ => ret [node]
  end.

(** [transformForBinding(node)], on [node.declarations]; with no declaration
    [firstDeclaration] is [undefined] and [hoistBindingElement] throws on
    reading its name. *)
Definition transformForBinding (declarations : list VariableDeclaration)
  : M (EmitState LexEnv) Expression :=
  match head declarations with
  | None => throw TypeError
  | Some (mkVariableDeclaration name initializer as firstDeclaration) =>
      hoistBindingElement name false ;;
      match name with
      | BindingIdentifier n => ret (EIdentifier n)
      | BindingPattern _ =>
          withLexicalEnvironment (flattenVariableDestructuringToExpression firstDeclaration)
      end
  end.

(** The visitors of the statements that hold other statements. Each is
    written over the function that it calls back on the nested nodes, which
    is [visitNestedNode] below. *)
Section NestedVisitors.

Variable visitNestedNode : Statement -> M (EmitState LexEnv) (list Statement).

Definition visitCatchClause (node : CatchClause) : M (EmitState LexEnv) CatchClause :=
  match node with
  | mkCatchClause variableDeclaration block =>
      block <- visitNode block visitNestedNode ;;
      ret (mkCatchClause variableDeclaration block)
  end.

(** Modelled from the spec: [visitEachChild] (visitor.ts) is not under src/.
    Section 4.4: these constructs are "recursed into structurally": the
    statements that the node holds are visited in source order, a single
    statement through [visitNode], a list through [visitNodes] and a [catch]
    clause through the case that the visitor has for it; the other children
    are expressions, which [visitNestedNode] returns as they are. *)
Definition visitEachChild (node : Statement) : M (EmitState LexEnv) Statement :=
  match node with
  | ForStatement initializer condition incrementor statement =>
      statement <- visitNode statement visitNestedNode ;;
      ret (ForStatement initializer condition incrementor statement)
  | ForInStatement initializer expression statement =>
      statement <- visitNode statement visitNestedNode ;;
      ret (ForInStatement initializer expression statement)
  | ForOfStatement initializer expression statement =>
      statement <- visitNode statement visitNestedNode ;;
      ret (ForOfStatement initializer expression statement)
  | TryStatement tryBlock catchClause finallyBlock =>
      tryBlock <- visitNode tryBlock visitNestedNode ;;
      catchClause <-
        match catchClause with
        | Some clause => clause <- visitCatchClause clause ;; ret (Some clause)
        | None => ret None
        end ;;
      finallyBlock <-
        match finallyBlock with
        | Some block => block <- visitNode block visitNestedNode ;; ret (Some block)
        | None => ret None
        end ;;
      ret (TryStatement tryBlock catchClause finallyBlock)
  | Block statements =>
      statements <- visitNodes statements visitNestedNode 0 ;;
      ret (Block statements)
  | _ => ret node
  end.

(** [visitForStatement]; [isVariableDeclarationList(initializer)] reads
    [.kind] of the initializer, which throws when the loop has none. *)
Definition visitForStatement (node : Statement) : M (EmitState LexEnv) Statement :=
  match node with
  | ForStatement None _ _ _ => throw TypeError
  | ForStatement (Some (VariableDeclarationList declarations)) condition incrementor
      statement =>
      transformed <- mapM (fun variable => transformVariable variable false) declarations ;;
      let expressions := omap id transformed in
      statement <- visitNode statement visitNestedNode ;;
      ret (createFor
             (if bool_decide (expressions = [])
              then OmittedExpression else inlineExpressions expressions)
             condition incrementor statement)
  | _ => visitEachChild node
  end.

Definition visitForInStatement (node : Statement) : M (EmitState LexEnv) Statement :=
  match node with
  | ForInStatement (VariableDeclarationList declarations) expression statement =>
      initializer <- transformForBinding declarations ;;
      statement <- visitNode statement visitNestedNode ;;
      ret (ForInStatement (InitializerExpression initializer) expression statement)
  | _ => visitEachChild node
  end.

Definition visitForOfStatement (node : Statement) : M (EmitState LexEnv) Statement :=
  match node with
  | ForOfStatement (VariableDeclarationList declarations) expression statement =>
      initializer <- transformForBinding declarations ;;
      statement <- visitNode statement visitNestedNode ;;
      ret (ForOfStatement (InitializerExpression initializer) expression statement)
  | _ => visitEachChild node
  end.

Definition visitDoStatement (node : Statement) : M (EmitState LexEnv) Statement :=
  match node with
  | DoStatement statement expression =>
      statement <- visitNode statement visitNestedNode ;;
      ret (DoStatement statement expression)
  | _ => ret node
  end.

Definition visitWhileStatement (node : Statement) : M (EmitState LexEnv) Statement :=
  match node with
  | WhileStatement expression statement =>
      statement <- visitNode statement visitNestedNode ;;
      ret (WhileStatement expression statement)
  | _ => ret node
  end.

Definition visitLabeledStatement (node : Statement) : M (EmitState LexEnv) Statement :=
  match node with
  | LabeledStatement label statement =>
      statement <- visitNode statement visitNestedNode ;;
      ret (LabeledStatement label statement)
  | _ => ret node
  end.

Definition visitWithStatement (node : Statement) : M (EmitState LexEnv) Statement :=
  match node with
  | WithStatement expression statement =>
      statement <- visitNode statement visitNestedNode ;;
      ret (WithStatement expression statement)
  | _ => ret node
  end.

Definition visitCaseClause (node : CaseOrDefaultClause)
  : M (EmitState LexEnv) CaseOrDefaultClause :=
  match node with
  | CaseClause expression statements =>
      statements <- visitNodes statements visitNestedNode 0 ;;
      ret (CaseClause expression statements)
  | _ => ret node
  end.

(** [visitDefaultClause] is [visitEachChild] on a node whose only children
    are its statements. *)
Definition visitDefaultClause (node : CaseOrDefaultClause)
  : M (EmitState LexEnv) CaseOrDefaultClause :=
  match node with
  | DefaultClause statements =>
      statements <- visitNodes statements visitNestedNode 0 ;;
      ret (DefaultClause statements)
  | _ => ret node
  end.

(** [visitCaseBlock]: [visitNodes] over the clauses, each of which goes to
    the case that [visitNestedNode] has for its kind and comes back as one
    clause. *)
Definition visitCaseBlock (node : CaseBlock) : M (EmitState LexEnv) CaseBlock :=
  match node with
  | mkCaseBlock clauses =>
      clauses <-
        mapM (fun clause =>
                match clause with
                | CaseClause _ _ => visitCaseClause clause
                | DefaultClause _ => visitDefaultClause clause
                end)
          clauses ;;
      ret (mkCaseBlock clauses)
  end.

Definition visitSwitchStatement (node : Statement) : M (EmitState LexEnv) Statement :=
  match node with
  | SwitchStatement expression caseBlock =>
      caseBlock <- visitCaseBlock caseBlock ;;
      ret (SwitchStatement expression caseBlock)
  | _ => ret node
  end.

Definition visitTryStatement (node : Statement) : M (EmitState LexEnv) Statement :=
  visitEachChild node.

Definition visitBlock (node : Statement) : M (EmitState LexEnv) Statement :=
  visitEachChild node.

(** A visitor that returns one node, as a visit result. *)
Definition visitedNode (visit : M (EmitState LexEnv) Statement)
  : M (EmitState LexEnv) (list Statement) :=
  node <- visit ;; ret [node].

End NestedVisitors.

(** [visitNestedNode], on a statement; its cases for a case block, a clause
    and a [catch] clause, which are no statements, are [visitCaseBlock],
    [visitCaseClause], [visitDefaultClause] and [visitCatchClause] above. *)
Fixpoint visitNestedNode (node : Statement) : M (EmitState LexEnv) (list Statement) :=
  match node with
  | VariableStatement modifiers declarations => visitVariableStatement modifiers declarations
  | FunctionDeclaration _ _ _ _ _ _ => visitFunctionDeclaration node
  | ClassDeclaration _ _ _ _ _ => visitClassDeclaration node
  | ForStatement _ _ _ _ => visitedNode (visitForStatement visitNestedNode node)
  | ForInStatement _ _ _ => visitedNode (visitForInStatement visitNestedNode node)
  | ForOfStatement _ _ _ => visitedNode (visitForOfStatement visitNestedNode node)
  | DoStatement _ _ => visitedNode (visitDoStatement visitNestedNode node)
  | WhileStatement _ _ => visitedNode (visitWhileStatement visitNestedNode node)
  | LabeledStatement _ _ => visitedNode (visitLabeledStatement visitNestedNode node)
  | WithStatement _ _ => visitedNode (visitWithStatement visitNestedNode node)
  | SwitchStatement _ _ => visitedNode (visitSwitchStatement visitNestedNode node)
  | TryStatement _ _ _ => visitedNode (visitTryStatement visitNestedNode node)
  | Block _ => visitedNode (visitBlock visitNestedNode node)
  | _ => ret [node]
  end.

Definition visitSourceElement (node : Statement) : M (EmitState LexEnv) (list Statement) :=
  match node with
  | ImportDeclarationStatement d => visitImportDeclaration d
  | ImportEqualsDeclarationStatement d => visitImportEqualsDeclaration d
  | ExportDeclarationStatement d => visitExportDeclaration d
  | ExportAssignment _ _ _ => visitExportAssignment node
  | _ => visitNestedNode node
  end.

(** *** Setters *)

(** The statements that one entry of a group adds to the group's setter (the
    body of the [switch] in [generateSetters]). *)
Definition setterStatements (st : TransformState) (exportStarFunction : Identifier)
    (parameterName : Identifier) (entry : ExternalImport) : Outcome (list Statement) :=
  let importVariableName := getLocalNameForExternalImport entry in
  let saveImport :=
    match importVariableName with
    | Some importVariable =>
        Returned [createStatement
                    (createAssignment (EIdentifier importVariable) (EIdentifier parameterName))]
    | None => Threw AssertionFailure
    end in
  match entry with
  | ExternalImportDeclaration d =>
      match importClause d with
      | None => Returned []
      | Some _ => saveImport
      end
  | ExternalImportEqualsDeclaration _ => saveImport
  | ExternalExportDeclaration d =>
      match importVariableName with
      | None => Threw AssertionFailure
      | Some _ =>
          match exportClause d with
          | Some elements =>
              let properties :=
                (fun e =>
                   createPropertyAssignment
                     (StringLiteralName (identifierText (exportSpecifierName e)))
                     (createElementAccess (EIdentifier parameterName)
                        (createLiteral
                           (identifierText
                              (default (exportSpecifierName e) (propertyName e))))))
                  <$> elements in
              Returned [createStatement
                          (createCall (identifierOrAbsent (exportFunctionForFile st))
                             [createObjectLiteral properties])]
          | None =>
              Returned [createStatement
                          (createCall (EIdentifier exportStarFunction)
                             [EIdentifier parameterName])]
          end
      end
  end.

(** All statements of one setter; the first entry that throws ends the loop. *)
Fixpoint setterBody (st : TransformState) (exportStarFunction parameterName : Identifier)
    (entries : list ExternalImport) : Outcome (list Statement) :=
  match entries with
  | [] => Returned []
  | entry :: rest =>
      match setterStatements st exportStarFunction parameterName entry with
      | Threw e => Threw e
      | Returned statements =>
          match setterBody st exportStarFunction parameterName rest with
          | Threw e => Threw e
          | Returned more => Returned (statements ++ more)
          end
      end
  end.

(** The setter of one dependency group. *)
Definition generateSetter (exportStarFunction : Identifier) (group : DependencyGroup)
  : M (EmitState LexEnv) Expression :=
  parameterName <- createUniqueName
    (default "" (forEach (groupExternalImports group) getLocalNameTextForExternalImport)) ;;
  st <- getTransformState ;;
  statements <- liftOutcome
    (setterBody st exportStarFunction parameterName (groupExternalImports group)) ;;
  ret (createFunctionExpression None None [createParameter (Some parameterName)]
         (createBlock statements)).

Definition generateSetters (exportStarFunction : Identifier)
    (dependencyGroups : list DependencyGroup) : M (EmitState LexEnv) Expression :=
  setters <- mapM (generateSetter exportStarFunction) dependencyGroups ;;
  ret (createArrayLiteral setters).

(** *** The export-star helper and the module body *)

Definition addExportStarFunction (statements : list Statement) (localNames : option Identifier)
  : M (EmitState LexEnv) (list Statement * Identifier) :=
  exportStarFunction <- createUniqueName "exportStar" ;;
  st <- getTransformState ;;
  ret (addNode statements (Some (exportStarFunctionDeclaration st exportStarFunction localNames)),
       exportStarFunction).

Definition addExportStarIfNeeded (statements : list Statement)
  : M (EmitState LexEnv) (list Statement * Identifier) :=
  st <- getTransformState ;;
  match externalImports st with
  | None => throw TypeError
  | Some imports =>
      if bool_decide (exportedLocalNames st = None) && isEmpty (exportSpecifiers st)
         && negb (hasExportDeclarationWithExportClause imports)
      then addExportStarFunction statements None
      else
        let exportedNames := exportedNameProperty <$> exportedNamesOf st imports in
        exportedNamesStorageRef <- createUniqueName "exportedNames" ;;
        let statements :=
          addNode statements
            (Some (createVariableStatement []
                     (createVariableDeclarationList [
                        createVariableDeclaration exportedNamesStorageRef
                          (Some (createObjectLiteral exportedNames))]))) in
        addExportStarFunction statements (Some exportedNamesStorageRef)
  end.

Definition addSystemModuleBody (statements : list Statement) (node : SourceFile)
    (dependencyGroups : list DependencyGroup) (statementOffset : nat)
  : M (EmitState LexEnv) (list Statement) :=
  modifyLexicalEnvironment (startLexicalEnvironment context) ;;
  executeStatements <- visitNodes (sourceStatements node) visitSourceElement statementOffset ;;
  hoisted <- withLexicalEnvironment (endLexicalEnvironment context) ;;
  let statements := addNodes statements (Some hoisted) in
  st <- getTransformState ;;
  let statements := addNodes statements (exportedFunctionDeclarations st) in
  added <- addExportStarIfNeeded statements ;;
  let '(statements, exportStarFunction) := added in
  setters <- generateSetters exportStarFunction dependencyGroups ;;
  ret (addNode statements
         (Some (createReturn
                  (createObjectLiteral [
                     createPropertyAssignment (IdentifierName "setters") setters;
                     createPropertyAssignment (IdentifierName "execute")
                       (createFunctionExpression (Some (fileId node)) None []
                          (createBlock executeStatements))])))).

(** *** The worker and the entry point *)

Definition moduleNameVariable (contextObject : option Identifier) : Statement :=
  createVariableStatement []
    (createVariableDeclarationList [
       createVariableDeclaration (createIdentifier "__moduleName")
         (Some (createLogicalAnd (identifierOrAbsent contextObject)
                  (createPropertyAccess (identifierOrAbsent contextObject) "id")))]).

Definition updateSourceFile (node : SourceFile) (statements : list Statement) : SourceFile :=
  {| fileId := fileId node;
     externalModuleIndicator := externalModuleIndicator node;
     moduleName := moduleName node;
     renamedDependencies := renamedDependencies node;
     sourceStatements := statements |}.

Definition transformSystemModuleWorker (node : SourceFile) : M (EmitState LexEnv) SourceFile :=
  st <- getTransformState ;;
  Debug_assert (negb (bool_decide (is_Some (exportFunctionForFile st)))) ;;
  modifyTransformState (setExternalModuleInfo (collectExternalModuleInfo node)) ;;
  exportFunction <- createUniqueName "exports" ;;
  modifyTransformState (setExportFunctionForFile (Some exportFunction)) ;;
  contextObject <- createUniqueName "context" ;;
  modifyTransformState (setContextObjectForFile (Some contextObject)) ;;
  st <- getTransformState ;;
  dependencyGroups <-
    match externalImports st with
    | Some imports => liftOutcome (collectDependencyGroups (currentSourceFile st) imports)
    | None => throw TypeError
    end ;;
  let '(statements, statementOffset) :=
    addPrologueDirectives [] (sourceStatements node) in
  st <- getTransformState ;;
  let statements := addNode statements (Some (moduleNameVariable (contextObjectForFile st))) in
  statements <- addSystemModuleBody statements node dependencyGroups statementOffset ;;
  st <- getTransformState ;;
  ret (updateSourceFile node [
         createStatement
           (createCall
              (createPropertyAccess (EIdentifier (createIdentifier "System")) "register")
              [ (if truthyString (moduleName node)
                 then createLiteral (default "" (moduleName node)) else Absent);
                createArrayLiteral (getNameOfDependencyGroup <$> dependencyGroups);
                createFunctionExpression None None
                  [createParameter (exportFunctionForFile st);
                   createParameter (contextObjectForFile st)]
                  (createBlock statements) ])]).

Definition transformSourceFile (node : SourceFile) : M (EmitState LexEnv) SourceFile :=
  if isExternalModule node || isolatedModules context
  then
    modifyTransformState (setCurrentSourceFile (Some node)) ;;
    updated <- transformSystemModuleWorker node ;;
    modifyTransformState (fun _ => clearedTransformState) ;;
    ret updated
  else ret node.

End Transformer.

(** ** Running the emitted JavaScript

    A small evaluator for the fragment of JavaScript that the transformer
    itself emits: the exporter call, the arithmetic around a substituted
    postfix operator, and the body of the export-star helper. Numbers are the
    doubles whose value is an integer, held by that value, and arithmetic
    rounds as doubles do; objects are the ordered lists of their own enumerable
    properties, held by value in the variable that names them; the exporter
    is the loader's callback: it records the arguments of each call and
    returns its [value] argument. A construct outside the fragment makes the
    evaluator stop with [None]. *)

Inductive Value :=
  | VUndefined
  | VBoolean (b : bool)
  | VNumber (n : Z)
  | VString (s : string)
  | VObject (properties : list (string * Value))
  | VExporter.

(** Scopes, innermost first, and the calls the exporter has received. *)
Record Runtime := {
  scopes : list (list (Identifier * Value));
  trace : list (list Value)
}.

Fixpoint lookupScope (x : Identifier) (scope : list (Identifier * Value)) : option Value :=
  match scope with
  | [] => None
  | (y, v) :: rest => if decide (x = y) then Some v else lookupScope x rest
  end.

Fixpoint updateScope (x : Identifier) (v : Value) (scope : list (Identifier * Value))
  : list (Identifier * Value) :=
  match scope with
  | [] => []
  | (y, w) :: rest => if decide (x = y) then (y, v) :: rest else (y, w) :: updateScope x v rest
  end.

Fixpoint lookupScopes (x : Identifier) (scopes : list (list (Identifier * Value)))
  : option Value :=
  match scopes with
  | [] => None
  | scope :: outer =>
      match lookupScope x scope with
      | Some v => Some v
      | None => lookupScopes x outer
      end
  end.

(** Assignment to a variable: the innermost scope that declares it. *)
Fixpoint assignScopes (x : Identifier) (v : Value) (scopes : list (list (Identifier * Value)))
  : option (list (list (Identifier * Value))) :=
  match scopes with
  | [] => None
  | scope :: outer =>
      match lookupScope x scope with
      | Some _ => Some (updateScope x v scope :: outer)
      | None => cons scope <$> assignScopes x v outer
      end
  end.

(** [var x] (with [init = None]) or [var x = v] in the innermost scope. *)
Definition declareVariable (x : Identifier) (init : option Value)
    (scopes : list (list (Identifier * Value))) : list (list (Identifier * Value)) :=
  match scopes with
  | [] => [[(x, default VUndefined init)]]
  | scope :: outer =>
      match lookupScope x scope, init with
      | Some _, Some v => updateScope x v scope :: outer
      | Some _, None => scope :: outer
      | None, _ => (scope ++ [(x, default VUndefined init)]) :: outer
      end
  end.

Definition lookupVariable (x : Identifier) (rt : Runtime) : option Value :=
  lookupScopes x (scopes rt).

Definition assignVariable (x : Identifier) (v : Value) (rt : Runtime) : option Runtime :=
  scopes' ← assignScopes x v (scopes rt);
  Some {| scopes := scopes'; trace := trace rt |}.

Fixpoint getProperty (properties : list (string * Value)) (key : string) : Value :=
  match properties with
  | [] => VUndefined
  | (k, v) :: rest => if decide (key = k) then v else getProperty rest key
  end.

Fixpoint setProperty (properties : list (string * Value)) (key : string) (v : Value)
  : list (string * Value) :=
  match properties with
  | [] => [(key, v)]
  | (k, w) :: rest =>
      if decide (key = k) then (k, v) :: rest else (k, w) :: setProperty rest key v
  end.

Definition hasOwnProperty (properties : list (string * Value)) (key : string) : bool :=
  bool_decide (key ∈ properties.*1).

Definition truthy (v : Value) : bool :=
  match v with
  | VUndefined => false
  | VBoolean b => b
  | VNumber n => negb (bool_decide (n = 0%Z))
  | VString s => negb (bool_decide (s = ""))
  | VObject _ => true
  | VExporter => true
  end.

(** [a !== b] on primitive values. *)
Definition strictInequality (a b : Value) : option bool :=
  match a, b with
  | VObject _, _ | _, VObject _ | VExporter, _ | _, VExporter => None
  | VUndefined, VUndefined => Some false
  | VBoolean x, VBoolean y => Some (negb (bool_decide (x = y)))
  | VNumber x, VNumber y => Some (negb (bool_decide (x = y)))
  | VString x, VString y => Some (negb (bool_decide (x = y)))
  | _, _ => Some true
  end.

Definition propertyNameText (name : PropertyName) : string :=
  match name with
  | IdentifierName text => text
  | StringLiteralName text => text
  end.

(** What the exporter returns: its second argument. *)
Definition exporterResult (args : list Value) : Value :=
  default VUndefined (args !! 1%nat).

(** The double that an integer result rounds to: itself up to 2^53 in
    magnitude; beyond, the nearest multiple of the spacing of the doubles
    around it (53 significant bits), a tie going to the even one. A result
    that rounds to an infinity is outside the fragment. *)
Definition roundToDouble (z : Z) : option Z :=
  let magnitude := Z.abs z in
  if (magnitude <? 2 ^ 53)%Z then Some z
  else
    let spacing := (2 ^ (Z.log2 magnitude - 52))%Z in
    let quotient := (magnitude / spacing)%Z in
    let remainder := (magnitude mod spacing)%Z in
    let rounded :=
      if (2 * remainder <? spacing)%Z then quotient
      else if (spacing <? 2 * remainder)%Z then (quotient + 1)%Z
      else if Z.even quotient then quotient else (quotient + 1)%Z in
    if (rounded * spacing <? 2 ^ 1024)%Z
    then Some (Z.sgn z * (rounded * spacing))%Z else None.

(** The value that [++] or [--] stores. *)
Definition stepNumber (operator : Token) (n : Z) : option Z :=
  match operator with
  | PlusPlusToken => roundToDouble (n + 1)
  | MinusMinusToken => roundToDouble (n - 1)
  | _ => None
  end.

(** The properties of an object literal, evaluated in order. *)
Fixpoint evaluateProperties (evaluate : Expression -> Runtime -> option (Value * Runtime))
    (elements : list ObjectLiteralElement) (acc : list (string * Value)) (rt : Runtime)
  : option (Value * Runtime) :=
  match elements with
  | [] => Some (VObject acc, rt)
  | PropertyAssignment name initializer :: rest =>
      match evaluate initializer rt with
      | Some (v, rt') =>
          evaluateProperties evaluate rest (setProperty acc (propertyNameText name) v) rt'
      | None => None
      end
  end.

(** The arguments of a call, evaluated from left to right. *)
Fixpoint evaluateArguments (evaluate : Expression -> Runtime -> option (Value * Runtime))
    (arguments : list Expression) (values : list Value) (rt : Runtime)
  : option (list Value * Runtime) :=
  match arguments with
  | [] => Some (values, rt)
  | argument :: rest =>
      match evaluate argument rt with
      | Some (v, rt') => evaluateArguments evaluate rest (values ++ [v]) rt'
      | None => None
      end
  end.

Fixpoint evaluate (e : Expression) (rt : Runtime) : option (Value * Runtime) :=
  match e with
  | EIdentifier x => v ← lookupVariable x rt; Some (v, rt)
  | StringLiteral s => Some (VString s, rt)
  | NumericLiteral n => n' ← roundToDouble n; Some (VNumber n', rt)
  | BooleanLiteral b => Some (VBoolean b, rt)
  | ObjectLiteral properties => evaluateProperties evaluate properties [] rt
  | PropertyAccess object name =>
      match evaluate object rt with
      | Some (VObject properties, rt') => Some (getProperty properties name, rt')
      | _ => None
      end
  | ElementAccess object index =>
      match evaluate object rt with
      | Some (VObject properties, rt1) =>
          match evaluate index rt1 with
          | Some (VString key, rt2) => Some (getProperty properties key, rt2)
          | _ => None
          end
      | _ => None
      end
  | HasOwnProperty target propertyName =>
      match evaluate target rt with
      | Some (VObject properties, rt1) =>
          match evaluate propertyName rt1 with
          | Some (VString key, rt2) => Some (VBoolean (hasOwnProperty properties key), rt2)
          | _ => None
          end
      | _ => None
      end
  | PrefixUnary ExclamationToken operand =>
      match evaluate operand rt with
      | Some (v, rt') => Some (VBoolean (negb (truthy v)), rt')
      | None => None
      end
  | PrefixUnary operator (EIdentifier x) =>
      match lookupVariable x rt with
      | Some (VNumber n) =>
          n' ← stepNumber operator n;
          rt' ← assignVariable x (VNumber n') rt;
          Some (VNumber n', rt')
      | _ => None
      end
  | PostfixUnary operator (EIdentifier x) =>
      match lookupVariable x rt with
      | Some (VNumber n) =>
          n' ← stepNumber operator n;
          rt' ← assignVariable x (VNumber n') rt;
          Some (VNumber n, rt')
      | _ => None
      end
  | Binary (EIdentifier x) EqualsToken rhs =>
      match evaluate rhs rt with
      | Some (v, rt') => rt'' ← assignVariable x v rt'; Some (v, rt'')
      | None => None
      end
  | Binary (ElementAccess (EIdentifier object) index) EqualsToken rhs =>
      match evaluate index rt with
      | Some (VString key, rt1) =>
          match evaluate rhs rt1 with
          | Some (v, rt2) =>
              match lookupVariable object rt2 with
              | Some (VObject properties) =>
                  rt3 ← assignVariable object (VObject (setProperty properties key v)) rt2;
                  Some (v, rt3)
              | _ => None
              end
          | None => None
          end
      | _ => None
      end
  | Binary lhs AmpersandAmpersandToken rhs =>
      match evaluate lhs rt with
      | Some (v, rt') => if truthy v then evaluate rhs rt' else Some (v, rt')
      | None => None
      end
  | Binary lhs ExclamationEqualsEqualsToken rhs =>
      match evaluate lhs rt with
      | Some (a, rt1) =>
          match evaluate rhs rt1 with
          | Some (b, rt2) => r ← strictInequality a b; Some (VBoolean r, rt2)
          | None => None
          end
      | None => None
      end
  | Binary lhs PlusToken rhs =>
      match evaluate lhs rt with
      | Some (VNumber a, rt1) =>
          match evaluate rhs rt1 with
          | Some (VNumber b, rt2) => r ← roundToDouble (a + b); Some (VNumber r, rt2)
          | _ => None
          end
      | _ => None
      end
  | Binary lhs MinusToken rhs =>
      match evaluate lhs rt with
      | Some (VNumber a, rt1) =>
          match evaluate rhs rt1 with
          | Some (VNumber b, rt2) => r ← roundToDouble (a - b); Some (VNumber r, rt2)
          | _ => None
          end
      | _ => None
      end
  | Call (EIdentifier callee) arguments =>
      match lookupVariable callee rt with
      | Some VExporter =>
          match evaluateArguments evaluate arguments [] rt with
          | Some (values, rt') =>
              Some (exporterResult values,
                    {| scopes := scopes rt'; trace := trace rt' ++ [values] |})
          | None => None
          end
      | _ => None
      end
  | _ => None
  end.

Definition declare (x : Identifier) (init : option Value) (rt : Runtime) : Runtime :=
  {| scopes := declareVariable x init (scopes rt); trace := trace rt |}.

(** The statements of a block, in order. *)
Fixpoint executeAll (run : Statement -> Runtime -> option Runtime)
    (statements : list Statement) (rt : Runtime) : option Runtime :=
  match statements with
  | [] => Some rt
  | statement :: rest =>
      match run statement rt with
      | Some rt' => executeAll run rest rt'
      | None => None
      end
  end.

(** The iterations of a [for (var x in object)] loop over the keys of the
    object. *)
Fixpoint forEachKey (body : Runtime -> option Runtime) (x : Identifier)
    (keys : list string) (rt : Runtime) : option Runtime :=
  match keys with
  | [] => Some rt
  | key :: rest =>
      match assignVariable x (VString key) rt with
      | Some rt1 =>
          match body rt1 with
          | Some rt2 => forEachKey body x rest rt2
          | None => None
          end
      | None => None
      end
  end.

Fixpoint execute (s : Statement) (rt : Runtime) : option Runtime :=
  match s with
  | ExpressionStatement e => snd <$> evaluate e rt
  | VariableStatement _ declarations =>
      (fix each (declarations : list VariableDeclaration) (rt : Runtime) : option Runtime :=
         match declarations with
         | [] => Some rt
         | mkVariableDeclaration (BindingIdentifier x) None :: rest =>
             each rest (declare x None rt)
         | mkVariableDeclaration (BindingIdentifier x) (Some initializer) :: rest =>
             match evaluate initializer rt with
             | Some (v, rt') => each rest (declare x (Some v) rt')
             | None => None
             end
         | _ => None
         end) declarations rt
  | IfStatement condition thenStatement elseStatement =>
      match evaluate condition rt with
      | Some (v, rt') =>
          if truthy v then execute thenStatement rt'
          else
            match elseStatement with
            | Some statement => execute statement rt'
            | None => Some rt'
            end
      | None => None
      end
  | Block statements => executeAll execute statements rt
  | ForInStatement
      (VariableDeclarationList [mkVariableDeclaration (BindingIdentifier x) None])
      object body =>
      match evaluate object rt with
      | Some (VObject properties, rt') =>
          forEachKey (execute body) x properties.*1 (declare x None rt')
      | _ => None
      end
  | _ => None
  end.

Fixpoint bindParameters (parameters : list ParameterDeclaration) (args : list Value)
  : option (list (Identifier * Value)) :=
  match parameters with
  | [] => Some []
  | NamedParameter (Some x) :: rest =>
      scope ← bindParameters rest (tail args);
      Some ((x, default VUndefined (head args)) :: scope)
  | _ => None
  end.

(** A call of a declared function: a new innermost scope holds the
    parameters, the body runs in it, and the scope is dropped on return. *)
Definition callFunction (f : Statement) (args : list Value) (rt : Runtime) : option Runtime :=
  match f with
  | FunctionDeclaration _ _ _ _ parameters body =>
      scope ← bindParameters parameters args;
      rt' ← execute body {| scopes := scope :: scopes rt; trace := trace rt |};
      Some {| scopes := tail (scopes rt'); trace := trace rt' |}
  | _ => None
  end.

(** ** The grouping as the specification words it

    Section 4.2: the specifier text of an entry is resolved through the
    rename table of the file; groups come in first-occurrence order of that
    text, and a group holds, in source order, the entries that share it. *)

Definition resolvedSpecifierText (file : SourceFile) (entry : ExternalImport)
  : option string :=
  match getExternalModuleName entry with
  | Some (StringLiteralSpecifier text) =>
      Some (default text (renamed ← renamedDependencies file; renamed !! text))
  | _ => None
  end.

Fixpoint firstOccurrences (texts : list string) : list string :=
  match texts with
  | [] => []
  | text :: rest => text :: filter (fun other => other ≠ text) (firstOccurrences rest)
  end.

Definition groupOf (file : SourceFile) (entries : list ExternalImport) (text : string)
  : DependencyGroup :=
  {| groupName := text;
     groupExternalImports :=
       filter (fun entry => resolvedSpecifierText file entry = Some text) entries |}.

Definition groupsBySpecifier (file : SourceFile) (entries : list ExternalImport)
  : list DependencyGroup :=
  groupOf file entries <$> firstOccurrences (omap (resolvedSpecifierText file) entries).

(** ** Reading the produced tree *)

(** The arguments of the [System.register] call that makes up the whole
    transformed file. *)
Definition registerCallArguments (file : SourceFile) : option (list Expression) :=
  match sourceStatements file with
  | [ExpressionStatement
       (Call (PropertyAccess (EIdentifier (Named "System")) "register") arguments)] =>
      Some arguments
  | _ => None
  end.

(** The statements of the body of a function expression. *)
Definition functionBody (e : Expression) : option (list Statement) :=
  match e with
  | FunctionExpression _ _ _ (Block statements) => Some statements
  | _ => None
  end.

(** The property [name] of the object that the last statement returns. *)
Definition returnedProperty (statements : list Statement) (name : string)
  : option Expression :=
  match last statements with
  | Some (ReturnStatement (ObjectLiteral properties)) =>
      head (omap
              (fun property =>
                 match property with
                 | PropertyAssignment (IdentifierName text) initializer =>
                     if decide (text = name) then Some initializer else None
                 | _ => None
                 end)
              properties)
  | _ => None
  end.

(** The statements of the body of the factory function of a transformed
    file: the third argument of the registration call. *)
Definition factoryBody (file : SourceFile) : option (list Statement) :=
  arguments ← registerCallArguments file;
  factory ← arguments !! 2%nat;
  functionBody factory.

(** The value that a computation returned, if it returned. *)
Definition returnedValue {A S : Type} (result : Outcome A * S) : option A :=
  match result.1 with
  | Returned value => Some value
  | Threw _ => None
  end.

(** The declaration of an export-star helper, with or without the exclusion
    test, as it can appear among the statements of a body. *)
Definition isExportStarHelper (statement : Statement) : bool :=
  match statement with
  | FunctionDeclaration _ _ _ (Some (UniqueName "exportStar" _)) _ _ => true
  | _ => false
  end.

(** The file has an [export * from ...]: an external export declaration
    without an export clause. *)
Definition isExportStar (externalImport : ExternalImport) : bool :=
  match externalImport with
  | ExternalExportDeclaration d => negb (bool_decide (is_Some (exportClause d)))
  | _ => false
  end.

(** ** Well-formed input *)

(** An export declaration has a clause or a module specifier (the parser
    produces no other). *)
Definition wellFormedStatement (node : Statement) : bool :=
  match node with
  | ExportDeclarationStatement d =>
      bool_decide (is_Some (moduleSpecifier d)) || bool_decide (is_Some (exportClause d))
  | _ => true
  end.

(** The module specifier of an external import is a string literal. *)
Definition hasLiteralSpecifier (entry : ExternalImport) : bool :=
  match getExternalModuleName entry with
  | Some (StringLiteralSpecifier _) => true
  | _ => false
  end.

(** ** Example inputs *)

(** A lexical environment that keeps the hoisted names and functions and
    renders them as one [var] statement followed by the functions. *)
Definition ExampleLexEnv : Type := list Identifier * list Statement.

Definition exampleResolver : EmitResolver :=
  {| getReferencedExportContainer := fun name =>
       if decide (name = Named "x") then Some SourceFileContainer else None;
     isValueAliasDeclaration := fun _ => true;
     getReferencedValueDeclaration := fun _ => None |}.

Definition exampleContext : TransformationContext ExampleLexEnv :=
  {| isolatedModules := false;
     resolver := exampleResolver;
     startLexicalEnvironment := fun _ => ([], []);
     endLexicalEnvironment := fun env =>
       ((match env.1 with
         | [] => []
         | names =>
             [VariableStatement []
                ((fun n => mkVariableDeclaration (BindingIdentifier n) None) <$> names)]
         end) ++ env.2, ([], []));
     hoistVariableDeclaration := fun name env => (env.1 ++ [name], env.2);
     hoistFunctionDeclaration := fun node env => (env.1, env.2 ++ [node]) |}.

(** Modelled from the spec: [collectExternalModuleInfo] is not under src/.
    Section 4.1: a single forward scan of the top-level statements that
    yields the external imports in source order, the local export
    specifiers, the [export =] record and the flag for [export *]. *)
Fixpoint exampleCollect (statements : list Statement) : ExternalModuleInfo :=
  match statements with
  | [] =>
      {| infoExternalImports := []; infoExportSpecifiers := ∅;
         infoExportEquals := None; infoHasExportStars := false |}
  | node :: rest =>
      let info := exampleCollect rest in
      match node with
      | ImportDeclarationStatement d =>
          {| infoExternalImports := ExternalImportDeclaration d :: infoExternalImports info;
             infoExportSpecifiers := infoExportSpecifiers info;
             infoExportEquals := infoExportEquals info;
             infoHasExportStars := infoHasExportStars info |}
      | ImportEqualsDeclarationStatement d =>
          match moduleReference d with
          | ExternalModuleReference _ =>
              {| infoExternalImports :=
                   ExternalImportEqualsDeclaration d :: infoExternalImports info;
                 infoExportSpecifiers := infoExportSpecifiers info;
                 infoExportEquals := infoExportEquals info;
                 infoHasExportStars := infoHasExportStars info |}
          | EntityNameReference _ => info
          end
      | ExportDeclarationStatement d =>
          match moduleSpecifier d, exportClause d with
          | Some _, clause =>
              {| infoExternalImports := ExternalExportDeclaration d :: infoExternalImports info;
                 infoExportSpecifiers := infoExportSpecifiers info;
                 infoExportEquals := infoExportEquals info;
                 infoHasExportStars :=
                   negb (bool_decide (is_Some clause)) || infoHasExportStars info |}
          | None, Some elements =>
              {| infoExternalImports := infoExternalImports info;
                 infoExportSpecifiers :=
                   foldr
                     (fun specifier specifiers =>
                        let key :=
                          identifierText
                            (default (exportSpecifierName specifier) (propertyName specifier)) in
                        <[key := specifier :: default [] (specifiers !! key)]> specifiers)
                     (infoExportSpecifiers info) elements;
                 infoExportEquals := infoExportEquals info;
                 infoHasExportStars := infoHasExportStars info |}
          | None, None => info
          end
      | ExportAssignment id true _ =>
          {| infoExternalImports := infoExternalImports info;
             infoExportSpecifiers := infoExportSpecifiers info;
             infoExportEquals := Some id;
             infoHasExportStars := infoHasExportStars info |}
      | _ => info
      end
  end.

Definition exampleCollectExternalModuleInfo (file : SourceFile) : ExternalModuleInfo :=
  exampleCollect (sourceStatements file).

(** The examples contain no destructuring with an initializer. *)
Definition exampleFlatten (node : VariableDeclaration) (env : ExampleLexEnv)
  : Expression * ExampleLexEnv := (Absent, env).

Definition exampleState : EmitState ExampleLexEnv :=
  {| transformState := initialTransformState;
     nextAutoGenerateId := 1;
     lexicalEnvironment := ([], []) |}.

Definition exampleFile (moduleName : option string) (statements : list Statement)
  : SourceFile :=
  {| fileId := 0; externalModuleIndicator := Some 1%nat; moduleName := moduleName;
     renamedDependencies := None; sourceStatements := statements |}.

Definition exampleImport (id : NodeId) (localName specifier : string) : ImportDeclaration :=
  {| importId := id;
     importClause :=
       Some {| importClauseName := None;
               namedBindings := Some (NamespaceImport (Named localName)) |};
     importModuleSpecifier := StringLiteralSpecifier specifier |}.

(** [export var x = 1;]: a module with a local export and no [export *]. *)
Definition exportedVariableFile : SourceFile :=
  exampleFile None
    [VariableStatement [Export]
       [mkVariableDeclaration (BindingIdentifier (Named "x")) (Some (NumericLiteral 1%Z))]].

(** [export default function f() {}]. *)
Definition defaultFunction : Statement :=
  FunctionDeclaration 4 [Export; Default] None (Some (Named "f")) [] (Block []).

(** ["use strict"; import * as a from "dep"; import * as c from "other";
    import * as b from "dep";] under the module name ["app"]. *)
Definition importingFile : SourceFile :=
  exampleFile (Some "app")
    [ExpressionStatement (StringLiteral "use strict");
     ImportDeclarationStatement (exampleImport 1 "a" "dep");
     ImportDeclarationStatement (exampleImport 2 "c" "other");
     ImportDeclarationStatement (exampleImport 3 "b" "dep")].

(** A runtime in which [x] is the exported variable, [y] a local one and
    [exports_1] the exporter that the loader passed in. *)
Definition exampleRuntime (x : Z) : Runtime :=
  {| scopes := [[(Named "x", VNumber x); (Named "y", VUndefined);
                 (UniqueName "exports" 1, VExporter)]];
     trace := [] |}.

Definition exampleTransformState : TransformState :=
  setExportFunctionForFile (Some (UniqueName "exports" 1)) initialTransformState.

(** A script: no import, no export, no external module indicator. *)
Definition scriptFile : SourceFile :=
  {| fileId := 0; externalModuleIndicator := None; moduleName := None;
     renamedDependencies := None;
     sourceStatements := [ExpressionStatement (StringLiteral "use strict")] |}.

(** The state in the middle of a file whose exporter is [exports_1]. *)
Definition exampleRunningState : EmitState ExampleLexEnv :=
  {| transformState := exampleTransformState; nextAutoGenerateId := 2;
     lexicalEnvironment := ([], []) |}.

(** A namespace object that a dependency hands to a setter, and the scopes
    around the helper: the exclusion map [{a: true}] and the exporter. *)
Definition exampleNamespace : list (string * Value) :=
  [("a", VNumber 1); ("b", VNumber 2); ("default", VNumber 3)].

Definition exampleOuterScopes : list (list (Identifier * Value)) :=
  [[(UniqueName "exportedNames" 2, VObject [("a", VBoolean true)]);
    (UniqueName "exports" 1, VExporter)]].

(** [export * from "m"], and the state of a file that holds it besides
    [export var a]. *)
Definition exampleExportStar : ExportDeclaration :=
  {| exportId := 5; exportClause := None;
     moduleSpecifier := Some (StringLiteralSpecifier "m") |}.

Definition exampleStarState : EmitState ExampleLexEnv :=
  {| transformState :=
       setExportedLocalNames (Some [Named "a"])
         (setExternalModuleInfo
            {| infoExternalImports := [ExternalExportDeclaration exampleExportStar];
               infoExportSpecifiers := ∅; infoExportEquals := None;
               infoHasExportStars := true |}
            exampleTransformState);
     nextAutoGenerateId := 2;
     lexicalEnvironment := ([], []) |}.

(** [export default class C {}]. *)
Definition defaultClass : Statement :=
  ClassDeclaration 6 [Export; Default] (Some (Named "C")) 0 0.

(** The external imports of [importingFile]. *)
Definition exampleEntries : list ExternalImport :=
  [ExternalImportDeclaration (exampleImport 1 "a" "dep");
   ExternalImportDeclaration (exampleImport 2 "c" "other");
   ExternalImportDeclaration (exampleImport 3 "b" "dep")].

(** ** Vocabulary of the statements below *)

(** The invariant of the loop of [collectDependencyGroups] after the entries
    [seen]: the groups are those of [seen], and [groupIndices] maps each
    group name to the index of its group. *)
Definition groupingInvariant (file : SourceFile) (seen : list ExternalImport)
    (acc : gmap string nat * list DependencyGroup) : Prop :=
  acc.2 = groupsBySpecifier file seen ∧
  ∀ text i, acc.1 !! text = Some i ↔
            firstOccurrences (omap (resolvedSpecifierText file) seen) !! i = Some text.

(** What the loop of [collectDependencyGroups] keeps whatever the specifier
    texts are: an index in [groupIndices] is the index of the group with
    that name, the groups together hold the entries seen so far, and the
    entries of a group have the name of the group as their specifier text. *)
Definition groupedSoFar (file : SourceFile) (seen : list ExternalImport)
    (acc : gmap string nat * list DependencyGroup) : Prop :=
  (∀ text i, acc.1 !! text = Some i →
             ∃ group, acc.2 !! i = Some group ∧ groupName group = text)
  ∧ concat (groupExternalImports <$> acc.2) ≡ₚ seen
  ∧ Forall (fun group =>
              Forall (fun entry => resolvedSpecifierText file entry = Some (groupName group))
                (groupExternalImports group)) acc.2.

(** No entry has the specifier text ["__proto__"]. *)
Definition noProtoSpecifier (file : SourceFile) (entries : list ExternalImport) : Prop :=
  Forall (fun entry => resolvedSpecifierText file entry ≠ Some "__proto__") entries.

(** The closure variables that only [transformSourceFile] and the worker
    assign are the same in [st'] as in [st]. *)
Definition sameFile (st st' : TransformState) : Prop :=
  currentSourceFile st' = currentSourceFile st ∧
  externalImports st' = externalImports st ∧
  exportSpecifiers st' = exportSpecifiers st ∧
  exportEquals st' = exportEquals st ∧
  hasExportStars st' = hasExportStars st ∧
  exportFunctionForFile st' = exportFunctionForFile st ∧
  contextObjectForFile st' = contextObjectForFile st.

(** [setter] is the setter function of [group]: one parameter, and as body
    the statements of the entries of the group. *)
Definition isSetterOf (st : TransformState) (exportStarFunction : Identifier)
    (group : DependencyGroup) (setter : Expression) : Prop :=
  ∃ parameterName statements,
    setter = FunctionExpression None None [NamedParameter (Some parameterName)]
               (Block statements)
    ∧ setterBody st exportStarFunction parameterName (groupExternalImports group)
      = Returned statements.

(** The tree that the worker returns, as a function of its pieces: the
    groups, the two generated identifiers, the statements between the
    [__moduleName] variable and the [return], the setters and the statements
    of [execute]. *)
Definition systemRegisterCall (node : SourceFile) (groups : list DependencyGroup)
    (exporter contextObject : Identifier) (middle : list Statement)
    (setters : list Expression) (executeStatements : list Statement) : SourceFile :=
  updateSourceFile node [
    ExpressionStatement
      (Call (PropertyAccess (EIdentifier (Named "System")) "register") [
         (if truthyString (moduleName node)
          then StringLiteral (default "" (moduleName node)) else Absent);
         ArrayLiteral (getNameOfDependencyGroup <$> groups);
         FunctionExpression None None
           [NamedParameter (Some exporter); NamedParameter (Some contextObject)]
           (Block
              (prologueDirectives (sourceStatements node) ++
               [moduleNameVariable (Some contextObject)] ++
               middle ++
               [ReturnStatement
                  (ObjectLiteral [
                     PropertyAssignment (IdentifierName "setters") (ArrayLiteral setters);
                     PropertyAssignment (IdentifierName "execute")
                       (FunctionExpression (Some (fileId node)) None []
                          (Block executeStatements))])]))])].

(** Section 4.6: a key of the incoming namespace is copied unless it is
    ["default"] or a key of the exclusion map. *)
Definition keepsKey (excluded : option (list (string * Value))) (key : string) : bool :=
  negb (bool_decide (key = "default"))
  && match excluded with
     | Some names => negb (hasOwnProperty names key)
     | None => true
     end.

Definition starExports (excluded : option (list (string * Value)))
    (namespace : list (string * Value)) : list (string * Value) :=
  filter (fun property => keepsKey excluded property.1 = true) namespace.

(** The scope of a running export-star helper, innermost, over [outer]. *)
Definition helperRuntime (namespace copied : list (string * Value)) (n : Value)
    (outer : list (list (Identifier * Value))) (calls : list (list Value)) : Runtime :=
  {| scopes :=
       [(Named "m", VObject namespace); (Named "exports", VObject copied); (Named "n", n)]
       :: outer;
     trace := calls |}.

(** The body of the loop of the export-star helper. *)
Definition helperLoopBody (localNames : option Identifier) : Statement :=
  createBlock [
    createIf (exportStarCondition localNames)
      (createStatement
         (createAssignment
            (createElementAccess (EIdentifier (Named "exports")) (EIdentifier (Named "n")))
            (createElementAccess (EIdentifier (Named "m")) (EIdentifier (Named "n")))))].

(** The exclusion map is bound in the scopes outside the helper. *)
Definition bindsExclusionMap (localNames : option Identifier)
    (excluded : option (list (string * Value)))
    (outer : list (list (Identifier * Value))) : Prop :=
  match localNames, excluded with
  | Some names, Some properties =>
      lookupScopes names outer = Some (VObject properties)
      ∧ names ∉ [Named "m"; Named "exports"; Named "n"]
  | None, None => True
  | _, _ => False
  end.

(** ** Expression substitution: identifiers and assignments *)

(** The declaration that [getReferencedImportDeclaration] reports for an
    identifier, with the import declaration it hangs under: [parent] of an
    import clause, [parent.parent.parent] of an import specifier. Any other
    kind of declaration is [OtherImportBinding]. *)
Inductive ImportBinding :=
  | ImportClauseBinding (clause : ImportClause) (parent : ImportDeclaration)
  | ImportSpecifierBinding (specifier : ImportSpecifier) (declaration : ImportDeclaration)
  | OtherImportBinding (node : NodeId).

(** [name.originalKeywordKind]: the keyword that an identifier spells. *)
Inductive KeywordKind :=
  | DefaultKeyword
  | OtherKeyword (kind : nat).

(** [getEmitScriptTarget(compilerOptions)]. *)
Inductive ScriptTarget :=
  | ES3
  | ES5
  | ES6.

#[global] Instance ScriptTarget_eq_dec : EqDecision ScriptTarget.
Proof. solve_decision. Defined.

(** Modelled from the spec: [isAssignmentOperator] (utilities.ts) is not
    under src/. Section 4.5: "whose operator is an assignment operator": [=]
    and the compound assignments; which of the other token kinds are compound
    assignments is [isCompoundAssignment]. *)
Definition isAssignmentOperator (isCompoundAssignment : nat -> bool) (token : Token) : bool :=
  match token with
  | EqualsToken => true
  | OtherToken kind => isCompoundAssignment kind
  | _ => false
  end.

Definition isExportedBinding (resolver : EmitResolver) (name : Identifier) : bool :=
  match getReferencedExportContainer resolver name with
  | Some SourceFileContainer => true
  | _ => false
  end.

(** The target of a destructuring assignment, as the functions below read
    it: of a binary expression only the left side and the operator, of a
    property only its kind and its name or initializer. *)
Inductive DestructuringNode :=
  | TargetIdentifier (name : Identifier)
  | TargetObjectLiteral (properties : list DestructuringProperty)
  | TargetArrayLiteral (elements : list DestructuringNode)
  | TargetBinary (target : DestructuringNode) (operatorToken : Token)
  | TargetSpreadElement (expression : DestructuringNode)
  | TargetOther
with DestructuringProperty :=
  | TargetShorthandPropertyAssignment (name : Identifier)
  | TargetPropertyAssignment (initializer : DestructuringNode)
  | TargetOtherProperty.

Definition isDestructuringPattern (node : DestructuringNode) : bool :=
  match node with
  | TargetIdentifier _ | TargetObjectLiteral _ | TargetArrayLiteral _ => true
  | _ => false
  end.

(** The spread case of the two element functions:
    [isIdentifier(expression) && isExportedBinding(expression)]. *)
Definition isExportedSpread (resolver : EmitResolver) (expression : DestructuringNode) : bool :=
  match expression with
  | TargetIdentifier name => isExportedBinding resolver name
  | _ => false
  end.

(** The bodies of the three element functions, over the pattern function
    that they call back. *)
Definition destructuringElementWith (resolver : EmitResolver)
    (pattern : DestructuringNode -> bool) (node : DestructuringNode) : bool :=
  match node with
  | TargetBinary target operatorToken =>
      bool_decide (operatorToken = EqualsToken)
      && isDestructuringPattern target
      && pattern target
  | TargetIdentifier name => isExportedBinding resolver name
  | TargetSpreadElement expression => isExportedSpread resolver expression
  | TargetObjectLiteral _ | TargetArrayLiteral _ => pattern node
  | TargetOther => false
  end.

Definition objectDestructuringElementWith (resolver : EmitResolver)
    (pattern : DestructuringNode -> bool) (node : DestructuringProperty) : bool :=
  match node with
  | TargetShorthandPropertyAssignment name => isExportedBinding resolver name
  | TargetPropertyAssignment initializer =>
      destructuringElementWith resolver pattern initializer
  | TargetOtherProperty => false
  end.

Definition arrayDestructuringElementWith (resolver : EmitResolver)
    (pattern : DestructuringNode -> bool) (node : DestructuringNode) : bool :=
  match node with
  | TargetSpreadElement expression => isExportedSpread resolver expression
  | _ => destructuringElementWith resolver pattern node
  end.

Fixpoint hasExportedReferenceInDestructuringPattern (resolver : EmitResolver)
    (node : DestructuringNode) : bool :=
  match node with
  | TargetIdentifier name => isExportedBinding resolver name
  | TargetObjectLiteral properties =>
      existsb
        (objectDestructuringElementWith resolver
           (hasExportedReferenceInDestructuringPattern resolver))
        properties
  | TargetArrayLiteral elements =>
      existsb
        (arrayDestructuringElementWith resolver
           (hasExportedReferenceInDestructuringPattern resolver))
        elements
  | _ => false
  end.

Definition hasExportedReferenceInDestructuringElement (resolver : EmitResolver)
  : DestructuringNode -> bool :=
  destructuringElementWith resolver (hasExportedReferenceInDestructuringPattern resolver).

Definition hasExportedReferenceInObjectDestructuringElement (resolver : EmitResolver)
  : DestructuringProperty -> bool :=
  objectDestructuringElementWith resolver (hasExportedReferenceInDestructuringPattern resolver).

Definition hasExportedReferenceInArrayDestructuringElement (resolver : EmitResolver)
  : DestructuringNode -> bool :=
  arrayDestructuringElementWith resolver (hasExportedReferenceInDestructuringPattern resolver).

(** An expression of the trees above as a destructuring target; those trees
    have no shorthand property and no spread element. *)
Fixpoint destructuringTarget (node : Expression) : DestructuringNode :=
  match node with
  | EIdentifier name => TargetIdentifier name
  | ObjectLiteral properties =>
      TargetObjectLiteral
        (map (fun property =>
                match property with
                | PropertyAssignment _ initializer =>
                    TargetPropertyAssignment (destructuringTarget initializer)
                end)
           properties)
  | ArrayLiteral elements => TargetArrayLiteral (map destructuringTarget elements)
  | Binary target operatorToken _ => TargetBinary (destructuringTarget target) operatorToken
  | _ => TargetOther
  end.

Section Substitution.

Context {LexEnv : Type}.
Variable context : TransformationContext LexEnv.

(** [resolver.getReferencedImportDeclaration], the emit target, the keyword
    kind that the parser stored on an identifier, the compound assignment
    tokens, the substitution hook that was installed before this one, and the
    destructuring flattener (destructuring.ts). *)
Variable getReferencedImportDeclaration : Identifier -> option ImportBinding.
Variable languageVersion : ScriptTarget.
Variable originalKeywordKind : Identifier -> option KeywordKind.
Variable isCompoundAssignment : nat -> bool.
Variable previousExpressionSubstitution : Expression -> LexEnv -> Expression * LexEnv.
Variable flattenDestructuringAssignment : Expression -> LexEnv -> Expression * LexEnv.

(** The last statement of [createImportBinding], on the alias and the name
    that the two branches before it set. *)
Definition importBindingAccess (importAlias name : Identifier) (keyword : option KeywordKind)
  : Expression :=
  if bool_decide (is_Some keyword) && bool_decide (languageVersion = ES3)
  then createElementAccess (EIdentifier importAlias) (createLiteral (identifierText name))
  else createPropertyAccess (EIdentifier importAlias)
         (identifierText (getSynthesizedClone name)).

(** [createImportBinding]; for a declaration that is neither an import
    clause nor an import specifier [name] stays [undefined] and reading
    [name.originalKeywordKind] throws. *)
Definition createImportBinding (importDeclaration : ImportBinding) : Outcome Expression :=
  match importDeclaration with
  | ImportClauseBinding _ parent =>
      Returned (importBindingAccess (getGeneratedNameForNode (importId parent))
                  (createIdentifier "default") (Some DefaultKeyword))
  | ImportSpecifierBinding specifier declaration =>
      let name :=
        default (importSpecifierName specifier) (importSpecifierPropertyName specifier) in
      Returned (importBindingAccess (getGeneratedNameForNode (importId declaration))
                  name (originalKeywordKind name))
  | OtherImportBinding _ => Threw TypeError
  end.

Definition substituteExpressionIdentifier (node : Identifier) : Outcome Expression :=
  match getReferencedImportDeclaration node with
  | Some importDeclaration => createImportBinding importDeclaration
  | None => Returned (EIdentifier node)
  end.

Definition substituteDestructuring (node : Expression) : M (EmitState LexEnv) Expression :=
  withLexicalEnvironment (flattenDestructuringAssignment node).

Definition substituteAssignmentExpression (node : Expression)
  : M (EmitState LexEnv) Expression :=
  match node with
  | Binary (EIdentifier target) _ _ =>
      match getReferencedExportContainer (resolver context) target with
      | Some _ =>
          st <- getTransformState ;;
          ret (createExportExpression st (EIdentifier target) node)
      | None => ret node
      end
  | Binary (ObjectLiteral properties) _ _ =>
      if hasExportedReferenceInDestructuringPattern (resolver context)
           (destructuringTarget (ObjectLiteral properties))
      then substituteDestructuring node
      else ret node
  | Binary (ArrayLiteral elements) _ _ =>
      if hasExportedReferenceInDestructuringPattern (resolver context)
           (destructuringTarget (ArrayLiteral elements))
      then substituteDestructuring node
      else ret node
  | _ => ret node
  end.

Definition substituteBinaryExpression (node : Expression) : M (EmitState LexEnv) Expression :=
  match node with
  | Binary _ operatorToken _ =>
      if isAssignmentOperator isCompoundAssignment operatorToken
      then substituteAssignmentExpression node
      else ret node
  | _ => ret node
  end.

Definition substituteExpression (node : Expression) : M (EmitState LexEnv) Expression :=
  node <- withLexicalEnvironment (previousExpressionSubstitution node) ;;
  match node with
  | EIdentifier name => liftOutcome (substituteExpressionIdentifier name)
  | Binary _ _ _ => substituteBinaryExpression node
  | PostfixUnary _ _ =>
      st <- getTransformState ;;
      ret (substitutePostfixUnaryExpression (resolver context) st node)
  | _ => ret node
  end.

End Substitution.

(** ** Vocabulary of the statements on the walk and on substitution *)

(** The simple names that a binding name declares, in source order. *)
Fixpoint boundNames (name : BindingName) : list Identifier :=
  match name with
  | BindingIdentifier n => [n]
  | BindingPattern elements =>
      (fix each (elements : list BindingElement) : list Identifier :=
         match elements with
         | [] => []
         | mkBindingElement (Some elementName) _ :: rest => boundNames elementName ++ each rest
         | mkBindingElement None _ :: rest => each rest
         end) elements
  end.

Definition declaredNames (node : VariableDeclaration) : list Identifier :=
  match node with
  | mkVariableDeclaration name _ => boundNames name
  end.

(** The binding name holds, at some depth, an array pattern with an omitted
    element ([[a, , b]]). *)
Fixpoint hasOmittedElement (name : BindingName) : bool :=
  match name with
  | BindingIdentifier _ => false
  | BindingPattern elements =>
      existsb
        (fun element =>
           match element with
           | mkBindingElement (Some elementName) _ => hasOmittedElement elementName
           | mkBindingElement None _ => true
           end)
        elements
  end.

(** The simple names of a binding name that come, in source order, before
    its first omitted element; without an omitted element, all its names. *)
Fixpoint namesBeforeOmittedElement (name : BindingName) : list Identifier :=
  match name with
  | BindingIdentifier n => [n]
  | BindingPattern elements =>
      (fix each (elements : list BindingElement) : list Identifier :=
         match elements with
         | [] => []
         | mkBindingElement (Some elementName) _ :: rest =>
             namesBeforeOmittedElement elementName
             ++ (if hasOmittedElement elementName then [] else each rest)
         | mkBindingElement None _ :: rest => []
         end) elements
  end.

Definition declaresOmittedElement (node : VariableDeclaration) : bool :=
  match node with
  | mkVariableDeclaration name _ => hasOmittedElement name
  end.

Definition hasInitializer (node : VariableDeclaration) : bool :=
  match node with
  | mkVariableDeclaration _ initializer => bool_decide (is_Some initializer)
  end.

(** [exportedLocalNames] after [names] have been recorded one by one. *)
Definition recordedNames (names : list Identifier) (st : TransformState) : TransformState :=
  match names with
  | [] => st
  | _ => setExportedLocalNames (Some (default [] (exportedLocalNames st) ++ names)) st
  end.

(** The state after the names [names] have been hoisted and, for an exported
    declaration, recorded. *)
Definition hoistedState {LexEnv : Type} (context : TransformationContext LexEnv)
    (names : list Identifier) (isExported : bool) (s : EmitState LexEnv) : EmitState LexEnv :=
  {| transformState :=
       if isExported then recordedNames names (transformState s) else transformState s;
     nextAutoGenerateId := nextAutoGenerateId s;
     lexicalEnvironment :=
       foldl (fun env n => hoistVariableDeclaration context n env) (lexicalEnvironment s)
         names |}.

(** The two registries of [st'] are those of [st] with entries appended, and
    the other closure variables are the same. *)
Definition appendOnly (st st' : TransformState) : Prop :=
  sameFile st st'
  ∧ (∃ names, default [] (exportedLocalNames st')
              = default [] (exportedLocalNames st) ++ names)
  ∧ (∃ exports, default [] (exportedFunctionDeclarations st')
                = default [] (exportedFunctionDeclarations st) ++ exports).

(** A computation of the walk, whatever its outcome: it fails no assertion,
    makes no unique name and only appends to the registries. *)
Definition keeps {LexEnv A : Type} (m : M (EmitState LexEnv) A) : Prop :=
  ∀ s, (m s).1 ≠ Threw AssertionFailure
       ∧ nextAutoGenerateId (m s).2 = nextAutoGenerateId s
       ∧ appendOnly (transformState s) (transformState (m s).2).

(** A computation that returns from every state. *)
Definition returns {S A : Type} (m : M S A) : Prop :=
  ∀ s, ∃ a s', m s = (Returned a, s').

(** Whatever the computation returns, when it returns, is as [Q] says. *)
Definition yields {S A : Type} (Q : A → Prop) (m : M S A) : Prop :=
  ∀ s a s', m s = (Returned a, s') → Q a.

(** The statement is no declaration: as the body of a loop, of a labeled or
    [with] statement or of a [try], its visit leaves exactly one statement
    (a variable statement can leave none, a function declaration leaves
    none, an exported class declaration leaves two). *)
Definition staysOneStatement (node : Statement) : bool :=
  match node with
  | VariableStatement _ _ | FunctionDeclaration _ _ _ _ _ _ | ClassDeclaration _ _ _ _ _
  | MissingStatement => false
  | _ => true
  end.

(** The binding of a loop: a [for] loop has an initializer and no
    declaration of it has an omitted element; the declaration list of a
    [for]-[in] or [for]-[of] loop has a first declaration, without omitted
    element. *)
Definition walkableForInitializer (initializer : option ForInitializer) : bool :=
  match initializer with
  | None => false
  | Some (VariableDeclarationList declarations) =>
      forallb (fun node => negb (declaresOmittedElement node)) declarations
  | Some (InitializerExpression _) => true
  end.

Definition walkableForBinding (initializer : ForInitializer) : bool :=
  match initializer with
  | VariableDeclarationList declarations =>
      match declarations with
      | firstDeclaration :: _ => negb (declaresOmittedElement firstDeclaration)
      | [] => false
      end
  | InitializerExpression _ => true
  end.

(** The statements nested in a node that [visitNestedNode] goes on to visit
    once it is on the node. *)
Definition clauseStatements (clause : CaseOrDefaultClause) : list Statement :=
  match clause with
  | CaseClause _ statements | DefaultClause statements => statements
  end.

Definition visitedChildren (node : Statement) : list Statement :=
  match node with
  | ForStatement _ _ _ statement | ForInStatement _ _ statement
  | ForOfStatement _ _ statement | DoStatement statement _ | WhileStatement _ statement
  | LabeledStatement _ statement | WithStatement _ statement => [statement]
  | SwitchStatement _ (mkCaseBlock clauses) => concat (clauseStatements <$> clauses)
  | TryStatement tryBlock catchClause finallyBlock =>
      tryBlock
      :: match catchClause with
         | Some (mkCatchClause _ block) => [block]
         | None => []
         end
      ++ match finallyBlock with
         | Some block => [block]
         | None => []
         end
  | Block statements => statements
  | _ => []
  end.

(** A statement on which [visitNestedNode] meets none of the faults above,
    at any depth that it reaches, and in which every body that it visits
    stays one statement. It does not reach into [if] statements and function
    bodies. *)
Fixpoint walkable (node : Statement) : bool :=
  match node with
  | VariableStatement _ declarations =>
      forallb (fun node => negb (declaresOmittedElement node)) declarations
  | ForStatement initializer _ _ statement =>
      walkableForInitializer initializer && staysOneStatement statement && walkable statement
  | ForInStatement initializer _ statement | ForOfStatement initializer _ statement =>
      walkableForBinding initializer && staysOneStatement statement && walkable statement
  | DoStatement statement _ | WhileStatement _ statement | LabeledStatement _ statement
  | WithStatement _ statement =>
      staysOneStatement statement && walkable statement
  | SwitchStatement _ (mkCaseBlock clauses) =>
      forallb
        (fun clause =>
           match clause with
           | CaseClause _ statements | DefaultClause statements => forallb walkable statements
           end)
        clauses
  | TryStatement tryBlock catchClause finallyBlock =>
      staysOneStatement tryBlock && walkable tryBlock
      && match catchClause with
         | Some (mkCatchClause _ block) => staysOneStatement block && walkable block
         | None => true
         end
      && match finallyBlock with
         | Some block => staysOneStatement block && walkable block
         | None => true
         end
  | Block statements => forallb walkable statements
  | _ => true
  end.

(** The test of [visitExportSpecifier]: the specifier denotes a value. *)
Definition isValueSpecifier (resolver : EmitResolver) (specifier : ExportSpecifier) : bool :=
  bool_decide
    (is_Some (getReferencedValueDeclaration resolver
                (default (exportSpecifierName specifier) (propertyName specifier))))
  || isValueAliasDeclaration resolver (exportSpecifierId specifier).

(** The identifiers that the search for an exported reference reaches in a
    destructuring target. *)
Definition spreadIdentifiers (expression : DestructuringNode) : list Identifier :=
  match expression with
  | TargetIdentifier name => [name]
  | _ => []
  end.

Definition elementIdentifiersWith (pattern : DestructuringNode -> list Identifier)
    (node : DestructuringNode) : list Identifier :=
  match node with
  | TargetBinary target operatorToken =>
      if bool_decide (operatorToken = EqualsToken) && isDestructuringPattern target
      then pattern target else []
  | TargetIdentifier name => [name]
  | TargetSpreadElement expression => spreadIdentifiers expression
  | TargetObjectLiteral _ | TargetArrayLiteral _ => pattern node
  | TargetOther => []
  end.

Fixpoint searchedIdentifiers (node : DestructuringNode) : list Identifier :=
  match node with
  | TargetIdentifier name => [name]
  | TargetObjectLiteral properties =>
      flat_map
        (fun property =>
           match property with
           | TargetShorthandPropertyAssignment name => [name]
           | TargetPropertyAssignment initializer =>
               elementIdentifiersWith searchedIdentifiers initializer
           | TargetOtherProperty => []
           end)
        properties
  | TargetArrayLiteral elements =>
      flat_map
        (fun element =>
           match element with
           | TargetSpreadElement expression => spreadIdentifiers expression
           | _ => elementIdentifiersWith searchedIdentifiers element
           end)
        elements
  | _ => []
  end.

(** A statement that the walk has no case for: it is neither a module
    declaration nor one of the kinds that [visitNestedNode] rewrites. *)
Definition isPlainStatement (node : Statement) : bool :=
  match node with
  | ExpressionStatement _ | ReturnStatement _ | IfStatement _ _ _
  | OtherStatement _ _ => true
  | _ => false
  end.

(** The state in which the worker starts the walk of [node]: the module
    information, the exporter and the context object are set, two unique
    names are taken, and a lexical environment is started. *)
Definition walkState {LexEnv : Type} (context : TransformationContext LexEnv)
    (collectExternalModuleInfo : SourceFile -> ExternalModuleInfo) (node : SourceFile)
    (s : EmitState LexEnv) : EmitState LexEnv :=
  {| transformState :=
       setContextObjectForFile (Some (UniqueName "context" (S (nextAutoGenerateId s))))
         (setExportFunctionForFile (Some (UniqueName "exports" (nextAutoGenerateId s)))
            (setExternalModuleInfo (collectExternalModuleInfo node)
               (setCurrentSourceFile (Some node) (transformState s))));
     nextAutoGenerateId := S (S (nextAutoGenerateId s));
     lexicalEnvironment := startLexicalEnvironment context (lexicalEnvironment s) |}.

(** What [addExportStarIfNeeded] appends when the next unique name has the
    number [n]: the helper alone, or the exclusion map and the helper that
    consults it. *)
Definition exportStarStatements (st : TransformState) (imports : list ExternalImport)
    (n : nat) : list Statement :=
  if bool_decide (exportedLocalNames st = None) && isEmpty (exportSpecifiers st)
     && negb (hasExportDeclarationWithExportClause imports)
  then [exportStarFunctionDeclaration st (UniqueName "exportStar" n) None]
  else [VariableStatement []
          [mkVariableDeclaration (BindingIdentifier (UniqueName "exportedNames" n))
             (Some (ObjectLiteral (exportedNameProperty <$> exportedNamesOf st imports)))];
        exportStarFunctionDeclaration st (UniqueName "exportStar" (S n))
          (Some (UniqueName "exportedNames" n))].

(** The exporter call that [visitFunctionDeclaration] queues for an exported
    function declaration. *)
Definition queuedFunctionExport (exporter : option Identifier) (id : NodeId)
    (name : option Identifier) : Statement :=
  ExpressionStatement
    (Call (identifierOrAbsent exporter)
       [StringLiteral (identifierText (default (GeneratedNameForNode id) name));
        EIdentifier (default (GeneratedNameForNode id) name)]).

(** The import binding [binding] hangs under the import declaration [d]: it
    is the import clause of [d], which names a default import, or one of the
    specifiers of the named imports of [d]. *)
Definition declaredBy (binding : ImportBinding) (d : ImportDeclaration) : Prop :=
  match binding with
  | ImportClauseBinding clause parent =>
      parent = d ∧ importClause d = Some clause ∧ is_Some (importClauseName clause)
  | ImportSpecifierBinding specifier declaration =>
      declaration = d
      ∧ ∃ clause elements,
          importClause d = Some clause
          ∧ namedBindings clause = Some (NamedImports elements)
          ∧ specifier ∈ elements
  | OtherImportBinding _ => False
  end.

(** The name under which the module that [binding] comes from exports it. *)
Definition importedName (binding : ImportBinding) : string :=
  match binding with
  | ImportClauseBinding _ _ => "default"
  | ImportSpecifierBinding specifier _ =>
      identifierText
        (default (importSpecifierName specifier) (importSpecifierPropertyName specifier))
  | OtherImportBinding _ => ""
  end.

(** The object that the setter of [export {a, b as c} from ...] hands to the
    exporter: under each exported name the value that the namespace holds
    under the name it is imported by. *)
Definition reexportedObject (namespace : list (string * Value))
    (elements : list ExportSpecifier) : list (string * Value) :=
  foldl
    (fun object element =>
       setProperty object (identifierText (exportSpecifierName element))
         (getProperty namespace
            (identifierText (default (exportSpecifierName element) (propertyName element)))))
    [] elements.

(** A declaration as it can stand at the top level of a module: an import
    or export declaration, an export assignment, or a variable, function or
    class declaration. *)
Definition isDeclarationStatement (node : Statement) : bool :=
  match node with
  | ImportDeclarationStatement _ | ImportEqualsDeclarationStatement _
  | ExportDeclarationStatement _ | ExportAssignment _ _ _
  | VariableStatement _ _ | FunctionDeclaration _ _ _ _ _ _
  | ClassDeclaration _ _ _ _ _ => true
  | _ => false
  end.

(** ** Further example inputs *)

(** [import * as a from "__proto__"; import * as b from "__proto__";]. *)
Definition protoEntries : list ExternalImport :=
  [ExternalImportDeclaration (exampleImport 14 "a" "__proto__");
   ExternalImportDeclaration (exampleImport 15 "b" "__proto__")].

(** [export var x = 1; for (var item of items) { var y = item; }]: the walk
    goes into the loop. *)
Definition loopFile : SourceFile :=
  exampleFile None
    [VariableStatement [Export]
       [mkVariableDeclaration (BindingIdentifier (Named "x")) (Some (NumericLiteral 1%Z))];
     ForOfStatement
       (VariableDeclarationList [mkVariableDeclaration (BindingIdentifier (Named "item")) None])
       (EIdentifier (Named "items"))
       (Block
          [VariableStatement []
             [mkVariableDeclaration (BindingIdentifier (Named "y"))
                (Some (EIdentifier (Named "item")))]])].

(** [export var [a, , b] = arr;]: an array pattern with an omitted element. *)
Definition omittedElementFile : SourceFile :=
  exampleFile None
    [VariableStatement [Export]
       [mkVariableDeclaration
          (BindingPattern
             [mkBindingElement (Some (BindingIdentifier (Named "a"))) None;
              mkBindingElement None None;
              mkBindingElement (Some (BindingIdentifier (Named "b"))) None])
          (Some (EIdentifier (Named "arr")))]].

(** [export function f() {}]. *)
Definition exportedFunction : Statement :=
  FunctionDeclaration 4 [Export] None (Some (Named "f")) [] (Block []).

Definition exportedFunctionFile : SourceFile :=
  exampleFile None [exportedFunction].

(** ["use strict"; if (c) { var x = 1; } go;]: no import, no export and no
    declaration at the top level. *)
Definition plainFile : SourceFile :=
  exampleFile None
    [ExpressionStatement (StringLiteral "use strict");
     IfStatement (EIdentifier (Named "c"))
       (Block
          [VariableStatement []
             [mkVariableDeclaration (BindingIdentifier (Named "x"))
                (Some (NumericLiteral 1%Z))]])
       None;
     ExpressionStatement (EIdentifier (Named "go"))].

(** A module whose only import has a specifier that is no string literal. *)
Definition computedImportFile : SourceFile :=
  exampleFile None
    [ImportDeclarationStatement
       {| importId := 8; importClause := None; importModuleSpecifier := OtherSpecifier 9 |}].

(** [import d from "dep"], and a resolver for which [d] is bound to it. *)
Definition exampleDefaultClause : ImportClause :=
  {| importClauseName := Some (Named "d"); namedBindings := None |}.

Definition exampleDefaultImport : ImportDeclaration :=
  {| importId := 10; importClause := Some exampleDefaultClause;
     importModuleSpecifier := StringLiteralSpecifier "dep" |}.

Definition exampleReferencedImport (name : Identifier) : option ImportBinding :=
  if decide (name = Named "d")
  then Some (ImportClauseBinding exampleDefaultClause exampleDefaultImport)
  else None.

(** [export {a, b as c} from "m"]. *)
Definition exampleReexport : ExportDeclaration :=
  {| exportId := 11;
     exportClause :=
       Some [ {| exportSpecifierId := 12; propertyName := None;
                 exportSpecifierName := Named "a" |};
              {| exportSpecifierId := 13; propertyName := Some (Named "b");
                 exportSpecifierName := Named "c" |} ];
     moduleSpecifier := Some (StringLiteralSpecifier "m") |}.

(** A runtime inside a setter: the parameter holds the namespace of the
    dependency, and the alias of the import and the exporter are bound
    outside. *)
Definition exampleSetterRuntime : Runtime :=
  {| scopes :=
       [[(UniqueName "dep" 3, VObject exampleNamespace)];
        [(GeneratedNameForNode 10, VUndefined); (UniqueName "exports" 1, VExporter)]];
     trace := [] |}.

(** A substitution hook that leaves every expression alone. *)
Definition noSubstitution {LexEnv : Type} (node : Expression) (env : LexEnv)
  : Expression * LexEnv := (node, env).

(** * Properties *)

Set Warnings "-clear-no-such-hyp".

(** *** The dependency grouper *)

Lemma getExternalModuleNameLiteral_resolved file entry :
  getExternalModuleNameLiteral (Some file) entry =
    match getExternalModuleName entry with
    | None => Threw TypeError
    | Some _ => Returned (resolvedSpecifierText file entry)
    end.
Proof.
  unfold getExternalModuleNameLiteral, resolvedSpecifierText, tryRenameExternalModule.
  destruct (getExternalModuleName entry) as [[text|other]|]; try done.
  destruct (renamedDependencies file) as [renamed|]; simpl; [|done].
  by destruct (renamed !! text).
Qed.

Lemma firstOccurrences_elem_of t l : t ∈ firstOccurrences l ↔ t ∈ l.
Proof.
  induction l as [|x l IH]; simpl; [done|].
  rewrite !elem_of_cons, list_elem_of_filter, IH.
  destruct (decide (t = x)); naive_solver.
Qed.

Lemma firstOccurrences_NoDup l : NoDup (firstOccurrences l).
Proof.
  induction l as [|x l IH]; simpl; [constructor|].
  constructor; [|by apply NoDup_filter].
  rewrite list_elem_of_filter. naive_solver.
Qed.

Lemma firstOccurrences_snoc l t :
  firstOccurrences (l ++ [t]) =
    if decide (t ∈ l) then firstOccurrences l else firstOccurrences l ++ [t].
Proof.
  induction l as [|x l IH]; simpl.
  - destruct (decide (t ∈ [])) as [Hin|_]; [by apply elem_of_nil in Hin|done].
  - rewrite IH. destruct (decide (t ∈ l)) as [Hin|Hin].
    + rewrite decide_True; [done|set_solver].
    + rewrite filter_app. simpl. destruct (decide (t = x)) as [->|Hne].
      * rewrite decide_True by set_solver.
        rewrite filter_cons_False by naive_solver. simpl. by rewrite app_nil_r.
      * rewrite decide_False by set_solver.
        rewrite filter_cons_True by done. done.
Qed.

Section Grouping.

Variable file : SourceFile.
Local Abbreviation text := (resolvedSpecifierText file).

Lemma groupOf_snoc_same entries entry t :
  text entry = Some t →
  groupOf file (entries ++ [entry]) t = pushExternalImport entry (groupOf file entries t).
Proof.
  intros Ht. unfold groupOf, pushExternalImport. simpl. f_equal.
  rewrite filter_app. f_equal. by rewrite filter_cons_True.
Qed.

Lemma groupOf_snoc_other entries entry t u :
  text entry = Some t → u ≠ t →
  groupOf file (entries ++ [entry]) u = groupOf file entries u.
Proof.
  intros Ht Hne. unfold groupOf. f_equal.
  rewrite filter_app, filter_cons_False, filter_nil, app_nil_r; [done|].
  rewrite Ht. congruence.
Qed.

Lemma groupOf_fresh entries entry t :
  text entry = Some t → t ∉ omap text entries →
  groupOf file (entries ++ [entry]) t = {| groupName := t; groupExternalImports := [entry] |}.
Proof.
  intros Ht Hfresh. unfold groupOf. f_equal.
  rewrite filter_app, filter_cons_True, filter_nil by done.
  replace (filter _ entries) with (@nil ExternalImport); [done|].
  symmetry. clear Ht. induction entries as [|e entries IH]; [done|].
  simpl in Hfresh. destruct (text e) as [u|] eqn:He; simpl in Hfresh.
  - apply not_elem_of_cons in Hfresh as [Hne Hfresh].
    rewrite filter_cons_False by congruence. auto.
  - rewrite filter_cons_False by congruence. auto.
Qed.

Lemma groupsBySpecifier_names entries :
  groupName <$> groupsBySpecifier file entries = firstOccurrences (omap text entries).
Proof.
  unfold groupsBySpecifier. rewrite <- list_fmap_compose.
  rewrite <- (list_fmap_id (firstOccurrences _)) at 2. by apply list_fmap_ext.
Qed.

Lemma groupsBySpecifier_snoc_seen entries entry t i :
  text entry = Some t →
  firstOccurrences (omap text entries) !! i = Some t →
  groupsBySpecifier file (entries ++ [entry]) =
    <[i := pushExternalImport entry (groupOf file entries t)]> (groupsBySpecifier file entries).
Proof.
  intros Ht Hi. unfold groupsBySpecifier.
  rewrite omap_app. simpl. rewrite Ht. simpl. rewrite firstOccurrences_snoc.
  assert (t ∈ omap text entries) as Hin.
  { apply firstOccurrences_elem_of. by eapply list_elem_of_lookup_2. }
  rewrite decide_True by done.
  apply list_eq. intros j. destruct (decide (j = i)) as [->|Hne].
  - rewrite list_lookup_insert_eq.
    + rewrite list_lookup_fmap, Hi. simpl. by rewrite (groupOf_snoc_same entries entry t).
    + rewrite length_fmap. by eapply lookup_lt_Some.
  - rewrite list_lookup_insert_ne by done. rewrite !list_lookup_fmap.
    destruct (firstOccurrences (omap text entries) !! j) as [u|] eqn:Hj; [|done].
    simpl. f_equal. apply (groupOf_snoc_other entries entry t u); [done|]. intros ->.
    apply Hne. eapply NoDup_lookup; eauto using firstOccurrences_NoDup.
Qed.

Lemma groupsBySpecifier_snoc_fresh entries entry t :
  text entry = Some t →
  t ∉ omap text entries →
  groupsBySpecifier file (entries ++ [entry]) =
    groupsBySpecifier file entries ++ [{| groupName := t; groupExternalImports := [entry] |}].
Proof.
  intros Ht Hfresh. unfold groupsBySpecifier.
  rewrite omap_app. simpl. rewrite Ht. simpl. rewrite firstOccurrences_snoc.
  rewrite decide_False by done. rewrite fmap_app. simpl.
  rewrite groupOf_fresh by done. f_equal.
  apply list_fmap_ext. intros j u Hu.
  apply (groupOf_snoc_other entries entry t u); [done|]. intros ->.
  apply Hfresh. apply firstOccurrences_elem_of. by eapply list_elem_of_lookup_2.
Qed.

Lemma collectDependencyGroupsStep_invariant seen acc entry t :
  groupingInvariant file seen acc →
  text entry = Some t →
  t ≠ "__proto__" →
  ∃ acc', collectDependencyGroupsStep (Some file) acc entry = Returned acc'
          ∧ groupingInvariant file (seen ++ [entry]) acc'.
Proof.
  intros [Hgroups Hindex] Ht Hproto. destruct acc as [groupIndices dependencyGroups].
  simpl in *. unfold collectDependencyGroupsStep, setGroupIndex.
  rewrite getExternalModuleNameLiteral_resolved.
  assert (is_Some (getExternalModuleName entry)) as [spec Hspec].
  { unfold resolvedSpecifierText in Ht. destruct (getExternalModuleName entry); eauto. done. }
  rewrite Hspec, Ht. rewrite (decide_False (P := t = "__proto__")) by done.
  destruct (groupIndices !! t) as [i|] eqn:Hlookup.
  - pose proof (proj1 (Hindex t i) Hlookup) as Hi.
    assert (dependencyGroups !! i = Some (groupOf file seen t)) as ->.
    { rewrite Hgroups. unfold groupsBySpecifier. by rewrite list_lookup_fmap, Hi. }
    eexists. split; [done|]. split; simpl.
    + rewrite Hgroups. symmetry. by apply groupsBySpecifier_snoc_seen.
    + intros u j. rewrite Hindex, omap_app. simpl. rewrite Ht. simpl.
      rewrite firstOccurrences_snoc, decide_True; [done|].
      apply firstOccurrences_elem_of. by eapply list_elem_of_lookup_2.
  - assert (t ∉ omap text seen) as Hfresh.
    { intros Hin. apply firstOccurrences_elem_of, list_elem_of_lookup in Hin as [i Hi].
      apply Hindex in Hi. congruence. }
    eexists. split; [done|]. split; simpl.
    + rewrite Hgroups. symmetry. by apply groupsBySpecifier_snoc_fresh.
    + intros u j. rewrite omap_app. simpl. rewrite Ht. simpl.
      rewrite firstOccurrences_snoc, decide_False by done.
      assert (length dependencyGroups = length (firstOccurrences (omap text seen))) as Hlen.
      { by rewrite Hgroups, <- groupsBySpecifier_names, length_fmap. }
      rewrite Hlen. destruct (decide (u = t)) as [->|Hne].
      * rewrite lookup_insert_eq. split.
        -- intros [= <-]. by rewrite lookup_app_r, Nat.sub_diag.
        -- intros Hj. f_equal.
           destruct (decide (j < length (firstOccurrences (omap text seen)))%nat).
           ++ rewrite lookup_app_l in Hj by done. exfalso. apply Hfresh.
              apply firstOccurrences_elem_of. by eapply list_elem_of_lookup_2.
           ++ apply lookup_lt_Some in Hj. rewrite length_app in Hj. simpl in Hj. lia.
      * rewrite lookup_insert_ne by done. rewrite Hindex. split.
        -- intros Hj. rewrite lookup_app_l; [done|]. by eapply lookup_lt_Some.
        -- intros Hj. destruct (decide (j < length (firstOccurrences (omap text seen)))%nat).
           ++ by rewrite lookup_app_l in Hj.
           ++ rewrite lookup_app_r in Hj by lia.
              destruct (j - _)%nat; simpl in Hj; [congruence|done].
Qed.

Lemma collectDependencyGroupsLoop_invariant entries : ∀ seen acc,
  groupingInvariant file seen acc →
  Forall (fun entry => is_Some (text entry)) entries →
  noProtoSpecifier file entries →
  ∃ acc', collectDependencyGroupsLoop (Some file) acc entries = Returned acc'
          ∧ groupingInvariant file (seen ++ entries) acc'.
Proof.
  induction entries as [|entry entries IH]; intros seen acc Hinv Hall Hproto.
  - exists acc. by rewrite app_nil_r.
  - apply Forall_cons in Hall as [[t Ht] Hall].
    apply Forall_cons in Hproto as [Hentry Hproto].
    destruct (collectDependencyGroupsStep_invariant seen acc entry t Hinv Ht)
      as (acc' & Hstep & Hinv'); [congruence|].
    simpl. rewrite Hstep.
    destruct (IH (seen ++ [entry]) acc' Hinv' Hall Hproto) as (acc'' & Hloop & Hinv'').
    exists acc''. split; [done|]. by rewrite <- app_assoc in Hinv''.
Qed.

Lemma collectDependencyGroups_refines_spec entries :
  Forall (fun entry => is_Some (text entry)) entries →
  noProtoSpecifier file entries →
  collectDependencyGroups (Some file) entries = Returned (groupsBySpecifier file entries).
Proof.
  intros Hall Hproto.
  destruct (collectDependencyGroupsLoop_invariant entries [] (∅, [])) as (acc & Hloop & Hinv).
  - split; [done|]. intros t i. simpl. by rewrite lookup_empty.
  - done.
  - done.
  - unfold collectDependencyGroups. rewrite Hloop. destruct acc as [gi gs].
    destruct Hinv as [Hgs _]. simpl in *. by rewrite Hgs.
Qed.

(** The loop with any specifier texts, ["__proto__"] included. *)
Lemma concat_insert_push (groups : list DependencyGroup) i group entry :
  groups !! i = Some group →
  concat (groupExternalImports <$> <[i := pushExternalImport entry group]> groups)
  ≡ₚ concat (groupExternalImports <$> groups) ++ [entry].
Proof.
  intros Hgroup. rewrite insert_take_drop by (by eapply lookup_lt_Some).
  rewrite <- (take_drop_middle groups i group Hgroup) at 3.
  rewrite !fmap_app, !fmap_cons, !concat_app. simpl. solve_Permutation.
Qed.

Lemma collectDependencyGroupsStep_grouped seen acc entry t :
  groupedSoFar file seen acc →
  text entry = Some t →
  ∃ acc', collectDependencyGroupsStep (Some file) acc entry = Returned acc'
          ∧ groupedSoFar file (seen ++ [entry]) acc'.
Proof.
  intros (Hindex & Hall & Hnames) Ht. destruct acc as [groupIndices dependencyGroups].
  simpl in *. unfold collectDependencyGroupsStep.
  rewrite getExternalModuleNameLiteral_resolved.
  assert (is_Some (getExternalModuleName entry)) as [spec Hspec].
  { unfold resolvedSpecifierText in Ht. destruct (getExternalModuleName entry); eauto. done. }
  rewrite Hspec, Ht.
  destruct (groupIndices !! t) as [i|] eqn:Hlookup.
  - destruct (Hindex t i Hlookup) as (group & Hgroup & Hname).
    rewrite Hgroup. eexists. split; [done|]. split; [|split]; simpl.
    + intros u j Hj. destruct (Hindex u j Hj) as (other & Hother & Hu).
      destruct (decide (j = i)) as [->|Hne].
      * exists (pushExternalImport entry group).
        rewrite list_lookup_insert_eq by (by eapply lookup_lt_Some).
        split; [done|]. simpl. congruence.
      * exists other. by rewrite list_lookup_insert_ne.
    + rewrite (concat_insert_push _ _ _ _ Hgroup). by f_equiv.
    + apply Forall_insert; [done|]. simpl. apply Forall_app. split.
      * by eapply (Forall_lookup_1 _ _ _ _ Hnames).
      * constructor; [congruence|constructor].
  - eexists. split; [done|]. split; [|split]; simpl.
    + intros u j Hj. unfold setGroupIndex in Hj.
      assert (groupIndices !! u = Some j
              ∨ u = t ∧ j = length dependencyGroups) as [Hold|[-> ->]].
      { destruct (decide (t = "__proto__")); [by left|].
        destruct (decide (u = t)) as [->|Hne].
        - rewrite lookup_insert_eq in Hj. right. by injection Hj as <-.
        - rewrite lookup_insert_ne in Hj by done. by left. }
      * destruct (Hindex u j Hold) as (other & Hother & Hu).
        exists other. split; [|done]. rewrite lookup_app_l; [done|]. by eapply lookup_lt_Some.
      * eexists. rewrite lookup_app_r, Nat.sub_diag by done. done.
    + rewrite fmap_app, concat_app. simpl. by f_equiv.
    + apply Forall_app. split; [done|]. repeat constructor. done.
Qed.

Lemma collectDependencyGroupsLoop_grouped entries : ∀ seen acc,
  groupedSoFar file seen acc →
  Forall (fun entry => is_Some (text entry)) entries →
  ∃ acc', collectDependencyGroupsLoop (Some file) acc entries = Returned acc'
          ∧ groupedSoFar file (seen ++ entries) acc'.
Proof.
  induction entries as [|entry entries IH]; intros seen acc Hinv Hall.
  - exists acc. by rewrite app_nil_r.
  - apply Forall_cons in Hall as [[t Ht] Hall].
    destruct (collectDependencyGroupsStep_grouped seen acc entry t Hinv Ht)
      as (acc' & Hstep & Hinv').
    simpl. rewrite Hstep.
    destruct (IH (seen ++ [entry]) acc' Hinv' Hall) as (acc'' & Hloop & Hinv'').
    exists acc''. split; [done|]. by rewrite <- app_assoc in Hinv''.
Qed.

Lemma collectDependencyGroups_grouped entries :
  Forall (fun entry => is_Some (text entry)) entries →
  ∃ groups,
    collectDependencyGroups (Some file) entries = Returned groups
    ∧ concat (groupExternalImports <$> groups) ≡ₚ entries
    ∧ Forall (fun group =>
                Forall (fun entry => text entry = Some (groupName group))
                  (groupExternalImports group)) groups.
Proof.
  intros Hall.
  destruct (collectDependencyGroupsLoop_grouped entries [] (∅, [])) as (acc & Hloop & Hinv).
  - split; [|split]; simpl; [|done|constructor]. intros t i. by rewrite lookup_empty.
  - done.
  - unfold collectDependencyGroups. rewrite Hloop. destruct acc as [gi gs].
    destruct Hinv as (_ & Hconcat & Hnames). simpl in *. eauto.
Qed.

Lemma hasLiteralSpecifier_resolved entry :
  hasLiteralSpecifier entry = true ↔ is_Some (text entry).
Proof.
  unfold hasLiteralSpecifier, resolvedSpecifierText.
  destruct (getExternalModuleName entry) as [[literal|other]|]; split;
    try done; try (intros [? ?]; done); eauto.
Qed.

Lemma concat_filter_nil (texts : list string) :
  concat ((fun t => filter (fun entry => text entry = Some t) []) <$> texts) = [].
Proof. induction texts as [|t texts IH]; simpl; done. Qed.

Lemma concat_filter_cons entry entries t0 texts :
  text entry = Some t0 → NoDup texts →
  concat ((fun t => filter (fun e => text e = Some t) (entry :: entries)) <$> texts)
  ≡ₚ (if decide (t0 ∈ texts) then [entry] else [])
     ++ concat ((fun t => filter (fun e => text e = Some t) entries) <$> texts).
Proof.
  intros Ht0. induction texts as [|t texts IH]; intros Hnodup.
  - destruct (decide (t0 ∈ [])) as [Hin|_]; [by apply elem_of_nil in Hin|done].
  - apply NoDup_cons in Hnodup as [Hfresh Hnodup].
    rewrite !fmap_cons. cbn [concat]. rewrite (IH Hnodup).
    destruct (decide (t = t0)) as [->|Hne].
    + rewrite filter_cons_True by done.
      destruct (decide (t0 ∈ t0 :: texts)) as [_|Hout];
        [|exfalso; apply Hout, list_elem_of_here].
      destruct (decide (t0 ∈ texts)); [done|]. done.
    + rewrite filter_cons_False by congruence.
      destruct (decide (t0 ∈ texts)) as [Hin|Hnotin].
      * destruct (decide (t0 ∈ t :: texts)) as [_|Hout];
          [|exfalso; by apply Hout, list_elem_of_further].
        cbn [app]. by rewrite Permutation_middle.
      * destruct (decide (t0 ∈ t :: texts)) as [Hin|_]; [|done].
        apply elem_of_cons in Hin as [->|Hin]; done.
Qed.

Lemma concat_groups_Permutation entries texts :
  NoDup texts →
  (∀ entry, entry ∈ entries → ∃ t, t ∈ texts ∧ text entry = Some t) →
  concat ((fun t => filter (fun entry => text entry = Some t) entries) <$> texts) ≡ₚ entries.
Proof.
  intros Hnodup. induction entries as [|entry entries IH]; intros Hcover.
  - by rewrite concat_filter_nil.
  - destruct (Hcover entry) as (t0 & Hin & Ht0); [apply list_elem_of_here|].
    rewrite (concat_filter_cons entry entries t0) by done.
    rewrite decide_True by done. simpl. f_equiv. apply IH.
    intros e He. apply Hcover. by apply list_elem_of_further.
Qed.

End Grouping.

(** X21: on entries whose module specifiers are string literals, none of
    which reads ["__proto__"], the dependency grouper returns groups whose names
    are pairwise distinct; every entry is in exactly one group and the groups
    together hold exactly the entries; the names come in first-occurrence
    order of the (renamed) specifier text; and a group holds the entries with
    its text in source order. *)
Theorem collectDependencyGroups_groups_without_proto file entries :
  Forall (fun entry => hasLiteralSpecifier entry = true) entries →
  noProtoSpecifier file entries →
  ∃ groups,
    collectDependencyGroups (Some file) entries = Returned groups
    ∧ NoDup (groupName <$> groups)
    ∧ (∀ entry, entry ∈ entries →
         ∃ group, group ∈ groups ∧ entry ∈ groupExternalImports group
                  ∧ ∀ other, other ∈ groups → entry ∈ groupExternalImports other →
                             other = group)
    ∧ concat (groupExternalImports <$> groups) ≡ₚ entries
    ∧ groupName <$> groups = firstOccurrences (omap (resolvedSpecifierText file) entries)
    ∧ (∀ group, group ∈ groups →
         groupExternalImports group
         = filter (fun entry => resolvedSpecifierText file entry = Some (groupName group))
             entries).
Proof.
  intros Hliteral Hproto.
  assert (Forall (fun entry => is_Some (resolvedSpecifierText file entry)) entries) as Hall.
  { eapply Forall_impl; [exact Hliteral|]. intros e. apply hasLiteralSpecifier_resolved. }
  exists (groupsBySpecifier file entries).
  split; [by apply collectDependencyGroups_refines_spec|].
  pose proof (groupsBySpecifier_names file entries) as Hnames.
  assert (∀ group, group ∈ groupsBySpecifier file entries →
            group = groupOf file entries (groupName group)) as Hshape.
  { intros group Hin. unfold groupsBySpecifier in Hin.
    apply list_elem_of_fmap in Hin as (t & -> & _). done. }
  split; [rewrite Hnames; apply firstOccurrences_NoDup|].
  split; [|split; [|split; [done|]]].
  - intros entry Hentry.
    rewrite Forall_forall in Hall. destruct (Hall entry Hentry) as [t Ht].
    exists (groupOf file entries t). split; [|split].
    + unfold groupsBySpecifier. apply list_elem_of_fmap. exists t. split; [done|].
      apply firstOccurrences_elem_of, list_elem_of_omap. eauto.
    + simpl. by apply list_elem_of_filter.
    + intros other Hother Hmember. rewrite (Hshape other Hother) in Hmember |- *.
      simpl in Hmember. apply list_elem_of_filter in Hmember as [Heq _].
      rewrite Ht in Heq. by injection Heq as <-.
  - unfold groupsBySpecifier. rewrite <- list_fmap_compose.
    apply (concat_groups_Permutation file); [apply firstOccurrences_NoDup|].
    intros entry Hentry. rewrite Forall_forall in Hall.
    destruct (Hall entry Hentry) as [t Ht]. exists t. split; [|done].
    apply firstOccurrences_elem_of, list_elem_of_omap. eauto.
  - intros group Hin. by rewrite (Hshape group Hin) at 1.
Qed.

(** C6, where the code departs from it: two imports from ["__proto__"] end up
    in two groups of the same name, so the names of the groups are not
    distinct and the first group does not hold every entry with its text;
    two imports from ["dep"] are merged as the claim says. *)
Theorem collectDependencyGroups_proto_not_merged :
  collectDependencyGroups (Some importingFile) protoEntries
  = Returned
      [{| groupName := "__proto__";
          groupExternalImports :=
            [ExternalImportDeclaration (exampleImport 14 "a" "__proto__")] |};
       {| groupName := "__proto__";
          groupExternalImports :=
            [ExternalImportDeclaration (exampleImport 15 "b" "__proto__")] |}]
  ∧ groupsBySpecifier importingFile protoEntries
    = [{| groupName := "__proto__"; groupExternalImports := protoEntries |}]
  ∧ collectDependencyGroups (Some importingFile)
      [ExternalImportDeclaration (exampleImport 14 "a" "dep");
       ExternalImportDeclaration (exampleImport 15 "b" "dep")]
    = Returned
        [{| groupName := "dep";
            groupExternalImports :=
              [ExternalImportDeclaration (exampleImport 14 "a" "dep");
               ExternalImportDeclaration (exampleImport 15 "b" "dep")] |}].
Proof. split; [|split]; vm_compute; reflexivity. Qed.

(** An entry whose module specifier is not a string literal makes the
    grouper throw. *)
Example collectDependencyGroups_non_literal :
  collectDependencyGroups (Some importingFile)
    [ExternalImportDeclaration
       {| importId := 9; importClause := None; importModuleSpecifier := OtherSpecifier 0 |}]
  = Threw TypeError.
Proof. reflexivity. Qed.

Example collectDependencyGroups_example :
  collectDependencyGroups (Some importingFile) exampleEntries
  = Returned
      [{| groupName := "dep";
          groupExternalImports :=
            [ExternalImportDeclaration (exampleImport 1 "a" "dep");
             ExternalImportDeclaration (exampleImport 3 "b" "dep")] |};
       {| groupName := "other";
          groupExternalImports := [ExternalImportDeclaration (exampleImport 2 "c" "other")] |}].
Proof. vm_compute. reflexivity. Qed.

(** *** Faults of the grouper *)

Lemma collectDependencyGroupsStep_throws file acc entry e :
  collectDependencyGroupsStep (Some file) acc entry = Threw e → e = TypeError.
Proof.
  destruct acc as [groupIndices dependencyGroups].
  unfold collectDependencyGroupsStep.
  destruct (getExternalModuleNameLiteral (Some file) entry) as [[text|]|e'] eqn:Hliteral.
  - destruct (groupIndices !! text) as [i|]; [|done].
    destruct (dependencyGroups !! i); [done|by intros [= <-]].
  - by intros [= <-].
  - intros [= <-]. revert Hliteral.
    unfold getExternalModuleNameLiteral, tryRenameExternalModule.
    destruct (getExternalModuleName entry) as [[text|other]|]; [| |by intros [= <-]].
    + destruct (renamedDependencies file) as [renamed|]; [|done].
      by destruct (renamed !! text).
    + done.
Qed.

Lemma collectDependencyGroupsStep_non_literal file acc entry :
  hasLiteralSpecifier entry = false →
  collectDependencyGroupsStep (Some file) acc entry = Threw TypeError.
Proof.
  destruct acc as [groupIndices dependencyGroups].
  unfold hasLiteralSpecifier, collectDependencyGroupsStep, getExternalModuleNameLiteral.
  by destruct (getExternalModuleName entry) as [[text|other]|].
Qed.

Lemma collectDependencyGroupsLoop_non_literal file entries : ∀ acc,
  Exists (fun entry => hasLiteralSpecifier entry = false) entries →
  collectDependencyGroupsLoop (Some file) acc entries = Threw TypeError.
Proof.
  induction entries as [|entry entries IH]; intros acc Hexists.
  - by apply Exists_nil in Hexists.
  - simpl. apply Exists_cons in Hexists as [Hentry|Hrest].
    + by rewrite collectDependencyGroupsStep_non_literal.
    + destruct (collectDependencyGroupsStep (Some file) acc entry) as [acc'|e] eqn:Hstep.
      * by apply IH.
      * by rewrite (collectDependencyGroupsStep_throws _ _ _ _ Hstep).
Qed.

Lemma collectDependencyGroups_non_literal_throws file entries :
  Exists (fun entry => hasLiteralSpecifier entry = false) entries →
  collectDependencyGroups (Some file) entries = Threw TypeError.
Proof.
  intros Hexists. unfold collectDependencyGroups.
  by rewrite collectDependencyGroupsLoop_non_literal.
Qed.

(** The grouper returns on entries with string literals as specifiers, and
    the entries of its groups are among them. *)
Lemma collectDependencyGroups_returns file entries :
  Forall (fun entry => hasLiteralSpecifier entry = true) entries →
  ∃ groups,
    collectDependencyGroups (Some file) entries = Returned groups
    ∧ Forall (fun group =>
                Forall (fun entry => hasLiteralSpecifier entry = true)
                  (groupExternalImports group)) groups.
Proof.
  intros Hliteral.
  destruct (collectDependencyGroups_grouped file entries) as (groups & Hrun & _ & Hnames).
  { eapply Forall_impl; [exact Hliteral|]. intros e. apply hasLiteralSpecifier_resolved. }
  exists groups. split; [exact Hrun|].
  eapply Forall_impl; [exact Hnames|]. intros group Hgroup.
  eapply Forall_impl; [exact Hgroup|]. intros entry Hentry.
  simpl in Hentry. apply (hasLiteralSpecifier_resolved file). by eexists.
Qed.

Lemma literal_or_not entries :
  Forall (fun entry => hasLiteralSpecifier entry = true) entries
  ∨ Exists (fun entry => hasLiteralSpecifier entry = false) entries.
Proof.
  induction entries as [|entry entries [IH|IH]]; [by left| |right; by constructor 2].
  destruct (hasLiteralSpecifier entry) eqn:Hentry; [left|right]; by constructor.
Qed.

(** X8: with a current source file, [collectDependencyGroups] throws exactly
    when the module specifier of some entry is not a string literal (or is
    missing), and what it throws then is a [TypeError], from reading [.text]
    of [undefined]; in every other case it returns groups. These hold
    together exactly the entries, each entry under its specifier text, and
    unless some text is ["__proto__"] they are the groups of section 4.2,
    one for each text. *)
Theorem collectDependencyGroups_throws_iff file entries :
  (collectDependencyGroups (Some file) entries = Threw TypeError
   ↔ Exists (fun entry => hasLiteralSpecifier entry = false) entries)
  ∧ ((∃ groups, collectDependencyGroups (Some file) entries = Returned groups)
     ↔ Forall (fun entry => hasLiteralSpecifier entry = true) entries)
  ∧ collectDependencyGroups (Some file) entries ≠ Threw AssertionFailure
  ∧ (∀ groups,
       collectDependencyGroups (Some file) entries = Returned groups →
       concat (groupExternalImports <$> groups) ≡ₚ entries
       ∧ Forall (fun group =>
                   Forall (fun entry =>
                             resolvedSpecifierText file entry = Some (groupName group))
                     (groupExternalImports group)) groups
       ∧ (noProtoSpecifier file entries → groups = groupsBySpecifier file entries)).
Proof.
  destruct (literal_or_not entries) as [Hall|Hexists].
  - assert (Forall (fun entry => is_Some (resolvedSpecifierText file entry)) entries)
      as Hresolved.
    { eapply Forall_impl; [exact Hall|]. intros e. apply hasLiteralSpecifier_resolved. }
    destruct (collectDependencyGroups_grouped file entries Hresolved)
      as (groups & Hrun & Hconcat & Hnames).
    rewrite Hrun. split; [|split; [|split; [done|]]].
    + split; [done|]. intros Hexists. exfalso.
      apply Exists_exists in Hexists as (entry & Hin & Hentry).
      rewrite Forall_forall in Hall. specialize (Hall entry Hin). congruence.
    + split; [done|]. intros _. by eexists.
    + intros ? [= <-]. split; [done|]. split; [done|]. intros Hproto.
      rewrite (collectDependencyGroups_refines_spec file entries Hresolved Hproto) in Hrun.
      by injection Hrun.
  - rewrite (collectDependencyGroups_non_literal_throws file entries Hexists).
    split; [done|]. split; [|split; [done|done]]. split; [by intros [? ?]|].
    intros Hall. exfalso. apply Exists_exists in Hexists as (entry & Hin & Hentry).
    rewrite Forall_forall in Hall. specialize (Hall entry Hin). congruence.
Qed.

(** *** Postfix increment and decrement of an exported variable *)

Lemma lookupScope_updateScope_ne x y v scope :
  y ≠ x → lookupScope y (updateScope x v scope) = lookupScope y scope.
Proof.
  intros Hne. induction scope as [|[z w] scope IH]; simpl; [done|].
  destruct (decide (x = z)) as [->|Hxz]; simpl.
  - by rewrite !decide_False.
  - destruct (decide (y = z)); [done|apply IH].
Qed.

Lemma lookupScope_updateScope_eq x v w scope :
  lookupScope x scope = Some w → lookupScope x (updateScope x v scope) = Some v.
Proof.
  induction scope as [|[z u] scope IH]; simpl; [done|].
  destruct (decide (x = z)) as [->|Hxz]; simpl.
  - by rewrite decide_True.
  - rewrite decide_False by done. apply IH.
Qed.

Lemma assignScopes_is_Some x v w scopes :
  lookupScopes x scopes = Some w → is_Some (assignScopes x v scopes).
Proof.
  induction scopes as [|scope outer IH]; simpl; [done|].
  destruct (lookupScope x scope); [eauto|].
  intros Hw. destruct (IH Hw) as [scopes' ->]. simpl. eauto.
Qed.

Lemma lookupScopes_assignScopes_ne x y v scopes scopes' :
  assignScopes x v scopes = Some scopes' → y ≠ x →
  lookupScopes y scopes' = lookupScopes y scopes.
Proof.
  revert scopes'. induction scopes as [|scope outer IH]; simpl; intros scopes' Ha Hne; [done|].
  destruct (lookupScope x scope).
  - injection Ha as <-. simpl. by rewrite lookupScope_updateScope_ne.
  - destruct (assignScopes x v outer) as [outer'|]; simplify_eq/=.
    by rewrite (IH outer').
Qed.

Lemma assignVariable_is_Some x v w rt :
  lookupVariable x rt = Some w → is_Some (assignVariable x v rt).
Proof.
  unfold lookupVariable, assignVariable. intros Hw.
  destruct (assignScopes_is_Some x v w _ Hw) as [scopes' ->]. simpl. eauto.
Qed.

Lemma assignVariable_trace x v rt rt' :
  assignVariable x v rt = Some rt' → trace rt' = trace rt.
Proof.
  unfold assignVariable. destruct (assignScopes x v (scopes rt)); simpl; [|done].
  by intros [= <-].
Qed.

Lemma roundToDouble_exact z :
  (Z.abs z ≤ 2 ^ 53)%Z → roundToDouble z = Some z.
Proof.
  intros Hbound. unfold roundToDouble.
  destruct (Z.ltb_spec (Z.abs z) (2 ^ 53)) as [Hsmall|Hlarge]; [done|].
  assert (z = 2 ^ 53 ∨ z = - 2 ^ 53)%Z as [-> | ->] by lia; vm_compute; reflexivity.
Qed.

(** C1, as amended: for an identifier operand that the resolver reports as
    exported, [x++] becomes [exporter("x", ++x) - 1] and [x--] becomes
    [exporter("x", --x) + 1]; when run on an integer value of [x] strictly
    between -2^53 and 2^53, the rewritten expression has the value the
    variable had before the update, leaves the variables as the postfix
    expression does, and the exporter receives the name and the updated
    value. *)
Theorem substitutePostfixUnaryExpression_exported resolver st operand container :
  getReferencedExportContainer resolver operand = Some container →
  substitutePostfixUnaryExpression resolver st
      (PostfixUnary PlusPlusToken (EIdentifier operand))
    = Binary
        (Call (identifierOrAbsent (exportFunctionForFile st))
           [StringLiteral (identifierText operand);
            PrefixUnary PlusPlusToken (EIdentifier operand)])
        MinusToken (NumericLiteral 1)
  ∧ substitutePostfixUnaryExpression resolver st
      (PostfixUnary MinusMinusToken (EIdentifier operand))
    = Binary
        (Call (identifierOrAbsent (exportFunctionForFile st))
           [StringLiteral (identifierText operand);
            PrefixUnary MinusMinusToken (EIdentifier operand)])
        PlusToken (NumericLiteral 1)
  ∧ ∀ operator exporter rt n,
      operator = PlusPlusToken ∨ operator = MinusMinusToken →
      exportFunctionForFile st = Some exporter →
      lookupVariable exporter rt = Some VExporter →
      lookupVariable operand rt = Some (VNumber n) →
      (- 2 ^ 53 < n < 2 ^ 53)%Z →
      ∃ updated rt',
        updated = (if decide (operator = PlusPlusToken) then n + 1 else n - 1)%Z
        ∧ stepNumber operator n = Some updated
        ∧ evaluate (PostfixUnary operator (EIdentifier operand)) rt = Some (VNumber n, rt')
        ∧ trace rt' = trace rt
        ∧ evaluate
            (substitutePostfixUnaryExpression resolver st
               (PostfixUnary operator (EIdentifier operand))) rt
          = Some (VNumber n,
                  {| scopes := scopes rt';
                     trace := trace rt ++
                                [[VString (identifierText operand); VNumber updated]] |}).
Proof.
  intros Hexported. unfold substitutePostfixUnaryExpression. rewrite Hexported.
  split; [done|]. split; [done|].
  intros operator exporter rt n Hop Hexporter Hcallee Hvalue Hsafe.
  assert (roundToDouble 1 = Some 1%Z) as Hone by done.
  assert (roundToDouble n = Some n) as Hexact by (apply roundToDouble_exact; lia).
  unfold createExportExpression. rewrite Hexporter.
  destruct Hop as [-> | ->].
  - rewrite decide_True by done. rewrite bool_decide_eq_true_2 by done.
    assert (stepNumber PlusPlusToken n = Some (n + 1)%Z) as Hstep
      by (apply roundToDouble_exact; lia).
    destruct (assignVariable_is_Some operand (VNumber (n + 1)) _ rt Hvalue)
      as [rt' Hassign].
    pose proof (assignVariable_trace _ _ _ _ Hassign) as Htrace.
    exists (n + 1)%Z, rt'. split; [done|]. split; [done|]. split; [|split; [done|]].
    + cbn [evaluate]. rewrite Hvalue, Hstep. cbn [mbind option_bind]. by rewrite Hassign.
    + unfold createSubtract, createCall, createLiteral, createPrefix, createNumericLiteral.
      cbn [identifierOrAbsent evaluate]. rewrite Hcallee.
      cbn [evaluateArguments evaluate app]. rewrite Hvalue, Hstep.
      cbn [mbind option_bind]. rewrite Hassign. cbn [mbind option_bind]. rewrite Hone.
      cbn [mbind option_bind exporterResult lookup list_lookup default scopes trace].
      unfold id. cbv beta iota.
      replace (n + 1 - 1)%Z with n by lia. rewrite Hexact. simpl. by rewrite Htrace.
  - rewrite decide_False by done. rewrite bool_decide_eq_false_2 by done.
    assert (stepNumber MinusMinusToken n = Some (n - 1)%Z) as Hstep
      by (apply roundToDouble_exact; lia).
    destruct (assignVariable_is_Some operand (VNumber (n - 1)) _ rt Hvalue)
      as [rt' Hassign].
    pose proof (assignVariable_trace _ _ _ _ Hassign) as Htrace.
    exists (n - 1)%Z, rt'. split; [done|]. split; [done|]. split; [|split; [done|]].
    + cbn [evaluate]. rewrite Hvalue, Hstep. cbn [mbind option_bind]. by rewrite Hassign.
    + unfold createAdd, createCall, createLiteral, createPrefix, createNumericLiteral.
      cbn [identifierOrAbsent evaluate]. rewrite Hcallee.
      cbn [evaluateArguments evaluate app]. rewrite Hvalue, Hstep.
      cbn [mbind option_bind]. rewrite Hassign. cbn [mbind option_bind]. rewrite Hone.
      cbn [mbind option_bind exporterResult lookup list_lookup default scopes trace].
      unfold id. cbv beta iota.
      replace (n - 1 + 1)%Z with n by lia. rewrite Hexact. simpl. by rewrite Htrace.
Qed.

Lemma substitutePostfixUnaryExpression_exported_witness :
  ∃ updated rt',
    updated = (if decide (PlusPlusToken = PlusPlusToken) then 5 + 1 else 5 - 1)%Z
    ∧ stepNumber PlusPlusToken 5 = Some updated
    ∧ evaluate (PostfixUnary PlusPlusToken (EIdentifier (Named "x"))) (exampleRuntime 5)
      = Some (VNumber 5, rt')
    ∧ trace rt' = trace (exampleRuntime 5)
    ∧ evaluate
        (substitutePostfixUnaryExpression exampleResolver exampleTransformState
           (PostfixUnary PlusPlusToken (EIdentifier (Named "x")))) (exampleRuntime 5)
      = Some (VNumber 5,
              {| scopes := scopes rt';
                 trace := trace (exampleRuntime 5) ++ [[VString "x"; VNumber updated]] |}).
Proof.
  apply (proj2 (proj2 (substitutePostfixUnaryExpression_exported exampleResolver
                         exampleTransformState (Named "x") SourceFileContainer eq_refl))
           PlusPlusToken (UniqueName "exports" 1) (exampleRuntime 5) 5%Z);
    [left; reflexivity | reflexivity | reflexivity | reflexivity | lia].
Defined.

(** The claim as it stands, at [x] = 2^53: [x++] has the value 2^53, the
    value of [x] before the update, while [exporter("x", ++x) - 1] has the
    value 2^53 - 1; [++x] rounds 2^53 + 1 to 2^53, and the subtraction is
    exact. *)
Lemma postfix_increment_at_2_53 :
  getReferencedExportContainer exampleResolver (Named "x") = Some SourceFileContainer
  ∧ lookupVariable (Named "x") (exampleRuntime (2 ^ 53)) = Some (VNumber (2 ^ 53))
  ∧ fst <$> evaluate (PostfixUnary PlusPlusToken (EIdentifier (Named "x")))
              (exampleRuntime (2 ^ 53))
    = Some (VNumber (2 ^ 53))
  ∧ fst <$> evaluate
              (substitutePostfixUnaryExpression exampleResolver exampleTransformState
                 (PostfixUnary PlusPlusToken (EIdentifier (Named "x"))))
              (exampleRuntime (2 ^ 53))
    = Some (VNumber (2 ^ 53 - 1))
  ∧ fst <$> evaluate
              (substitutePostfixUnaryExpression exampleResolver exampleTransformState
                 (PostfixUnary PlusPlusToken (EIdentifier (Named "x"))))
              (exampleRuntime (2 ^ 53))
    ≠ fst <$> evaluate (PostfixUnary PlusPlusToken (EIdentifier (Named "x")))
                (exampleRuntime (2 ^ 53)).
Proof.
  split; [reflexivity|]. split; [reflexivity|]. split; [vm_compute; reflexivity|].
  split; [vm_compute; reflexivity|]. vm_compute. discriminate.
Qed.

(** [y = x++] and [y = x--] with [x] exported and equal to 5: the exporter
    observes 6 (resp. 4) and [y] ends up 5. *)
Example postfix_increment_example :
  evaluate
    (Binary (EIdentifier (Named "y")) EqualsToken
       (substitutePostfixUnaryExpression exampleResolver exampleTransformState
          (PostfixUnary PlusPlusToken (EIdentifier (Named "x")))))
    (exampleRuntime 5)
  = Some (VNumber 5,
          {| scopes := [[(Named "x", VNumber 6); (Named "y", VNumber 5);
                         (UniqueName "exports" 1, VExporter)]];
             trace := [[VString "x"; VNumber 6]] |}).
Proof. reflexivity. Qed.

Example postfix_decrement_example :
  evaluate
    (Binary (EIdentifier (Named "y")) EqualsToken
       (substitutePostfixUnaryExpression exampleResolver exampleTransformState
          (PostfixUnary MinusMinusToken (EIdentifier (Named "x")))))
    (exampleRuntime 5)
  = Some (VNumber 5,
          {| scopes := [[(Named "x", VNumber 4); (Named "y", VNumber 5);
                         (UniqueName "exports" 1, VExporter)]];
             trace := [[VString "x"; VNumber 4]] |}).
Proof. reflexivity. Qed.

(** *** The monad *)

Lemma bind_returned {S A B : Type} (m : M S A) (k : A -> M S B) s a s' :
  m s = (Returned a, s') → bind m k s = k a s'.
Proof. intros Hm. unfold bind. by rewrite Hm. Qed.

Lemma bind_threw {S A B : Type} (m : M S A) (k : A -> M S B) s e s' :
  m s = (Threw e, s') → bind m k s = (Threw e, s').
Proof. intros Hm. unfold bind. by rewrite Hm. Qed.

Lemma bind_returned_inv {S A B : Type} (m : M S A) (k : A -> M S B) s b s' :
  bind m k s = (Returned b, s') →
  ∃ a s1, m s = (Returned a, s1) ∧ k a s1 = (Returned b, s').
Proof. unfold bind. destruct (m s) as [[a|e] s1]; [eauto|done]. Qed.

Lemma bind_ret_constant {S A B : Type} (m : M S A) (c : B) s r s' :
  bind m (fun _ => ret c) s = (Returned r, s') → r = c.
Proof. unfold bind, ret. destruct (m s) as [[a|e] s1]; [by intros [= <- _]|done]. Qed.

Lemma returns_ret {S A : Type} (a : A) : returns (S := S) (ret a).
Proof. intros s. by exists a, s. Qed.

Lemma returns_bind {S A B : Type} (m : M S A) (k : A -> M S B) :
  returns m → (∀ a, returns (k a)) → returns (bind m k).
Proof.
  intros Hm Hk s. destruct (Hm s) as (a & s1 & Hrun).
  destruct (Hk a s1) as (b & s2 & Hrun').
  exists b, s2. by rewrite (bind_returned _ _ _ _ _ Hrun).
Qed.

Lemma returns_mapM {S A B : Type} (f : A → M S B) (l : list A) :
  Forall (fun x => returns (f x)) l → returns (mapM f l).
Proof.
  induction 1 as [|x l Hx _ IH]; simpl; [apply returns_ret|].
  apply returns_bind; [done|]. intros y.
  apply returns_bind; [done|]. intros ys. apply returns_ret.
Qed.

(** *** The statement walk keeps the file-level state *)

Lemma sameFile_refl st : sameFile st st.
Proof. by repeat split. Qed.

Lemma sameFile_trans st1 st2 st3 : sameFile st1 st2 → sameFile st2 st3 → sameFile st1 st3.
Proof.
  unfold sameFile. intros (?&?&?&?&?&?&?) (?&?&?&?&?&?&?).
  repeat split; congruence.
Qed.

Lemma recordedNames_app names more st :
  recordedNames (names ++ more) st = recordedNames more (recordedNames names st).
Proof.
  destruct names as [|n names]; [done|].
  destruct more as [|m more]; [by rewrite app_nil_r|].
  unfold recordedNames, setExportedLocalNames. simpl. by rewrite <- app_assoc.
Qed.

Lemma recordedNames_registry names st :
  default [] (exportedLocalNames (recordedNames names st))
  = default [] (exportedLocalNames st) ++ names.
Proof. destruct names; simpl; [by rewrite app_nil_r|done]. Qed.

Lemma recordedNames_sameFile names st : sameFile st (recordedNames names st).
Proof. destruct names; [apply sameFile_refl|by repeat split]. Qed.

Lemma recordedNames_exportedFunctionDeclarations names st :
  exportedFunctionDeclarations (recordedNames names st) = exportedFunctionDeclarations st.
Proof. by destruct names. Qed.

Lemma appendOnly_refl st : appendOnly st st.
Proof.
  split; [apply sameFile_refl|]. split; exists []; by rewrite app_nil_r.
Qed.

Lemma appendOnly_trans st1 st2 st3 :
  appendOnly st1 st2 → appendOnly st2 st3 → appendOnly st1 st3.
Proof.
  intros (Hfile & [names Hnames] & [exports Hexports])
         (Hfile' & [names' Hnames'] & [exports' Hexports']).
  split; [by eapply sameFile_trans|]. split.
  - exists (names ++ names'). by rewrite Hnames', Hnames, app_assoc.
  - exists (exports ++ exports'). by rewrite Hexports', Hexports, app_assoc.
Qed.

Lemma appendOnly_recordedNames names st : appendOnly st (recordedNames names st).
Proof.
  split; [apply recordedNames_sameFile|]. split.
  - exists names. apply recordedNames_registry.
  - exists []. by rewrite recordedNames_exportedFunctionDeclarations, app_nil_r.
Qed.

(** *** Hoisting the names of a declaration *)

Lemma omap_id_nil {A : Type} (l : list (option A)) :
  omap id l = [] ↔ Forall (fun x => x = None) l.
Proof.
  induction l as [|[a|] l IH]; simpl.
  - split; [constructor|done].
  - split; [done|]. intros H. by apply Forall_cons in H as [? _].
  - rewrite IH. split; [by constructor|]. intros H. by apply Forall_cons in H as [_ ?].
Qed.

Fixpoint namesBeforeOmittedElement_all (name : BindingName) {struct name} :
  hasOmittedElement name = false → namesBeforeOmittedElement name = boundNames name.
Proof.
  destruct name as [n|elements]; simpl; [done|].
  induction elements as [|[[elementName|] initializer] rest IH]; simpl; [done| |done].
  intros Hnone. apply orb_false_iff in Hnone as [Helement Hrest].
  rewrite Helement, (namesBeforeOmittedElement_all elementName Helement). f_equal.
  by apply IH.
Qed.

Section Hoisting.
Context {LexEnv : Type}.
Variable context : TransformationContext LexEnv.
Variable flattenVariableDestructuringToExpression :
  VariableDeclaration -> LexEnv -> Expression * LexEnv.

Lemma hoistedState_nil isExported (s : EmitState LexEnv) :
  hoistedState context [] isExported s = s.
Proof. destruct s, isExported; done. Qed.

Lemma hoistedState_app names more isExported (s : EmitState LexEnv) :
  hoistedState context (names ++ more) isExported s
  = hoistedState context more isExported (hoistedState context names isExported s).
Proof.
  unfold hoistedState. simpl. rewrite foldl_app.
  destruct isExported; [by rewrite recordedNames_app|done].
Qed.

Lemma hoistedState_appendOnly names isExported (s : EmitState LexEnv) :
  appendOnly (transformState s) (transformState (hoistedState context names isExported s)).
Proof.
  simpl. destruct isExported; [apply appendOnly_recordedNames|apply appendOnly_refl].
Qed.

(** [hoistBindingElement] on any binding name: the names it reaches before
    the first omitted element are hoisted (and recorded, when exported), and
    on that element it throws. *)
Fixpoint hoistBindingElement_run (name : BindingName) (isExported : bool)
    (s : EmitState LexEnv) {struct name} :
  hoistBindingElement context name isExported s
  = ((if hasOmittedElement name then Threw TypeError else Returned tt),
     hoistedState context (namesBeforeOmittedElement name) isExported s).
Proof.
  destruct name as [n|elements]; simpl.
  - destruct isExported; reflexivity.
  - revert s. induction elements as [|[[elementName|] initializer] rest IH]; intros s.
    + by rewrite hoistedState_nil.
    + pose proof (hoistBindingElement_run elementName isExported s) as Helement.
      cbn [existsb]. destruct (hasOmittedElement elementName).
      * rewrite (bind_threw _ _ _ _ _ Helement). by rewrite app_nil_r.
      * rewrite (bind_returned _ _ _ _ _ Helement). rewrite IH.
        by rewrite hoistedState_app.
    + by rewrite hoistedState_nil.
Qed.

(** X1: [hoistBindingElement] hoists each simple name that the binding
    declares, in source order and through nested patterns, and takes no
    unique name; for an exported declaration these names, and nothing else,
    are appended to [exportedLocalNames], and otherwise the closure variables
    are not touched. It returns unless the binding holds an array pattern
    with an omitted element: then it throws a [TypeError] on that element,
    and only the names before it have been hoisted and recorded. *)
Theorem hoistBindingElement_bound_names name isExported (s : EmitState LexEnv) :
  ∃ s',
    hoistBindingElement context name isExported s
    = ((if hasOmittedElement name then Threw TypeError else Returned tt), s')
    ∧ lexicalEnvironment s'
      = foldl (fun env n => hoistVariableDeclaration context n env) (lexicalEnvironment s)
          (namesBeforeOmittedElement name)
    ∧ nextAutoGenerateId s' = nextAutoGenerateId s
    ∧ transformState s'
      = (if isExported && negb (bool_decide (namesBeforeOmittedElement name = []))
         then setExportedLocalNames
                (Some (default [] (exportedLocalNames (transformState s))
                       ++ namesBeforeOmittedElement name))
                (transformState s)
         else transformState s)
    ∧ (hasOmittedElement name = false → namesBeforeOmittedElement name = boundNames name).
Proof.
  eexists. split; [apply hoistBindingElement_run|].
  split; [done|]. split; [done|]. split; [|apply namesBeforeOmittedElement_all]. simpl.
  destruct isExported; [|done]. simpl. by destruct (namesBeforeOmittedElement name).
Qed.

Lemma transformVariable_throws node isExported (s : EmitState LexEnv) :
  declaresOmittedElement node = true →
  ∃ s',
    transformVariable context flattenVariableDestructuringToExpression node isExported s
    = (Threw TypeError, s')
    ∧ nextAutoGenerateId s' = nextAutoGenerateId s
    ∧ appendOnly (transformState s) (transformState s').
Proof.
  destruct node as [name initializer]. simpl. intros Hhole. unfold transformVariable.
  pose proof (hoistBindingElement_run name isExported s) as Hrun. rewrite Hhole in Hrun.
  rewrite (bind_threw _ _ _ _ _ Hrun). eexists. split; [done|]. split; [done|].
  apply hoistedState_appendOnly.
Qed.

Lemma transformVariable_run node isExported (s : EmitState LexEnv) :
  declaresOmittedElement node = false →
  ∃ result s',
    transformVariable context flattenVariableDestructuringToExpression node isExported s
    = (Returned result, s')
    ∧ nextAutoGenerateId s' = nextAutoGenerateId s
    ∧ transformState s'
      = (if isExported then recordedNames (declaredNames node) (transformState s)
         else transformState s)
    ∧ (is_Some result ↔ hasInitializer node = true)
    ∧ (∀ x value, node = mkVariableDeclaration (BindingIdentifier x) (Some value) →
         result = Some (Binary (EIdentifier x) EqualsToken value)).
Proof.
  destruct node as [name initializer]. simpl. intros Hnone. unfold transformVariable.
  pose proof (hoistBindingElement_run name isExported s) as Hrun.
  rewrite Hnone, (namesBeforeOmittedElement_all name Hnone) in Hrun.
  rewrite (bind_returned _ _ _ _ _ Hrun).
  destruct initializer as [value|]; simpl.
  - destruct name as [n|elements].
    + eexists _, _. split; [reflexivity|]. simpl. split; [done|]. split; [done|].
      split; [by split; eauto|]. by intros x v [= <- <-].
    + unfold bind, withLexicalEnvironment. simpl.
      destruct (flattenVariableDestructuringToExpression _ _) as [flattened env].
      eexists _, _. split; [reflexivity|]. simpl. split; [done|]. split; [done|].
      split; [by split; eauto|]. by intros x v [=].
  - eexists _, _. split; [reflexivity|]. simpl. split; [done|]. split; [done|].
    split; [|by intros x v [=]]. split; [by intros [? [=]]|done].
Qed.

Lemma mapM_transformVariable_run declarations isExported : ∀ (s : EmitState LexEnv),
  Forall (fun node => declaresOmittedElement node = false) declarations →
  ∃ transformed s',
    mapM (fun variable =>
            transformVariable context flattenVariableDestructuringToExpression
              variable isExported) declarations s
    = (Returned transformed, s')
    ∧ nextAutoGenerateId s' = nextAutoGenerateId s
    ∧ transformState s'
      = (if isExported
         then recordedNames (concat (declaredNames <$> declarations)) (transformState s)
         else transformState s)
    ∧ Forall2 (fun node result =>
                 (is_Some result ↔ hasInitializer node = true)
                 ∧ ∀ x value, node = mkVariableDeclaration (BindingIdentifier x) (Some value) →
                     result = Some (Binary (EIdentifier x) EqualsToken value))
        declarations transformed.
Proof.
  induction declarations as [|node declarations IH]; intros s Hnone.
  - exists [], s. simpl. split; [done|]. split; [done|]. split; [by destruct isExported|].
    constructor.
  - apply Forall_cons in Hnone as [Hnode Hnone].
    destruct (transformVariable_run node isExported s Hnode)
      as (result & s1 & Hrun & Hid & Hstate & Hresult).
    destruct (IH s1 Hnone) as (transformed & s2 & Hrun' & Hid' & Hstate' & Hall).
    exists (result :: transformed), s2. simpl.
    rewrite (bind_returned _ _ _ _ _ Hrun), (bind_returned _ _ _ _ _ Hrun').
    split; [done|]. split; [congruence|]. split; [|by constructor].
    rewrite Hstate', Hstate. destruct isExported; [|done].
    by rewrite recordedNames_app.
Qed.

Lemma mapM_transformVariable_throws declarations isExported : ∀ (s : EmitState LexEnv),
  Exists (fun node => declaresOmittedElement node = true) declarations →
  ∃ s',
    mapM (fun variable =>
            transformVariable context flattenVariableDestructuringToExpression
              variable isExported) declarations s
    = (Threw TypeError, s')
    ∧ nextAutoGenerateId s' = nextAutoGenerateId s
    ∧ appendOnly (transformState s) (transformState s').
Proof.
  induction declarations as [|node declarations IH]; intros s Hexists.
  - by apply Exists_nil in Hexists.
  - simpl. destruct (declaresOmittedElement node) eqn:Hnode.
    + destruct (transformVariable_throws node isExported s Hnode) as (s' & Hrun & Hid & Hgrow).
      exists s'. by rewrite (bind_threw _ _ _ _ _ Hrun).
    + apply Exists_cons in Hexists as [Hhole|Hexists]; [congruence|].
      destruct (transformVariable_run node isExported s Hnode)
        as (result & s1 & Hrun & Hid & Hstate & _).
      destruct (IH s1 Hexists) as (s' & Hrun' & Hid' & Hgrow).
      exists s'. rewrite (bind_returned _ _ _ _ _ Hrun), (bind_threw _ _ _ _ _ Hrun').
      split; [done|]. split; [congruence|].
      eapply appendOnly_trans; [|exact Hgrow]. rewrite Hstate.
      destruct isExported; [apply appendOnly_recordedNames|apply appendOnly_refl].
Qed.

Lemma visitVariableStatement_run modifiers declarations (s : EmitState LexEnv) :
  Forall (fun node => declaresOmittedElement node = false) declarations →
  ∃ statements s',
    visitVariableStatement context flattenVariableDestructuringToExpression
      modifiers declarations s
    = (Returned statements, s')
    ∧ (statements = [] ↔ Forall (fun node => hasInitializer node = false) declarations)
    ∧ (statements = [] ∨ ∃ expression, statements = [ExpressionStatement expression])
    ∧ (∀ x value,
         declarations = [mkVariableDeclaration (BindingIdentifier x) (Some value)] →
         statements = [ExpressionStatement (Binary (EIdentifier x) EqualsToken value)])
    ∧ nextAutoGenerateId s' = nextAutoGenerateId s
    ∧ transformState s'
      = (if hasModifier modifiers Export
         then recordedNames (concat (declaredNames <$> declarations)) (transformState s)
         else transformState s).
Proof.
  intros Hnone. unfold visitVariableStatement.
  destruct (mapM_transformVariable_run declarations (hasModifier modifiers Export) s Hnone)
    as (transformed & s' & Hrun & Hid & Hstate & Hall).
  rewrite (bind_returned _ _ _ _ _ Hrun).
  assert (omap id transformed = []
          ↔ Forall (fun node => hasInitializer node = false) declarations) as Hempty'.
  { rewrite omap_id_nil. clear Hrun Hstate Hnone.
    induction Hall as [|node result ? ? [Hsome _] _ IH].
    - split; constructor.
    - rewrite !Forall_cons, IH. destruct result as [e|].
      + destruct (hasInitializer node) eqn:Hinit; [naive_solver|].
        destruct Hsome as [Hsome _]. by specialize (Hsome (mk_is_Some _ _ eq_refl)).
      + destruct (hasInitializer node) eqn:Hinit; [|naive_solver].
        destruct Hsome as [_ Hsome]. by destruct (Hsome eq_refl). }
  destruct (bool_decide (omap id transformed = [])) eqn:Hempty.
  - apply bool_decide_eq_true in Hempty.
    eexists _, s'. split; [reflexivity|]. split; [by rewrite <- Hempty'|].
    split; [by left|]. split; [|done].
    intros x value ->.
    apply Forall2_cons_inv_l in Hall as (result & rest & [_ Hvalue] & Hrest & ->).
    rewrite (Hvalue x value eq_refl) in Hempty. done.
  - apply bool_decide_eq_false in Hempty.
    eexists _, s'. split; [reflexivity|]. split.
    { split; [done|]. intros Hall'. by apply Hempty' in Hall'. }
    split; [right; by eexists|]. split; [|done].
    intros x value ->.
    apply Forall2_cons_inv_l in Hall as (result & rest & [_ Hvalue] & Hrest & ->).
    apply Forall2_nil_inv_l in Hrest as ->.
    by rewrite (Hvalue x value eq_refl).
Qed.

Lemma visitVariableStatement_throws modifiers declarations (s : EmitState LexEnv) :
  Exists (fun node => declaresOmittedElement node = true) declarations →
  ∃ s',
    visitVariableStatement context flattenVariableDestructuringToExpression
      modifiers declarations s
    = (Threw TypeError, s')
    ∧ nextAutoGenerateId s' = nextAutoGenerateId s
    ∧ appendOnly (transformState s) (transformState s').
Proof.
  intros Hexists. unfold visitVariableStatement.
  destruct (mapM_transformVariable_throws declarations (hasModifier modifiers Export) s
              Hexists) as (s' & Hrun & Hid & Hgrow).
  exists s'. by rewrite (bind_threw _ _ _ _ _ Hrun).
Qed.

(** What [visitVariableStatement] returns, when it returns. *)
Lemma visitVariableStatement_returned modifiers declarations (s : EmitState LexEnv)
    statements s' :
  visitVariableStatement context flattenVariableDestructuringToExpression
    modifiers declarations s
  = (Returned statements, s') →
  statements = [] ∨ ∃ expression, statements = [ExpressionStatement expression].
Proof.
  unfold visitVariableStatement. intros Hrun.
  apply bind_returned_inv in Hrun as (transformed & s1 & _ & Hrun).
  destruct (bool_decide (omap id transformed = [])); injection Hrun as <- _;
    [by left|right; by eexists].
Qed.

(** X2: [visitVariableStatement] on a variable statement none of whose
    declarations has an omitted element returns and leaves at most one
    statement, an expression statement; it leaves none exactly when no
    declaration has an initializer, and for the single declaration
    [x = value] of an identifier the statement is the assignment [x = value].
    When the statement has the [export] modifier the names that its
    declarations bind are appended, in source order, to [exportedLocalNames];
    otherwise the closure variables stay as they are. When a declaration has
    an omitted element the visit throws a [TypeError]. *)
Theorem visitVariableStatement_statement modifiers declarations (s : EmitState LexEnv) :
  (Forall (fun node => declaresOmittedElement node = false) declarations →
   ∃ statements s',
     visitVariableStatement context flattenVariableDestructuringToExpression
       modifiers declarations s
     = (Returned statements, s')
     ∧ (statements = [] ↔ Forall (fun node => hasInitializer node = false) declarations)
     ∧ (statements = [] ∨ ∃ expression, statements = [ExpressionStatement expression])
     ∧ (∀ x value,
          declarations = [mkVariableDeclaration (BindingIdentifier x) (Some value)] →
          statements = [ExpressionStatement (Binary (EIdentifier x) EqualsToken value)])
     ∧ nextAutoGenerateId s' = nextAutoGenerateId s
     ∧ transformState s'
       = (if hasModifier modifiers Export
          then recordedNames (concat (declaredNames <$> declarations)) (transformState s)
          else transformState s))
  ∧ (Exists (fun node => declaresOmittedElement node = true) declarations →
     ∃ s',
       visitVariableStatement context flattenVariableDestructuringToExpression
         modifiers declarations s
       = (Threw TypeError, s')
       ∧ nextAutoGenerateId s' = nextAutoGenerateId s
       ∧ appendOnly (transformState s) (transformState s')).
Proof.
  split; [apply visitVariableStatement_run|apply visitVariableStatement_throws].
Qed.

End Hoisting.

(** *** Export declarations without a module specifier *)

Lemma omap_id_fmap_filter {A B : Type} (p : A → bool) (f : A → B) (l : list A) :
  omap id ((fun x => if p x then Some (f x) else None) <$> l)
  = f <$> filter (fun x => p x = true) l.
Proof.
  induction l as [|x l IH]; [done|]. rewrite fmap_cons. cbn [omap list_omap].
  destruct (p x) eqn:Hp; simpl.
  - rewrite filter_cons_True by done. rewrite fmap_cons. by f_equal.
  - rewrite filter_cons_False by (by rewrite Hp). exact IH.
Qed.

Section LocalExports.
Context {LexEnv : Type}.
Variable context : TransformationContext LexEnv.

Lemma mapM_visitExportSpecifier_run elements : ∀ (s : EmitState LexEnv),
  mapM (visitExportSpecifier context) elements s
  = (Returned
       ((fun specifier =>
           if isValueSpecifier (resolver context) specifier
           then Some (ExpressionStatement
                        (Call (identifierOrAbsent (exportFunctionForFile (transformState s)))
                           [StringLiteral (identifierText (exportSpecifierName specifier));
                            EIdentifier (default (exportSpecifierName specifier)
                                           (propertyName specifier))]))
           else None) <$> elements),
     {| transformState :=
          recordedNames
            (exportSpecifierName <$>
               filter (fun specifier => isValueSpecifier (resolver context) specifier = true)
                 elements)
            (transformState s);
        nextAutoGenerateId := nextAutoGenerateId s;
        lexicalEnvironment := lexicalEnvironment s |}).
Proof.
  induction elements as [|specifier elements IH]; intros s.
  - by destruct s.
  - cbn [mapM fmap list_fmap]. unfold visitExportSpecifier at 1.
    fold (isValueSpecifier (resolver context) specifier).
    destruct (isValueSpecifier (resolver context) specifier) eqn:Hvalue.
    + rewrite filter_cons_True by done.
      erewrite (bind_returned _ _ s); [|reflexivity].
      erewrite bind_returned; [|apply IH]. unfold ret.
      cbn [transformState nextAutoGenerateId lexicalEnvironment fmap list_fmap].
      do 2 f_equal. symmetry. apply (recordedNames_app [exportSpecifierName specifier]).
    + rewrite filter_cons_False by (by rewrite Hvalue).
      erewrite (bind_returned _ _ s); [|reflexivity].
      erewrite bind_returned; [|apply IH]. done.
Qed.

Lemma visitExportDeclaration_run node (s : EmitState LexEnv) :
  visitExportDeclaration context node s
  = match moduleSpecifier node, exportClause node with
    | Some _, _ => (Returned [], s)
    | None, None => (Threw TypeError, s)
    | None, Some elements =>
        let exported :=
          filter (fun specifier => isValueSpecifier (resolver context) specifier = true)
            elements in
        (Returned
           ((fun specifier =>
               ExpressionStatement
                 (Call (identifierOrAbsent (exportFunctionForFile (transformState s)))
                    [StringLiteral (identifierText (exportSpecifierName specifier));
                     EIdentifier (default (exportSpecifierName specifier)
                                    (propertyName specifier))])) <$> exported),
         {| transformState := recordedNames (exportSpecifierName <$> exported) (transformState s);
            nextAutoGenerateId := nextAutoGenerateId s;
            lexicalEnvironment := lexicalEnvironment s |})
    end.
Proof.
  unfold visitExportDeclaration.
  destruct (moduleSpecifier node); [done|].
  destruct (exportClause node) as [elements|]; [|done].
  erewrite bind_returned; [|apply mapM_visitExportSpecifier_run].
  unfold ret. by rewrite omap_id_fmap_filter.
Qed.

(** X3: [visitExportDeclaration]. A re-export (with a module specifier)
    leaves no statement and no trace in the state. A local export list
    [export {a, b as c}] leaves, in the order of the list, one exporter call
    [exporter("c", b)] for each specifier that denotes a value, and appends
    the exported names of exactly those specifiers to [exportedLocalNames];
    the specifiers that denote no value are skipped. A declaration with
    neither clause nor specifier makes it throw. *)
Theorem visitExportDeclaration_local_clause node (s : EmitState LexEnv) :
  visitExportDeclaration context node s
  = match moduleSpecifier node, exportClause node with
    | Some _, _ => (Returned [], s)
    | None, None => (Threw TypeError, s)
    | None, Some elements =>
        let exported :=
          filter (fun specifier => isValueSpecifier (resolver context) specifier = true)
            elements in
        (Returned
           ((fun specifier =>
               ExpressionStatement
                 (Call (identifierOrAbsent (exportFunctionForFile (transformState s)))
                    [StringLiteral (identifierText (exportSpecifierName specifier));
                     EIdentifier (default (exportSpecifierName specifier)
                                    (propertyName specifier))])) <$> exported),
         {| transformState := recordedNames (exportSpecifierName <$> exported) (transformState s);
            nextAutoGenerateId := nextAutoGenerateId s;
            lexicalEnvironment := lexicalEnvironment s |})
    end.
Proof. apply visitExportDeclaration_run. Qed.

End LocalExports.

(** *** Induction on the statements that the walk reaches *)

Fixpoint visited_ind (Q : Statement → Prop)
    (step : ∀ node, Forall Q (visitedChildren node) → Q node) (node : Statement)
    {struct node} : Q node.
Proof.
  apply step.
  destruct node as [| | | | | | | | | |? ? ? statement|? ? statement|? ? statement|statement ?
                    |? statement|? statement|? statement|? [clauses]
                    |tryBlock catchClause finallyBlock|statements| |];
    cbn [visitedChildren]; try (by constructor);
    try (by constructor; [apply (visited_ind Q step)|constructor]).
  - induction clauses as [|clause clauses IH]; [constructor|].
    rewrite fmap_cons. cbn [concat]. apply Forall_app. split; [|exact IH].
    destruct clause as [? statements|statements]; cbn [clauseStatements];
      induction statements as [|statement statements IHs]; constructor;
      first [apply (visited_ind Q step)|exact IHs].
  - constructor; [apply (visited_ind Q step)|]. apply Forall_app. split.
    + destruct catchClause as [[? block]|]; [|constructor].
      constructor; [apply (visited_ind Q step)|constructor].
    + destruct finallyBlock as [block|]; [|constructor].
      constructor; [apply (visited_ind Q step)|constructor].
  - induction statements as [|statement statements IH]; constructor;
      [apply (visited_ind Q step)|exact IH].
Qed.

(** *** Properties of computations that [ret] and [bind] keep *)

Section Compositional.
Context {LexEnv : Type}.
Variable context : TransformationContext LexEnv.
Variable flattenVariableDestructuringToExpression :
  VariableDeclaration -> LexEnv -> Expression * LexEnv.

Variable P : ∀ A : Type, M (EmitState LexEnv) A → Prop.
Hypothesis P_ret : ∀ (A : Type) (a : A), P A (ret a).
Hypothesis P_bind :
  ∀ (A B : Type) (m : M (EmitState LexEnv) A) (k : A → M (EmitState LexEnv) B),
    P A m → (∀ a, P B (k a)) → P B (bind m k).

Variable visitor : Statement → M (EmitState LexEnv) (list Statement).

Local Abbreviation visited node := (P (list Statement) (visitor node)).

Lemma closed_mapM {A B : Type} (f : A → M (EmitState LexEnv) B) (l : list A) :
  Forall (fun x => P B (f x)) l → P (list B) (mapM f l).
Proof.
  induction 1 as [|x l Hx _ IH]; simpl; [apply P_ret|].
  apply P_bind; [done|]. intros y.
  apply P_bind; [done|]. intros ys. apply P_ret.
Qed.

Lemma closed_visitNode node : visited node → P Statement (visitNode node visitor).
Proof.
  intros Hnode. unfold visitNode. apply P_bind; [done|]. intros [|? ?]; apply P_ret.
Qed.

Lemma closed_visitNodes nodes start :
  Forall (fun node => visited node) nodes → P (list Statement) (visitNodes nodes visitor start).
Proof.
  intros Hnodes. unfold visitNodes. apply P_bind; [|intros ?; apply P_ret].
  apply closed_mapM. by apply Forall_drop.
Qed.

Lemma closed_visitCatchClause variableDeclaration block :
  visited block →
  P CatchClause (visitCatchClause visitor (mkCatchClause variableDeclaration block)).
Proof.
  intros Hblock. unfold visitCatchClause.
  apply P_bind; [by apply closed_visitNode|]. intros ?. apply P_ret.
Qed.

Lemma closed_visitEachChild node :
  Forall (fun child => visited child) (visitedChildren node) →
  P Statement (visitEachChild visitor node).
Proof.
  destruct node; cbn [visitedChildren visitEachChild]; intros Hchildren;
    try apply P_ret.
  - apply Forall_cons in Hchildren as [Hchild _].
    apply P_bind; [by apply closed_visitNode|]. intros ?. apply P_ret.
  - apply Forall_cons in Hchildren as [Hchild _].
    apply P_bind; [by apply closed_visitNode|]. intros ?. apply P_ret.
  - apply Forall_cons in Hchildren as [Hchild _].
    apply P_bind; [by apply closed_visitNode|]. intros ?. apply P_ret.
  - apply Forall_cons in Hchildren as [Htry Hchildren].
    apply Forall_app in Hchildren as [Hcatch Hfinally].
    apply P_bind; [by apply closed_visitNode|]. intros ?.
    apply P_bind.
    { destruct catchClause as [[? block]|]; [|apply P_ret].
      apply Forall_cons in Hcatch as [Hblock _].
      apply P_bind; [by apply closed_visitCatchClause|]. intros ?. apply P_ret. }
    intros ?. apply P_bind; [|intros ?; apply P_ret].
    destruct finallyBlock as [block|]; [|apply P_ret].
    apply Forall_cons in Hfinally as [Hblock _].
    apply P_bind; [by apply closed_visitNode|]. intros ?. apply P_ret.
  - apply P_bind; [by apply closed_visitNodes|]. intros ?. apply P_ret.
Qed.

Lemma closed_visitCaseBlock clauses :
  Forall (fun child => visited child) (concat (clauseStatements <$> clauses)) →
  P CaseBlock (visitCaseBlock visitor (mkCaseBlock clauses)).
Proof.
  intros Hchildren. unfold visitCaseBlock.
  apply P_bind; [|intros ?; apply P_ret]. apply closed_mapM.
  induction clauses as [|clause clauses IH]; [constructor|].
  rewrite fmap_cons in Hchildren. cbn [concat] in Hchildren.
  apply Forall_app in Hchildren as [Hclause Hchildren].
  constructor; [|by apply IH].
  destruct clause as [? statements|statements]; cbn [visitCaseClause visitDefaultClause];
    (apply P_bind; [by apply closed_visitNodes|]; intros ?; apply P_ret).
Qed.

(** The visitors that only pass the visitor on to the statements they hold. *)
Lemma closed_visitNested node :
  Forall (fun child => visited child) (visitedChildren node) →
  P Statement (visitDoStatement visitor node)
  ∧ P Statement (visitWhileStatement visitor node)
  ∧ P Statement (visitLabeledStatement visitor node)
  ∧ P Statement (visitWithStatement visitor node)
  ∧ P Statement (visitSwitchStatement visitor node)
  ∧ P Statement (visitTryStatement visitor node)
  ∧ P Statement (visitBlock visitor node).
Proof.
  intros Hchildren.
  assert (P Statement (visitEachChild visitor node)) as Heach
    by (by apply closed_visitEachChild).
  destruct node as [| | | | | | | | | | | | |statement ?|? statement|? statement|? statement
                    |? [clauses]| | | |];
    repeat split; try exact Heach; try apply P_ret;
    cbn [visitDoStatement visitWhileStatement visitLabeledStatement visitWithStatement
         visitSwitchStatement]; cbn [visitedChildren] in Hchildren.
  - apply Forall_cons in Hchildren as [Hchild _].
    apply P_bind; [by apply closed_visitNode|]. intros ?. apply P_ret.
  - apply Forall_cons in Hchildren as [Hchild _].
    apply P_bind; [by apply closed_visitNode|]. intros ?. apply P_ret.
  - apply Forall_cons in Hchildren as [Hchild _].
    apply P_bind; [by apply closed_visitNode|]. intros ?. apply P_ret.
  - apply Forall_cons in Hchildren as [Hchild _].
    apply P_bind; [by apply closed_visitNode|]. intros ?. apply P_ret.
  - apply P_bind; [by apply closed_visitCaseBlock|]. intros ?. apply P_ret.
Qed.

(** The three loops with a binding: the visitor is passed on to the body,
    and the binding is what [bindingVisit] says. *)
Lemma closed_visitForStatement node :
  Forall (fun child => visited child) (visitedChildren node) →
  match node with
  | ForStatement None _ _ _ => P Statement (throw TypeError)
  | ForStatement (Some (VariableDeclarationList declarations)) _ _ _ =>
      P (list (option Expression))
        (mapM (fun variable =>
                 transformVariable context flattenVariableDestructuringToExpression
                   variable false) declarations)
  | _ => True
  end →
  P Statement
    (visitForStatement context flattenVariableDestructuringToExpression visitor node).
Proof.
  intros Hchildren Hbinding.
  assert (P Statement (visitEachChild visitor node)) as Heach
    by (by apply closed_visitEachChild).
  destruct node as [| | | | | | | | | |[[declarations|?]|] ? ? statement| | | | | | | | | | |];
    try exact Heach; cbn [visitForStatement]; [|exact Hbinding].
  cbn [visitedChildren] in Hchildren. apply Forall_cons in Hchildren as [Hchild _].
  apply P_bind; [exact Hbinding|]. intros ?.
  apply P_bind; [by apply closed_visitNode|]. intros ?. apply P_ret.
Qed.

Lemma closed_visitForBinding node :
  Forall (fun child => visited child) (visitedChildren node) →
  match node with
  | ForInStatement (VariableDeclarationList declarations) _ _
  | ForOfStatement (VariableDeclarationList declarations) _ _ =>
      P Expression
        (transformForBinding context flattenVariableDestructuringToExpression declarations)
  | _ => True
  end →
  P Statement
    (visitForInStatement context flattenVariableDestructuringToExpression visitor node)
  ∧ P Statement
      (visitForOfStatement context flattenVariableDestructuringToExpression visitor node).
Proof.
  intros Hchildren Hbinding.
  assert (P Statement (visitEachChild visitor node)) as Heach
    by (by apply closed_visitEachChild).
  destruct node as [| | | | | | | | | | |[declarations|?] ? statement
                    |[declarations|?] ? statement| | | | | | | | |];
    split; try exact Heach; cbn [visitForInStatement visitForOfStatement];
    cbn [visitedChildren] in Hchildren; apply Forall_cons in Hchildren as [Hchild _];
    (apply P_bind; [exact Hbinding|]; intros ?;
     apply P_bind; [by apply closed_visitNode|]; intros ?; apply P_ret).
Qed.

End Compositional.

(** *** What the walk keeps, whatever its outcome *)

Lemma forallb_Forall {A : Type} (f : A → bool) (l : list A) :
  forallb f l = true → Forall (fun x => f x = true) l.
Proof.
  induction l as [|x l IH]; simpl; [constructor|].
  intros [Hx Hl]%andb_true_iff. constructor; auto.
Qed.

Lemma walkable_children node :
  walkable node = true → Forall (fun child => walkable child = true) (visitedChildren node).
Proof.
  destruct node as [| | | | | | | | | |? ? ? statement|? ? statement|? ? statement|statement ?
                    |? statement|? statement|? statement|? [clauses]
                    |tryBlock catchClause finallyBlock|statements| |];
    cbn [walkable visitedChildren]; intros Hwalk; try (by constructor).
  - apply andb_true_iff in Hwalk as [_ Hwalk]. by repeat constructor.
  - apply andb_true_iff in Hwalk as [_ Hwalk]. by repeat constructor.
  - apply andb_true_iff in Hwalk as [_ Hwalk]. by repeat constructor.
  - apply andb_true_iff in Hwalk as [_ Hwalk]. by repeat constructor.
  - apply andb_true_iff in Hwalk as [_ Hwalk]. by repeat constructor.
  - apply andb_true_iff in Hwalk as [_ Hwalk]. by repeat constructor.
  - apply andb_true_iff in Hwalk as [_ Hwalk]. by repeat constructor.
  - induction clauses as [|clause clauses IH]; [constructor|].
    cbn [forallb] in Hwalk. apply andb_true_iff in Hwalk as [Hclause Hwalk].
    rewrite fmap_cons. cbn [concat]. apply Forall_app. split; [|by apply IH].
    destruct clause; cbn [clauseStatements]; by apply forallb_Forall.
  - apply andb_true_iff in Hwalk as [Hwalk Hfinally].
    apply andb_true_iff in Hwalk as [Hwalk Hcatch].
    apply andb_true_iff in Hwalk as [_ Hwalk].
    constructor; [done|]. apply Forall_app. split.
    + destruct catchClause as [[? block]|]; [|constructor].
      apply andb_true_iff in Hcatch as [_ Hcatch]. by repeat constructor.
    + destruct finallyBlock as [block|]; [|constructor].
      apply andb_true_iff in Hfinally as [_ Hfinally]. by repeat constructor.
  - by apply forallb_Forall.
Qed.

Section Walk.
Context {LexEnv : Type}.
Variable context : TransformationContext LexEnv.
Variable flattenVariableDestructuringToExpression :
  VariableDeclaration -> LexEnv -> Expression * LexEnv.

Local Abbreviation nested :=
  (visitNestedNode context flattenVariableDestructuringToExpression).
Local Abbreviation visit :=
  (visitSourceElement context flattenVariableDestructuringToExpression).

Lemma keeps_ret {A : Type} (a : A) : keeps (LexEnv := LexEnv) (ret a).
Proof. intros s. simpl. auto using appendOnly_refl. Qed.

Lemma keeps_throw {A : Type} : keeps (LexEnv := LexEnv) (A := A) (throw TypeError).
Proof. intros s. simpl. auto using appendOnly_refl. Qed.

Lemma keeps_bind {A B : Type} (m : M (EmitState LexEnv) A) (k : A -> M (EmitState LexEnv) B) :
  keeps m → (∀ a, keeps (k a)) → keeps (bind m k).
Proof.
  intros Hm Hk s. specialize (Hm s). unfold bind.
  destruct (m s) as [[a|e] s1]; simpl in *.
  - destruct Hm as (_ & Hid & Hgrow). destruct (Hk a s1) as (Hfine & Hid' & Hgrow').
    split; [done|]. split; [congruence|by eapply appendOnly_trans].
  - destruct Hm as (Hfine & Hid & Hgrow). split; [|done]. by intros [= ->].
Qed.

Lemma keeps_getTransformState : keeps (LexEnv := LexEnv) getTransformState.
Proof. intros s. simpl. auto using appendOnly_refl. Qed.

Lemma keeps_withLexicalEnvironment {A : Type} (f : LexEnv → A * LexEnv) :
  keeps (withLexicalEnvironment f).
Proof.
  intros s. unfold withLexicalEnvironment. destruct (f (lexicalEnvironment s)) as [a env].
  simpl. auto using appendOnly_refl.
Qed.

Lemma keeps_modifyLexicalEnvironment (f : LexEnv → LexEnv) :
  keeps (modifyLexicalEnvironment f).
Proof. apply keeps_withLexicalEnvironment. Qed.

Lemma keeps_recordExportName name : keeps (LexEnv := LexEnv) (recordExportName name).
Proof.
  intros s. split; [done|]. split; [done|]. apply (appendOnly_recordedNames [name]).
Qed.

Lemma keeps_recordExportedFunctionDeclaration node :
  keeps (LexEnv := LexEnv) (recordExportedFunctionDeclaration node).
Proof.
  intros s. split; [done|]. split; [done|]. simpl.
  split; [by repeat split|]. split.
  - exists []. by rewrite app_nil_r.
  - by eexists [_].
Qed.

Create HintDb keeps.
#[local] Hint Resolve keeps_ret keeps_throw keeps_getTransformState
  keeps_withLexicalEnvironment keeps_modifyLexicalEnvironment keeps_recordExportName
  keeps_recordExportedFunctionDeclaration : keeps.

Ltac keeps_step :=
  first
    [ apply keeps_bind; [|intros ?]
    | match goal with
      | |- keeps (if ?b then _ else _) => destruct b
      | |- keeps (match ?x with _ => _ end) => destruct x
      end
    | solve [auto with keeps] ].

Lemma keeps_hoistBindingElement name isExported :
  keeps (hoistBindingElement context name isExported).
Proof.
  intros s. rewrite hoistBindingElement_run. cbn [fst snd].
  split; [by destruct (hasOmittedElement name)|]. split; [done|].
  apply hoistedState_appendOnly.
Qed.

Lemma keeps_transformVariable node isExported :
  keeps (transformVariable context flattenVariableDestructuringToExpression node isExported).
Proof.
  destruct node as [name initializer]. unfold transformVariable.
  apply keeps_bind; [apply keeps_hoistBindingElement|]. intros _.
  repeat keeps_step.
Qed.

Lemma keeps_mapM_transformVariable declarations isExported :
  keeps (mapM (fun variable =>
                 transformVariable context flattenVariableDestructuringToExpression
                   variable isExported) declarations).
Proof.
  apply (closed_mapM (fun A => keeps (A := A))); [intros; apply keeps_ret|apply @keeps_bind|].
  apply Forall_forall. intros variable _. apply keeps_transformVariable.
Qed.

Lemma keeps_visitVariableStatement modifiers declarations :
  keeps (visitVariableStatement context flattenVariableDestructuringToExpression
           modifiers declarations).
Proof.
  unfold visitVariableStatement.
  apply keeps_bind; [apply keeps_mapM_transformVariable|]. intros ?. repeat keeps_step.
Qed.

Lemma keeps_visitFunctionDeclaration node : keeps (visitFunctionDeclaration context node).
Proof. unfold visitFunctionDeclaration. repeat keeps_step. Qed.

Lemma keeps_visitClassDeclaration node : keeps (visitClassDeclaration context node).
Proof. unfold visitClassDeclaration. repeat keeps_step. Qed.

Lemma keeps_visitImportDeclaration node : keeps (visitImportDeclaration context node).
Proof. unfold visitImportDeclaration. repeat keeps_step. Qed.

Lemma keeps_visitImportEqualsDeclaration node :
  keeps (visitImportEqualsDeclaration context node).
Proof. unfold visitImportEqualsDeclaration. repeat keeps_step. Qed.

Lemma keeps_visitExportSpecifier specifier : keeps (visitExportSpecifier context specifier).
Proof. unfold visitExportSpecifier. repeat keeps_step. Qed.

Lemma keeps_visitExportDeclaration node : keeps (visitExportDeclaration context node).
Proof.
  unfold visitExportDeclaration.
  destruct (moduleSpecifier node); [apply keeps_ret|].
  destruct (exportClause node) as [elements|]; [|apply keeps_throw].
  apply keeps_bind; [|intros ?; apply keeps_ret].
  apply (closed_mapM (fun A => keeps (A := A))); [intros; apply keeps_ret|apply @keeps_bind|].
  apply Forall_forall. intros specifier _. apply keeps_visitExportSpecifier.
Qed.

Lemma keeps_visitExportAssignment node : keeps (visitExportAssignment context node).
Proof. unfold visitExportAssignment. repeat keeps_step. Qed.

Lemma keeps_transformForBinding declarations :
  keeps (transformForBinding context flattenVariableDestructuringToExpression declarations).
Proof.
  unfold transformForBinding. destruct (head declarations) as [[name initializer]|];
    [|apply keeps_throw].
  apply keeps_bind; [apply keeps_hoistBindingElement|]. intros _. repeat keeps_step.
Qed.

Lemma keeps_visitedNode (visit : M (EmitState LexEnv) Statement) :
  keeps visit → keeps (visitedNode visit).
Proof. intros Hvisit. unfold visitedNode. apply keeps_bind; [done|]. intros ?. apply keeps_ret. Qed.

(** The statement walk, to any depth. *)
Lemma keeps_visitNestedNode node : keeps (nested node).
Proof.
  induction node as [node IH] using visited_ind.
  pose proof (closed_visitNested (fun A => keeps (A := A))
                (fun A a => keeps_ret a) (@keeps_bind) nested node IH)
    as (Hdo & Hwhile & Hlabeled & Hwith & Hswitch & Htry & Hblock).
  pose proof (closed_visitForStatement context flattenVariableDestructuringToExpression
                (fun A => keeps (A := A)) (fun A a => keeps_ret a) (@keeps_bind)
                nested node IH) as Hfor.
  pose proof (closed_visitForBinding context flattenVariableDestructuringToExpression
                (fun A => keeps (A := A)) (fun A a => keeps_ret a) (@keeps_bind)
                nested node IH) as Hbinding.
  destruct node as [| | | | | | | | | |initializer ? ? ?|initializer ? ?|initializer ? ?
                    | | | | | | | | |];
    cbn [visitNestedNode];
    first [ apply keeps_visitVariableStatement
          | apply keeps_visitFunctionDeclaration
          | apply keeps_visitClassDeclaration
          | apply keeps_ret
          | apply keeps_visitedNode ];
    try done.
  - apply Hfor. destruct initializer as [[declarations|?]|]; [|done|apply keeps_throw].
    apply keeps_mapM_transformVariable.
  - apply Hbinding. destruct initializer as [declarations|?]; [|done].
    apply keeps_transformForBinding.
  - apply Hbinding. destruct initializer as [declarations|?]; [|done].
    apply keeps_transformForBinding.
Qed.

Lemma keeps_visitSourceElement node : keeps (visit node).
Proof.
  destruct node; unfold visitSourceElement;
    first [ apply keeps_visitImportDeclaration
          | apply keeps_visitImportEqualsDeclaration
          | apply keeps_visitExportDeclaration
          | apply keeps_visitExportAssignment
          | apply keeps_visitNestedNode ].
Qed.

Lemma keeps_mapM_visit nodes : keeps (mapM visit nodes).
Proof.
  apply (closed_mapM (fun A => keeps (A := A))); [intros; apply keeps_ret|apply @keeps_bind|].
  apply Forall_forall. intros node _. apply keeps_visitSourceElement.
Qed.

Lemma keeps_visitNodes nodes start : keeps (visitNodes nodes visit start).
Proof.
  unfold visitNodes. apply keeps_bind; [apply keeps_mapM_visit|]. intros ?. apply keeps_ret.
Qed.

(** *** When the walk returns *)

Lemma returns_getTransformState : returns (getTransformState (LexEnv := LexEnv)).
Proof. intros s. by eexists _, _. Qed.

Lemma returns_withLexicalEnvironment {A : Type} (f : LexEnv → A * LexEnv) :
  returns (withLexicalEnvironment f).
Proof.
  intros s. unfold withLexicalEnvironment. destruct (f (lexicalEnvironment s)) as [a env].
  by eexists _, _.
Qed.

Lemma returns_modifyLexicalEnvironment (f : LexEnv → LexEnv) :
  returns (modifyLexicalEnvironment f).
Proof. apply returns_withLexicalEnvironment. Qed.

Lemma returns_modifyTransformState f : returns (modifyTransformState (LexEnv := LexEnv) f).
Proof. intros s. by eexists _, _. Qed.

Create HintDb returns.
#[local] Hint Resolve returns_ret returns_getTransformState returns_withLexicalEnvironment
  returns_modifyLexicalEnvironment returns_modifyTransformState : returns.

Ltac returns_step :=
  first
    [ apply returns_bind; [|intros ?]
    | match goal with
      | |- returns (if ?b then _ else _) => destruct b
      | |- returns (match ?x with _ => _ end) => destruct x
      end
    | solve [auto with returns]
    | solve [unfold recordExportName, recordExportedFunctionDeclaration; auto with returns] ].

Lemma returns_mapM_transformVariable declarations isExported :
  forallb (fun node => negb (declaresOmittedElement node)) declarations = true →
  returns (mapM (fun variable =>
                   transformVariable context flattenVariableDestructuringToExpression
                     variable isExported) declarations).
Proof.
  intros Hnone s.
  destruct (mapM_transformVariable_run context flattenVariableDestructuringToExpression
              declarations isExported s) as (transformed & s' & Hrun & _); [|by eauto].
  apply forallb_Forall in Hnone. eapply Forall_impl; [exact Hnone|].
  intros node. apply negb_true_iff.
Qed.

Lemma returns_transformForBinding firstDeclaration declarations :
  declaresOmittedElement firstDeclaration = false →
  returns (transformForBinding context flattenVariableDestructuringToExpression
             (firstDeclaration :: declarations)).
Proof.
  destruct firstDeclaration as [name initializer]. cbn [declaresOmittedElement].
  intros Hnone. unfold transformForBinding. cbn [head].
  apply returns_bind; [|intros _; repeat returns_step].
  intros s. rewrite hoistBindingElement_run, Hnone. by eexists _, _.
Qed.

Lemma returns_visitedNode (visit : M (EmitState LexEnv) Statement) :
  returns visit → returns (visitedNode visit).
Proof.
  intros Hvisit. unfold visitedNode. apply returns_bind; [done|]. intros ?. apply returns_ret.
Qed.

Lemma returns_visitNestedNode node : walkable node = true → returns (nested node).
Proof.
  induction node as [node IH] using visited_ind. intros Hwalk.
  assert (Forall (fun child => returns (nested child)) (visitedChildren node)) as Hchildren.
  { pose proof (walkable_children node Hwalk) as Hall.
    rewrite Forall_forall in IH, Hall. apply Forall_forall. auto. }
  pose proof (closed_visitNested (fun A => returns (A := A))
                (fun A a => returns_ret a) (@returns_bind _) nested node Hchildren)
    as (Hdo & Hwhile & Hlabeled & Hwith & Hswitch & Htry & Hblock).
  pose proof (closed_visitForStatement context flattenVariableDestructuringToExpression
                (fun A => returns (A := A)) (fun A a => returns_ret a) (@returns_bind _)
                nested node Hchildren) as Hfor.
  pose proof (closed_visitForBinding context flattenVariableDestructuringToExpression
                (fun A => returns (A := A)) (fun A a => returns_ret a) (@returns_bind _)
                nested node Hchildren) as Hbinding.
  destruct node as [| | | |modifiers declarations| | | | |
                    |initializer ? ? ?|initializer ? ?|initializer ? ?| | | | | | | | |];
    cbn [visitNestedNode];
    first [ apply returns_visitedNode | apply returns_ret | idtac ];
    try done.
  - intros s. cbn [walkable] in Hwalk.
    destruct (visitVariableStatement_run context flattenVariableDestructuringToExpression
                modifiers declarations s) as (statements & s' & Hrun & _); [|by eauto].
    apply forallb_Forall in Hwalk. eapply Forall_impl; [exact Hwalk|].
    intros variable. apply negb_true_iff.
  - unfold visitFunctionDeclaration. repeat returns_step.
  - unfold visitClassDeclaration. repeat returns_step.
  - apply Hfor. cbn [walkable] in Hwalk.
    apply andb_true_iff in Hwalk as [Hwalk _]. apply andb_true_iff in Hwalk as [Hwalk _].
    destruct initializer as [[declarations|?]|]; [|done|done].
    by apply returns_mapM_transformVariable.
  - apply Hbinding. cbn [walkable] in Hwalk.
    apply andb_true_iff in Hwalk as [Hwalk _]. apply andb_true_iff in Hwalk as [Hwalk _].
    destruct initializer as [[|firstDeclaration declarations]|?]; [done| |done].
    apply returns_transformForBinding. by apply negb_true_iff.
  - apply Hbinding. cbn [walkable] in Hwalk.
    apply andb_true_iff in Hwalk as [Hwalk _]. apply andb_true_iff in Hwalk as [Hwalk _].
    destruct initializer as [[|firstDeclaration declarations]|?]; [done| |done].
    apply returns_transformForBinding. by apply negb_true_iff.
Qed.

Lemma returns_visitExportDeclaration node :
  wellFormedStatement (ExportDeclarationStatement node) = true →
  returns (visitExportDeclaration context node).
Proof.
  unfold visitExportDeclaration, wellFormedStatement.
  destruct (moduleSpecifier node); [intros _; apply returns_ret|].
  destruct (exportClause node) as [elements|]; [intros _|done].
  apply returns_bind; [|intros ?; apply returns_ret].
  apply returns_mapM, Forall_forall. intros specifier _.
  unfold visitExportSpecifier. repeat returns_step.
Qed.

Lemma returns_visitSourceElement node :
  wellFormedStatement node = true → walkable node = true → returns (visit node).
Proof.
  intros Hwf Hwalk. destruct node; unfold visitSourceElement;
    try (by apply returns_visitNestedNode).
  - unfold visitImportDeclaration. repeat returns_step.
  - unfold visitImportEqualsDeclaration. repeat returns_step.
  - by apply returns_visitExportDeclaration.
  - unfold visitExportAssignment. repeat returns_step.
Qed.

Lemma returns_mapM_visit nodes :
  Forall (fun node => wellFormedStatement node = true) nodes →
  Forall (fun node => walkable node = true) nodes →
  returns (mapM visit nodes).
Proof.
  intros Hwf Hwalk. apply returns_mapM.
  rewrite Forall_forall in Hwf, Hwalk. apply Forall_forall. intros node Hin.
  apply returns_visitSourceElement; auto.
Qed.

Lemma returns_visitNodes nodes start :
  Forall (fun node => wellFormedStatement node = true) nodes →
  Forall (fun node => walkable node = true) nodes →
  returns (visitNodes nodes visit start).
Proof.
  intros Hwf Hwalk. unfold visitNodes. apply returns_bind; [|intros ?; apply returns_ret].
  apply returns_mapM_visit; by apply Forall_drop.
Qed.

End Walk.

(** *** The module body *)

Lemma collectDependencyGroups_returned file entries groups :
  collectDependencyGroups (Some file) entries = Returned groups →
  Forall (fun entry => hasLiteralSpecifier entry = true) entries
  ∧ Forall (fun group =>
              Forall (fun entry => hasLiteralSpecifier entry = true)
                (groupExternalImports group)) groups.
Proof.
  intros Hrun. destruct (literal_or_not entries) as [Hall|Hexists].
  - split; [done|].
    destruct (collectDependencyGroups_returns file entries Hall) as (groups' & Hrun' & Hgroups).
    congruence.
  - rewrite (collectDependencyGroups_non_literal_throws file entries Hexists) in Hrun. done.
Qed.

Lemma collectDependencyGroups_threw file entries e :
  collectDependencyGroups (Some file) entries = Threw e →
  e = TypeError ∧ Exists (fun entry => hasLiteralSpecifier entry = false) entries.
Proof.
  intros Hrun. destruct (literal_or_not entries) as [Hall|Hexists].
  - destruct (collectDependencyGroups_returns file entries Hall) as (groups & Hrun' & _).
    congruence.
  - rewrite (collectDependencyGroups_non_literal_throws file entries Hexists) in Hrun.
    split; [congruence|done].
Qed.

Section Assembly.
Context {LexEnv : Type}.
Variable context : TransformationContext LexEnv.
Variable collectExternalModuleInfo : SourceFile -> ExternalModuleInfo.
Variable flattenVariableDestructuringToExpression :
  VariableDeclaration -> LexEnv -> Expression * LexEnv.

Local Abbreviation visit :=
  (visitSourceElement context flattenVariableDestructuringToExpression).

Lemma addExportStarFunction_returns statements localNames (s : EmitState LexEnv) :
  addExportStarFunction statements localNames s
  = (Returned
       (statements ++
          [exportStarFunctionDeclaration (transformState s)
             (UniqueName "exportStar" (nextAutoGenerateId s)) localNames],
        UniqueName "exportStar" (nextAutoGenerateId s)),
     {| transformState := transformState s;
        nextAutoGenerateId := S (nextAutoGenerateId s);
        lexicalEnvironment := lexicalEnvironment s |}).
Proof. reflexivity. Qed.

Lemma addExportStarIfNeeded_run statements (s : EmitState LexEnv) imports :
  externalImports (transformState s) = Some imports →
  ∃ exportStarFunction s',
    addExportStarIfNeeded statements s
    = (Returned
         (statements ++ exportStarStatements (transformState s) imports (nextAutoGenerateId s),
          exportStarFunction), s')
    ∧ transformState s' = transformState s.
Proof.
  intros Himports. unfold addExportStarIfNeeded, exportStarStatements.
  rewrite (bind_returned _ _ s (transformState s) s) by done.
  rewrite Himports.
  destruct (bool_decide (exportedLocalNames (transformState s) = None)
            && isEmpty (exportSpecifiers (transformState s))
            && negb (hasExportDeclarationWithExportClause imports)).
  - rewrite addExportStarFunction_returns. eexists _, _. split; [done|]. done.
  - unfold bind at 1. simpl. rewrite addExportStarFunction_returns. simpl.
    eexists _, _. split; [by rewrite <- app_assoc|]. done.
Qed.

(** Whatever the file exports, the helper is among the statements added. *)
Lemma exportStarStatements_helper st imports n :
  existsb isExportStarHelper (exportStarStatements st imports n) = true.
Proof. unfold exportStarStatements. by destruct (_ && _). Qed.

Lemma getLocalNameForExternalImport_literal entry :
  hasLiteralSpecifier entry = true →
  match entry with
  | ExternalImportDeclaration d =>
      is_Some (importClause d) → is_Some (getLocalNameForExternalImport entry)
  | _ => is_Some (getLocalNameForExternalImport entry)
  end.
Proof.
  unfold hasLiteralSpecifier, getLocalNameForExternalImport.
  destruct entry as [d|d|d]; simpl.
  - intros _ [clause Hclause]. rewrite Hclause.
    destruct (namedBindings clause) as [[n|elements]|];
      destruct (bool_decide (is_Some (importClauseName clause))); eauto.
  - eauto.
  - destruct (moduleSpecifier d); [eauto|done].
Qed.

Lemma setterStatements_returns st exportStarFunction parameterName entry :
  hasLiteralSpecifier entry = true →
  ∃ statements,
    setterStatements st exportStarFunction parameterName entry = Returned statements.
Proof.
  intros Hliteral. pose proof (getLocalNameForExternalImport_literal entry Hliteral) as Hname.
  unfold setterStatements. destruct entry as [d|d|d].
  - destruct (importClause d) as [clause|]; [|eauto].
    destruct Hname as [importVariable ->]; eauto.
  - destruct Hname as [importVariable ->]. eauto.
  - destruct Hname as [importVariable ->]. destruct (exportClause d); eauto.
Qed.

Lemma setterBody_returns st exportStarFunction parameterName entries :
  Forall (fun entry => hasLiteralSpecifier entry = true) entries →
  ∃ statements, setterBody st exportStarFunction parameterName entries = Returned statements.
Proof.
  induction 1 as [|entry entries Hentry _ [more IH]]; simpl; [eauto|].
  destruct (setterStatements_returns st exportStarFunction parameterName entry Hentry)
    as [statements ->].
  rewrite IH. eauto.
Qed.

Lemma generateSetter_returns exportStarFunction group (s : EmitState LexEnv) :
  Forall (fun entry => hasLiteralSpecifier entry = true) (groupExternalImports group) →
  ∃ setter s',
    generateSetter exportStarFunction group s = (Returned setter, s')
    ∧ transformState s' = transformState s
    ∧ isSetterOf (transformState s) exportStarFunction group setter.
Proof.
  intros Hliteral. unfold generateSetter.
  unfold bind at 1. simpl. unfold bind at 1. simpl.
  set (parameterName := UniqueName _ _).
  destruct (setterBody_returns (transformState s) exportStarFunction parameterName _ Hliteral)
    as [statements Hbody].
  unfold bind, liftOutcome. rewrite Hbody. simpl.
  eexists _, _. split; [done|]. split; [done|].
  exists parameterName, statements. done.
Qed.

Lemma mapM_generateSetter_returns exportStarFunction groups : ∀ (s : EmitState LexEnv),
  Forall (fun group =>
            Forall (fun entry => hasLiteralSpecifier entry = true)
              (groupExternalImports group)) groups →
  ∃ setters s',
    mapM (generateSetter exportStarFunction) groups s = (Returned setters, s')
    ∧ transformState s' = transformState s
    ∧ Forall2 (isSetterOf (transformState s) exportStarFunction) groups setters.
Proof.
  induction groups as [|group groups IH]; intros s Hliteral.
  - exists [], s. simpl. auto.
  - apply Forall_cons in Hliteral as [Hgroup Hliteral].
    destruct (generateSetter_returns exportStarFunction group s Hgroup)
      as (setter & s1 & Hrun & Hstate & Hsetter).
    destruct (IH s1 Hliteral) as (setters & s2 & Hrun' & Hstate' & Hsetters).
    exists (setter :: setters), s2. simpl.
    rewrite (bind_returned _ _ _ _ _ Hrun), (bind_returned _ _ _ _ _ Hrun').
    split; [done|]. split; [congruence|].
    constructor; [done|]. by rewrite <- Hstate.
Qed.

Lemma generateSetters_returns exportStarFunction groups (s : EmitState LexEnv) :
  Forall (fun group =>
            Forall (fun entry => hasLiteralSpecifier entry = true)
              (groupExternalImports group)) groups →
  ∃ setters s',
    generateSetters exportStarFunction groups s = (Returned (ArrayLiteral setters), s')
    ∧ transformState s' = transformState s
    ∧ Forall2 (isSetterOf (transformState s) exportStarFunction) groups setters.
Proof.
  intros Hliteral.
  destruct (mapM_generateSetter_returns exportStarFunction groups s Hliteral)
    as (setters & s' & Hrun & Hstate & Hsetters).
  exists setters, s'. unfold generateSetters.
  by rewrite (bind_returned _ _ _ _ _ Hrun).
Qed.

Lemma sameFile_isSetterOf st st' exportStarFunction group setter :
  sameFile st st' →
  isSetterOf st exportStarFunction group setter →
  isSetterOf st' exportStarFunction group setter.
Proof.
  intros (_&_&_&_&_&Hexporter&_) (parameterName & statements & -> & Hbody).
  exists parameterName, statements. split; [done|]. rewrite <- Hbody. clear Hbody.
  induction (groupExternalImports group) as [|entry entries IH]; simpl; [done|].
  rewrite IH. unfold setterStatements. by rewrite Hexporter.
Qed.

(** [addSystemModuleBody], in terms of the walk over the statements: when
    the walk throws, so does the body, in the state that the walk reached;
    when it returns, the body is laid out around what it returned. *)
Lemma addSystemModuleBody_run statements node groups offset (s : EmitState LexEnv) imports :
  externalImports (transformState s) = Some imports →
  Forall (fun group =>
            Forall (fun entry => hasLiteralSpecifier entry = true)
              (groupExternalImports group)) groups →
  match visitNodes (sourceStatements node) visit offset
          {| transformState := transformState s;
             nextAutoGenerateId := nextAutoGenerateId s;
             lexicalEnvironment := startLexicalEnvironment context (lexicalEnvironment s) |}
  with
  | (Threw e, s2) =>
      addSystemModuleBody context flattenVariableDestructuringToExpression
        statements node groups offset s
      = (Threw e, s2)
  | (Returned executeStatements, s2) =>
      ∃ exportStarFunction setters s',
        addSystemModuleBody context flattenVariableDestructuringToExpression
          statements node groups offset s
        = (Returned
             (statements
              ++ (endLexicalEnvironment context (lexicalEnvironment s2)).1
              ++ default [] (exportedFunctionDeclarations (transformState s2))
              ++ exportStarStatements (transformState s2) imports (nextAutoGenerateId s)
              ++ [ReturnStatement
                    (ObjectLiteral [
                       PropertyAssignment (IdentifierName "setters") (ArrayLiteral setters);
                       PropertyAssignment (IdentifierName "execute")
                         (FunctionExpression (Some (fileId node)) None []
                            (Block executeStatements))])]),
           s')
        ∧ sameFile (transformState s) (transformState s')
        ∧ Forall2 (isSetterOf (transformState s') exportStarFunction) groups setters
  end.
Proof.
  intros Himports Hliteral.
  set (s1 := Build_EmitState _ _ _ _).
  pose proof (keeps_visitNodes context flattenVariableDestructuringToExpression
                (sourceStatements node) offset s1) as (_ & Hid & [Hfile _]).
  destruct (visitNodes _ _ _ s1) as [[executeStatements|e] s2] eqn:Hvisit;
    simpl in Hid, Hfile; unfold addSystemModuleBody; unfold bind at 1; simpl; fold s1.
  - rewrite (bind_returned _ _ _ _ _ Hvisit).
    unfold bind at 1. unfold withLexicalEnvironment at 1.
    destruct (endLexicalEnvironment context (lexicalEnvironment s2)) as [hoisted env] eqn:Hend.
    set (s3 := Build_EmitState _ _ _ _).
    rewrite (bind_returned _ _ s3 (transformState s3) s3) by done.
    assert (externalImports (transformState s3) = Some imports) as Himports3.
    { subst s3. simpl. destruct Hfile as (_&->&_). done. }
    destruct (addExportStarIfNeeded_run
                (addNodes (addNodes statements (Some hoisted))
                   (exportedFunctionDeclarations (transformState s3))) s3 imports Himports3)
      as (exportStarFunction & s4 & Hstar & Hstate4).
    rewrite (bind_returned _ _ _ _ _ Hstar).
    destruct (generateSetters_returns exportStarFunction groups s4 Hliteral)
      as (setters & s5 & Hsetters & Hstate5 & Hall).
    rewrite (bind_returned _ _ _ _ _ Hsetters).
    exists exportStarFunction, setters, s5.
    split; [|split].
    + unfold ret, addNode, addNodes. simpl. rewrite Hid. simpl. do 2 f_equal.
      destruct (exportedFunctionDeclarations (transformState s2)); simpl;
        by rewrite <- ?app_assoc, ?app_nil_r.
    + rewrite Hstate5, Hstate4. exact Hfile.
    + by rewrite Hstate5.
  - by rewrite (bind_threw _ _ _ _ _ Hvisit).
Qed.

End Assembly.

Lemma elem_of_drop_prologueDirectives statement statements :
  statement ∈ statements →
  isPrologueDirective statement = false →
  statement ∈ drop (length (prologueDirectives statements)) statements.
Proof.
  intros Hin Hplain. induction statements as [|first rest IH]; [done|]. simpl.
  destruct (isPrologueDirective first) eqn:Hfirst; [|done]. simpl.
  apply elem_of_cons in Hin as [->|Hin]; [congruence|auto].
Qed.

Lemma Exists_drop_prologueDirectives (P : Statement → Prop) statements :
  (∀ statement, P statement → isPrologueDirective statement = false) →
  Exists P statements →
  Exists P (drop (length (prologueDirectives statements)) statements).
Proof.
  intros Hplain Hexists. apply Exists_exists in Hexists as (statement & Hin & Hp).
  apply Exists_exists. exists statement. split; [|done].
  apply elem_of_drop_prologueDirectives; auto.
Qed.

Lemma wellFormed_or_not statements :
  Forall (fun statement => wellFormedStatement statement = true) statements
  ∨ Exists (fun statement => wellFormedStatement statement = false) statements.
Proof.
  induction statements as [|statement statements [IH|IH]];
    [by left| |right; by constructor 2].
  destruct (wellFormedStatement statement) eqn:Hwf; [left|right]; by constructor.
Qed.

(** *** The worker and the entry point *)

Section Worker.
Context {LexEnv : Type}.
Variable context : TransformationContext LexEnv.
Variable collectExternalModuleInfo : SourceFile -> ExternalModuleInfo.
Variable flattenVariableDestructuringToExpression :
  VariableDeclaration -> LexEnv -> Expression * LexEnv.

Local Abbreviation visit :=
  (visitSourceElement context flattenVariableDestructuringToExpression).
Local Abbreviation worker :=
  (transformSystemModuleWorker context collectExternalModuleInfo
     flattenVariableDestructuringToExpression).
Local Abbreviation transform :=
  (transformSourceFile context collectExternalModuleInfo
     flattenVariableDestructuringToExpression).

(** Re-entering the worker while an exporter is still set. *)
Lemma transformSystemModuleWorker_asserts node (s : EmitState LexEnv) :
  is_Some (exportFunctionForFile (transformState s)) →
  worker node s = (Threw AssertionFailure, s).
Proof.
  intros [exporter Hset]. unfold transformSystemModuleWorker.
  unfold bind at 1. simpl. by rewrite Hset.
Qed.

Lemma transformSourceFile_asserts node (s : EmitState LexEnv) :
  isExternalModule node || isolatedModules context = true →
  is_Some (exportFunctionForFile (transformState s)) →
  transform node s
  = (Threw AssertionFailure,
     {| transformState := setCurrentSourceFile (Some node) (transformState s);
        nextAutoGenerateId := nextAutoGenerateId s;
        lexicalEnvironment := lexicalEnvironment s |}).
Proof.
  intros Hmodule Hset. unfold transformSourceFile. rewrite Hmodule.
  unfold bind at 1. simpl. unfold bind at 1.
  by rewrite transformSystemModuleWorker_asserts.
Qed.

(** Whenever [transformSourceFile] returns for a module, the closure
    variables are the cleared ones. *)
Lemma transformSourceFile_clears node (s : EmitState LexEnv) updated s' :
  isExternalModule node || isolatedModules context = true →
  transform node s = (Returned updated, s') →
  transformState s' = clearedTransformState.
Proof.
  intros Hmodule. unfold transformSourceFile. rewrite Hmodule.
  unfold bind at 1. simpl. unfold bind at 1.
  destruct (worker node _) as [[result|e] s2]; [|done].
  unfold bind at 1. simpl. by intros [= _ <-].
Qed.

(** [transformSourceFile] on a module, entered with no exporter set, in
    terms of the grouper and of the walk over the statements: a fault of
    either is the outcome, with the exporter of the file left set; when both
    return, the tree is laid out around what they returned, and the closure
    variables are cleared. *)
Lemma transformSourceFile_run node (s : EmitState LexEnv) :
  isExternalModule node || isolatedModules context = true →
  exportFunctionForFile (transformState s) = None →
  match collectDependencyGroups (Some node)
          (infoExternalImports (collectExternalModuleInfo node)) with
  | Threw e =>
      ∃ s1,
        transform node s = (Threw e, s1)
        ∧ exportFunctionForFile (transformState s1)
          = Some (UniqueName "exports" (nextAutoGenerateId s))
  | Returned groups =>
      match visitNodes (sourceStatements node) visit
              (length (prologueDirectives (sourceStatements node)))
              (walkState context collectExternalModuleInfo node s) with
      | (Threw e, s2) =>
          transform node s = (Threw e, s2)
          ∧ exportFunctionForFile (transformState s2)
            = Some (UniqueName "exports" (nextAutoGenerateId s))
      | (Returned executeStatements, s2) =>
          ∃ exportStarFunction setters st s',
            transform node s
            = (Returned
                 (systemRegisterCall node groups
                    (UniqueName "exports" (nextAutoGenerateId s))
                    (UniqueName "context" (S (nextAutoGenerateId s)))
                    ((endLexicalEnvironment context (lexicalEnvironment s2)).1
                     ++ default [] (exportedFunctionDeclarations (transformState s2))
                     ++ exportStarStatements (transformState s2)
                          (infoExternalImports (collectExternalModuleInfo node))
                          (S (S (nextAutoGenerateId s))))
                    setters executeStatements),
               s')
            ∧ transformState s' = clearedTransformState
            ∧ exportFunctionForFile st = Some (UniqueName "exports" (nextAutoGenerateId s))
            ∧ Forall2 (isSetterOf st exportStarFunction) groups setters
      end
  end.
Proof.
  intros Hmodule Hclean. unfold walkState.
  set (st1 := setContextObjectForFile _ _).
  destruct (collectDependencyGroups _ _) as [groups|e] eqn:Hgroups.
  - apply collectDependencyGroups_returned in Hgroups as Hliteral.
    destruct Hliteral as [_ Hliteral].
    pose proof (addSystemModuleBody_run context flattenVariableDestructuringToExpression
                  (prologueDirectives (sourceStatements node) ++
                     [moduleNameVariable
                        (Some (UniqueName "context" (S (nextAutoGenerateId s))))])
                  node groups (length (prologueDirectives (sourceStatements node)))
                  {| transformState := st1;
                     nextAutoGenerateId := S (S (nextAutoGenerateId s));
                     lexicalEnvironment := lexicalEnvironment s |}
                  (infoExternalImports (collectExternalModuleInfo node))
                  eq_refl Hliteral) as Hbody.
    cbn [transformState nextAutoGenerateId lexicalEnvironment] in Hbody.
    set (s1 := Build_EmitState _ _ _ _) in *.
    pose proof (keeps_visitNodes context flattenVariableDestructuringToExpression
                  (sourceStatements node) (length (prologueDirectives (sourceStatements node)))
                  s1)
      as (_ & _ & [Hkept _]).
    destruct (visitNodes _ _ _ s1) as [[executeStatements|e] s2] eqn:Hvisit.
    + destruct Hbody as (exportStarFunction & setters & s3 & Hbody & Hsame & Hsetters).
      exists exportStarFunction, setters, (transformState s3). eexists.
      split; [|split; [|split; [|exact Hsetters]]].
      * unfold transformSourceFile. rewrite Hmodule.
        unfold bind at 1. simpl. unfold transformSystemModuleWorker.
        unfold bind at 1. unfold bind at 1. simpl. rewrite Hclean. simpl.
        do 7 (unfold bind at 1; simpl). rewrite Hgroups.
        unfold liftOutcome. simpl. do 2 (unfold bind at 1; simpl).
        simpl in Hbody. rewrite (bind_returned _ _ _ _ _ Hbody).
        unfold bind at 1. simpl. unfold bind at 1. simpl.
        destruct Hsame as (_&_&_&_&_&Hexporter&Hcontext). simpl in Hexporter, Hcontext.
        unfold ret, createParameter, systemRegisterCall. rewrite Hexporter, Hcontext.
        rewrite <- !app_assoc. reflexivity.
      * reflexivity.
      * destruct Hsame as (_&_&_&_&_&Hexporter&_). by rewrite Hexporter.
    + split.
      * unfold transformSourceFile. rewrite Hmodule.
        unfold bind at 1. simpl. unfold transformSystemModuleWorker.
        unfold bind at 1. unfold bind at 1. simpl. rewrite Hclean. simpl.
        do 7 (unfold bind at 1; simpl). rewrite Hgroups.
        unfold liftOutcome. simpl. do 2 (unfold bind at 1; simpl).
        simpl in Hbody. by rewrite (bind_threw _ _ _ _ _ Hbody).
      * simpl in Hkept. destruct Hkept as (_&_&_&_&_&Hexporter&_). by rewrite Hexporter.
  - eexists. split.
    + unfold transformSourceFile. rewrite Hmodule.
      unfold bind at 1. simpl. unfold transformSystemModuleWorker.
      unfold bind at 1. unfold bind at 1. simpl. rewrite Hclean. simpl.
      do 7 (unfold bind at 1; simpl). rewrite Hgroups. reflexivity.
    + reflexivity.
Qed.

(** The walk does not get past an export declaration that has neither a
    clause nor a module specifier. *)
Lemma mapM_visit_malformed nodes : ∀ (s : EmitState LexEnv),
  Exists (fun node => wellFormedStatement node = false) nodes →
  ∃ s', mapM visit nodes s = (Threw TypeError, s').
Proof.
  induction nodes as [|node nodes IH]; intros s Hexists.
  - by apply Exists_nil in Hexists.
  - pose proof (keeps_visitSourceElement context flattenVariableDestructuringToExpression
                  node s) as (Hfine & _).
    simpl. destruct (visit node s) as [[result|[]] s1] eqn:Hrun; [| done |].
    + rewrite (bind_returned _ _ _ _ _ Hrun).
      apply Exists_cons in Hexists as [Hnode|Hrest].
      * exfalso. destruct node as [| |declaration| | | | | | | | | | | | | | | | | | |];
          try done.
        unfold wellFormedStatement in Hnode.
        apply orb_false_iff in Hnode as [Hspecifier Hclause].
        apply bool_decide_eq_false in Hspecifier, Hclause.
        unfold visitSourceElement, visitExportDeclaration in Hrun.
        destruct (moduleSpecifier declaration); [by destruct Hspecifier|].
        destruct (exportClause declaration); [by destruct Hclause|done].
      * destruct (IH s1 Hrest) as (s' & Hthrow).
        exists s'. by rewrite (bind_threw _ _ _ _ _ Hthrow).
    + exists s1. by rewrite (bind_threw _ _ _ _ _ Hrun).
Qed.

Lemma visitNodes_malformed node (s : EmitState LexEnv) :
  Exists (fun statement => wellFormedStatement statement = false) (sourceStatements node) →
  ∃ s',
    visitNodes (sourceStatements node) visit
      (length (prologueDirectives (sourceStatements node))) s
    = (Threw TypeError, s').
Proof.
  intros Hmalformed.
  destruct (mapM_visit_malformed
              (drop (length (prologueDirectives (sourceStatements node)))
                 (sourceStatements node)) s) as (s' & Hthrow).
  { apply Exists_drop_prologueDirectives; [|exact Hmalformed]. by intros []. }
  exists s'. unfold visitNodes. by rewrite (bind_threw _ _ _ _ _ Hthrow).
Qed.

(** A module on which neither the grouper nor the walk meets a fault. *)
Lemma transformSourceFile_returns node (s : EmitState LexEnv) :
  isExternalModule node || isolatedModules context = true →
  exportFunctionForFile (transformState s) = None →
  Forall (fun statement => wellFormedStatement statement = true) (sourceStatements node) →
  Forall (fun statement => walkable statement = true) (sourceStatements node) →
  Forall (fun entry => hasLiteralSpecifier entry = true)
    (infoExternalImports (collectExternalModuleInfo node)) →
  ∃ updated s', transform node s = (Returned updated, s').
Proof.
  intros Hmodule Hclean Hwf Hwalk Hliteral.
  pose proof (transformSourceFile_run node s Hmodule Hclean) as Hrun.
  destruct (collectDependencyGroups_returns node _ Hliteral) as (groups & Hgroups & _).
  rewrite Hgroups in Hrun.
  destruct (returns_visitNodes context flattenVariableDestructuringToExpression
              (sourceStatements node) (length (prologueDirectives (sourceStatements node)))
              Hwf Hwalk (walkState context collectExternalModuleInfo node s))
    as (executeStatements & s2 & Hvisit).
  rewrite Hvisit in Hrun. destruct Hrun as (? & ? & ? & s' & Hrun & _). eauto.
Qed.

(** What [transformSourceFile] has returned for a module, when it returns:
    it was entered with no exporter set, the grouper and the walk returned,
    and the tree is laid out around what they returned. *)
Lemma transformSourceFile_returned node (s : EmitState LexEnv) updated s' :
  isExternalModule node || isolatedModules context = true →
  transform node s = (Returned updated, s') →
  exportFunctionForFile (transformState s) = None
  ∧ ∃ groups executeStatements s2 exportStarFunction setters st,
      collectDependencyGroups (Some node)
        (infoExternalImports (collectExternalModuleInfo node)) = Returned groups
      ∧ visitNodes (sourceStatements node) visit
          (length (prologueDirectives (sourceStatements node)))
          (walkState context collectExternalModuleInfo node s)
        = (Returned executeStatements, s2)
      ∧ updated
        = systemRegisterCall node groups
            (UniqueName "exports" (nextAutoGenerateId s))
            (UniqueName "context" (S (nextAutoGenerateId s)))
            ((endLexicalEnvironment context (lexicalEnvironment s2)).1
             ++ default [] (exportedFunctionDeclarations (transformState s2))
             ++ exportStarStatements (transformState s2)
                  (infoExternalImports (collectExternalModuleInfo node))
                  (S (S (nextAutoGenerateId s))))
            setters executeStatements
      ∧ transformState s' = clearedTransformState
      ∧ exportFunctionForFile st = Some (UniqueName "exports" (nextAutoGenerateId s))
      ∧ Forall2 (isSetterOf st exportStarFunction) groups setters.
Proof.
  intros Hmodule Hreturned.
  destruct (exportFunctionForFile (transformState s)) as [exporter|] eqn:Hclean.
  { rewrite transformSourceFile_asserts in Hreturned; [done|done|].
    rewrite Hclean. by eexists. }
  split; [done|].
  pose proof (transformSourceFile_run node s Hmodule Hclean) as Hrun.
  destruct (collectDependencyGroups _ _) as [groups|e] eqn:Hgroups.
  - destruct (visitNodes _ _ _ _) as [[executeStatements|e] s2] eqn:Hvisit.
    + destruct Hrun as (exportStarFunction & setters & st & s'' & Hrun & Hcleared
                        & Hexporter & Hsetters).
      rewrite Hrun in Hreturned. injection Hreturned as <- <-.
      exists groups, executeStatements, s2, exportStarFunction, setters, st. done.
    + destruct Hrun as [Hrun _]. congruence.
  - destruct Hrun as (s1 & Hrun & _). congruence.
Qed.

(** From a state with no exporter set, a module with a malformed export
    declaration or with an import whose specifier is no string literal makes
    [transformSourceFile] throw, with the exporter of the file left set. *)
Lemma transformSourceFile_throws node (s : EmitState LexEnv) :
  isExternalModule node || isolatedModules context = true →
  exportFunctionForFile (transformState s) = None →
  Exists (fun statement => wellFormedStatement statement = false) (sourceStatements node)
  ∨ Exists (fun entry => hasLiteralSpecifier entry = false)
      (infoExternalImports (collectExternalModuleInfo node)) →
  ∃ s1,
    transform node s = (Threw TypeError, s1)
    ∧ exportFunctionForFile (transformState s1)
      = Some (UniqueName "exports" (nextAutoGenerateId s)).
Proof.
  intros Hmodule Hclean Hfault.
  pose proof (transformSourceFile_run node s Hmodule Hclean) as Hrun.
  destruct (collectDependencyGroups _ _) as [groups|e] eqn:Hgroups.
  - apply collectDependencyGroups_returned in Hgroups as [Hliteral _].
    destruct Hfault as [Hmalformed|Hexists].
    + destruct (visitNodes_malformed node
                  (walkState context collectExternalModuleInfo node s) Hmalformed)
        as (s2 & Hthrow).
      rewrite Hthrow in Hrun. by exists s2.
    + exfalso. apply Exists_exists in Hexists as (entry & Hin & Hentry).
      rewrite Forall_forall in Hliteral. specialize (Hliteral entry Hin). congruence.
  - apply collectDependencyGroups_threw in Hgroups as [-> _]. exact Hrun.
Qed.

(** A module never fails an assertion when it is entered with no exporter
    set: the assertions in [generateSetters] hold. *)
Lemma transformSourceFile_no_assertion node (s : EmitState LexEnv) s' :
  isExternalModule node || isolatedModules context = true →
  exportFunctionForFile (transformState s) = None →
  transform node s ≠ (Threw AssertionFailure, s').
Proof.
  intros Hmodule Hclean Hthrow.
  pose proof (transformSourceFile_run node s Hmodule Hclean) as Hrun.
  destruct (collectDependencyGroups _ _) as [groups|e] eqn:Hgroups.
  - pose proof (keeps_visitNodes context flattenVariableDestructuringToExpression
                  (sourceStatements node)
                  (length (prologueDirectives (sourceStatements node)))
                  (walkState context collectExternalModuleInfo node s)) as (Hfine & _).
    destruct (visitNodes _ _ _ _) as [[executeStatements|e] s2] eqn:Hvisit.
    + destruct Hrun as (? & ? & ? & ? & Hrun & _). congruence.
    + destruct Hrun as [Hrun _]. rewrite Hrun in Hthrow. injection Hthrow as -> _. done.
  - apply collectDependencyGroups_threw in Hgroups as [-> _].
    destruct Hrun as (s1 & Hrun & _). congruence.
Qed.

(** Two modules in a row, through the same transformer: the second starts
    from the cleared state. *)
Lemma transformSourceFile_twice first second (s : EmitState LexEnv) :
  isExternalModule first || isolatedModules context = true →
  isExternalModule second || isolatedModules context = true →
  exportFunctionForFile (transformState s) = None →
  Forall (fun statement => wellFormedStatement statement = true) (sourceStatements first) →
  Forall (fun statement => walkable statement = true) (sourceStatements first) →
  Forall (fun entry => hasLiteralSpecifier entry = true)
    (infoExternalImports (collectExternalModuleInfo first)) →
  Forall (fun statement => wellFormedStatement statement = true) (sourceStatements second) →
  Forall (fun statement => walkable statement = true) (sourceStatements second) →
  Forall (fun entry => hasLiteralSpecifier entry = true)
    (infoExternalImports (collectExternalModuleInfo second)) →
  ∃ updated1 s1 updated2 s2,
    transform first s = (Returned updated1, s1)
    ∧ transform second s1 = (Returned updated2, s2)
    ∧ transformState s2 = clearedTransformState.
Proof.
  intros Hfirst Hsecond Hclean Hwf1 Hwalk1 Hliteral1 Hwf2 Hwalk2 Hliteral2.
  destruct (transformSourceFile_returns first s Hfirst Hclean Hwf1 Hwalk1 Hliteral1)
    as (updated1 & s1 & Hrun1).
  pose proof (transformSourceFile_clears first s updated1 s1 Hfirst Hrun1) as Hcleared1.
  assert (exportFunctionForFile (transformState s1) = None) as Hclean1
    by (by rewrite Hcleared1).
  destruct (transformSourceFile_returns second s1 Hsecond Hclean1 Hwf2 Hwalk2 Hliteral2)
    as (updated2 & s2 & Hrun2).
  pose proof (transformSourceFile_clears second s1 updated2 s2 Hsecond Hrun2) as Hcleared2.
  eauto 10.
Qed.

End Worker.

(** *** Export assignments and files that are not modules *)

Section Visitors.
Context {LexEnv : Type}.
Variable context : TransformationContext LexEnv.
Variable collectExternalModuleInfo : SourceFile -> ExternalModuleInfo.
Variable flattenVariableDestructuringToExpression :
  VariableDeclaration -> LexEnv -> Expression * LexEnv.

(** C2, as amended: a top-level export assignment that is not [export =]
    (that is, [export default <expression>]) and denotes a value becomes the
    statement [exporter("default", <expression>)]; a bare [export =] is
    dropped and leaves no statement. *)
Theorem visitExportAssignment_default id expression s :
  isValueAliasDeclaration (resolver context) id = true →
  visitSourceElement context flattenVariableDestructuringToExpression
    (ExportAssignment id false expression) s
    = (Returned
         [ExpressionStatement
            (Call (identifierOrAbsent (exportFunctionForFile (transformState s)))
               [StringLiteral "default"; expression])], s)
  ∧ visitSourceElement context flattenVariableDestructuringToExpression
      (ExportAssignment id true expression) s
    = (Returned [], s).
Proof.
  intros Hvalue. unfold visitSourceElement, visitExportAssignment. simpl.
  rewrite Hvalue. done.
Qed.

(** C9: a file that is not an external module, with [isolatedModules] off,
    is returned as it is, and the state is not touched. *)
Theorem transformSourceFile_not_module node s :
  isExternalModule node = false →
  isolatedModules context = false →
  transformSourceFile context collectExternalModuleInfo
      flattenVariableDestructuringToExpression node s
    = (Returned node, s).
Proof.
  intros Hscript Hoption. unfold transformSourceFile. by rewrite Hscript, Hoption.
Qed.

End Visitors.

Lemma visitExportAssignment_default_witness :
  visitSourceElement exampleContext exampleFlatten
      (ExportAssignment 7 false (EIdentifier (Named "v"))) exampleRunningState
    = (Returned
         [ExpressionStatement
            (Call (EIdentifier (UniqueName "exports" 1))
               [StringLiteral "default"; EIdentifier (Named "v")])],
       exampleRunningState)
  ∧ visitSourceElement exampleContext exampleFlatten
      (ExportAssignment 7 true (EIdentifier (Named "v"))) exampleRunningState
    = (Returned [], exampleRunningState).
Proof.
  apply (visitExportAssignment_default exampleContext exampleFlatten
           7%nat (EIdentifier (Named "v")) exampleRunningState).
  reflexivity.
Defined.

Lemma export_equals_not_rewritten :
  isValueAliasDeclaration (resolver exampleContext) 7 = true
  ∧ (visitSourceElement exampleContext exampleFlatten
       (ExportAssignment 7 true (EIdentifier (Named "v"))) exampleRunningState).1
    ≠ Returned
        [createExportStatement (transformState exampleRunningState)
           (createLiteral "default") (EIdentifier (Named "v"))].
Proof. split; [reflexivity|]. simpl. discriminate. Qed.

Lemma transformSourceFile_not_module_witness :
  transformSourceFile exampleContext exampleCollectExternalModuleInfo exampleFlatten
    scriptFile exampleState
  = (Returned scriptFile, exampleState).
Proof.
  apply (transformSourceFile_not_module exampleContext); reflexivity.
Defined.

(** *** The registration call *)

Lemma returnedProperty_setters statements setters execute :
  returnedProperty
    (statements ++
       [ReturnStatement
          (ObjectLiteral [
             PropertyAssignment (IdentifierName "setters") setters;
             PropertyAssignment (IdentifierName "execute") execute])])
    "setters"
  = Some setters.
Proof. unfold returnedProperty. by rewrite last_snoc. Qed.

Section Claims.
Context {LexEnv : Type}.
Variable context : TransformationContext LexEnv.
Variable collectExternalModuleInfo : SourceFile -> ExternalModuleInfo.
Variable flattenVariableDestructuringToExpression :
  VariableDeclaration -> LexEnv -> Expression * LexEnv.

Local Abbreviation transform :=
  (transformSourceFile context collectExternalModuleInfo
     flattenVariableDestructuringToExpression).

(** C7: whenever a module is transformed, the tree is one call of
    [System.register]; its first argument is the string literal of the
    module name when the file has a (non-empty) module name and is absent
    otherwise; its second argument lists the names of the dependency groups
    in group order; and the object that the factory returns has under
    [setters] one setter function per dependency group, in the same order.
    The transform does return when it is entered with no exporter set on a
    module whose export declarations are well formed, whose statements the
    walk goes through without a fault, and whose imports have string
    literals as module specifiers. *)
Theorem transformSourceFile_register_call node (s : EmitState LexEnv) :
  isExternalModule node || isolatedModules context = true →
  (∀ updated s',
     transform node s = (Returned updated, s') →
     ∃ groups moduleNameArgument factory body setters st exportStarFunction,
       collectDependencyGroups (Some node)
         (infoExternalImports (collectExternalModuleInfo node)) = Returned groups
       ∧ registerCallArguments updated
         = Some [moduleNameArgument;
                 ArrayLiteral ((fun group => StringLiteral (groupName group)) <$> groups);
                 factory]
       ∧ (∀ text, moduleNameArgument = StringLiteral text
                  ↔ moduleName node = Some text ∧ text ≠ "")
       ∧ (moduleNameArgument = Absent ↔ truthyString (moduleName node) = false)
       ∧ functionBody factory = Some body
       ∧ returnedProperty body "setters" = Some (ArrayLiteral setters)
       ∧ length setters = length groups
       ∧ exportFunctionForFile st = Some (UniqueName "exports" (nextAutoGenerateId s))
       ∧ Forall2 (isSetterOf st exportStarFunction) groups setters)
  ∧ (exportFunctionForFile (transformState s) = None →
     Forall (fun statement => wellFormedStatement statement = true) (sourceStatements node) →
     Forall (fun statement => walkable statement = true) (sourceStatements node) →
     Forall (fun entry => hasLiteralSpecifier entry = true)
       (infoExternalImports (collectExternalModuleInfo node)) →
     ∃ updated s', transform node s = (Returned updated, s')).
Proof.
  intros Hmodule. split; [|by apply transformSourceFile_returns].
  intros updated s' Hrun.
  destruct (transformSourceFile_returned context collectExternalModuleInfo
              flattenVariableDestructuringToExpression node s updated s' Hmodule Hrun)
    as (_ & groups & executeStatements & s2 & star & setters & st & Hgroups & _ & ->
        & _ & Hexporter & Hsetters).
  eexists groups, _, _, _, setters, st, star.
  split; [exact Hgroups|]. split; [reflexivity|].
  split; [|split; [|split; [reflexivity|split; [|split; [|split; [exact Hexporter|]]]]]].
  - intros text. unfold truthyString. destruct (moduleName node) as [name|]; simpl.
    + destruct (bool_decide (name = "")) eqn:Hempty; simpl.
      * apply bool_decide_eq_true in Hempty as ->. split; [done|].
        by intros [[= <-] ?].
      * apply bool_decide_eq_false in Hempty. split.
        -- by intros [= <-].
        -- by intros [[= <-] _].
    + split; [done|]. by intros [? _].
  - by destruct (truthyString (moduleName node)).
  - rewrite !app_assoc. apply returnedProperty_setters.
  - symmetry. by eapply Forall2_length.
  - exact Hsetters.
Qed.

(** C10: whenever a module is transformed, the body of the factory function
    starts with the prologue directives of the file, and the next statement
    is [var __moduleName = context && context.id], on the identifier that is
    the second parameter of the factory. The transform does return when it
    is entered with no exporter set on a module whose export declarations
    are well formed, whose statements the walk goes through without a fault,
    and whose imports have string literals as module specifiers. *)
Theorem transformSourceFile_moduleName_variable node (s : EmitState LexEnv) :
  isExternalModule node || isolatedModules context = true →
  (∀ updated s',
     transform node s = (Returned updated, s') →
     ∃ moduleNameArgument dependencies exporter contextObject rest,
       registerCallArguments updated
       = Some [moduleNameArgument; dependencies;
               FunctionExpression None None
                 [NamedParameter exporter; NamedParameter (Some contextObject)]
                 (Block
                    (prologueDirectives (sourceStatements node) ++
                     VariableStatement []
                       [mkVariableDeclaration (BindingIdentifier (Named "__moduleName"))
                          (Some (Binary (EIdentifier contextObject) AmpersandAmpersandToken
                                   (PropertyAccess (EIdentifier contextObject) "id")))]
                     :: rest))])
  ∧ (exportFunctionForFile (transformState s) = None →
     Forall (fun statement => wellFormedStatement statement = true) (sourceStatements node) →
     Forall (fun statement => walkable statement = true) (sourceStatements node) →
     Forall (fun entry => hasLiteralSpecifier entry = true)
       (infoExternalImports (collectExternalModuleInfo node)) →
     ∃ updated s', transform node s = (Returned updated, s')).
Proof.
  intros Hmodule. split; [|by apply transformSourceFile_returns].
  intros updated s' Hrun.
  destruct (transformSourceFile_returned context collectExternalModuleInfo
              flattenVariableDestructuringToExpression node s updated s' Hmodule Hrun)
    as (_ & groups & executeStatements & s2 & star & setters & st & _ & _ & -> & _).
  eexists _, _, _, _, _. reflexivity.
Qed.

(** C8: when [transformSourceFile] returns the output of an external-module
    file, each of the nine per-file variables is back to [undefined]
    ([false] for the export-star flag), and it does return from a state with
    no exporter set on a well-formed file whose statements the walk goes
    through without a fault; entered while an exporter is still set, it
    fails the assertion of the worker and the exporter stays set. *)
Theorem transformSourceFile_resets_state node (s : EmitState LexEnv) :
  isExternalModule node || isolatedModules context = true →
  (exportFunctionForFile (transformState s) = None →
   Forall (fun statement => wellFormedStatement statement = true) (sourceStatements node) →
   Forall (fun statement => walkable statement = true) (sourceStatements node) →
   Forall (fun entry => hasLiteralSpecifier entry = true)
     (infoExternalImports (collectExternalModuleInfo node)) →
   ∃ updated s',
     transform node s = (Returned updated, s')
     ∧ transformState s' = clearedTransformState)
  ∧ (∀ updated s',
       transform node s = (Returned updated, s') →
       transformState s'
       = {| currentSourceFile := None; externalImports := None; exportSpecifiers := None;
            exportEquals := None; hasExportStars := Some false;
            exportFunctionForFile := None; contextObjectForFile := None;
            exportedLocalNames := None; exportedFunctionDeclarations := None |})
  ∧ (is_Some (exportFunctionForFile (transformState s)) →
     ∃ s',
       transform node s = (Threw AssertionFailure, s')
       ∧ exportFunctionForFile (transformState s')
         = exportFunctionForFile (transformState s)).
Proof.
  intros Hmodule. split; [|split].
  - intros Hclean Hwf Hwalk Hliteral.
    destruct (transformSourceFile_returns context collectExternalModuleInfo
                flattenVariableDestructuringToExpression
                node s Hmodule Hclean Hwf Hwalk Hliteral)
      as (updated & s' & Hrun).
    exists updated, s'. split; [exact Hrun|].
    by apply (transformSourceFile_clears context collectExternalModuleInfo
                flattenVariableDestructuringToExpression
                node s updated s' Hmodule Hrun).
  - intros updated s' Hrun.
    by apply (transformSourceFile_clears context collectExternalModuleInfo
                flattenVariableDestructuringToExpression
                node s updated s' Hmodule Hrun).
  - intros Hset. eexists. split.
    + by apply transformSourceFile_asserts.
    + reflexivity.
Qed.

End Claims.

Lemma transformSourceFile_register_call_witness :
  ∃ updated s' groups moduleNameArgument factory body setters st exportStarFunction,
    transformSourceFile exampleContext exampleCollectExternalModuleInfo exampleFlatten
      importingFile exampleState
    = (Returned updated, s')
    ∧ collectDependencyGroups (Some importingFile)
        (infoExternalImports (exampleCollectExternalModuleInfo importingFile))
      = Returned groups
    ∧ registerCallArguments updated
      = Some [moduleNameArgument;
              ArrayLiteral ((fun group => StringLiteral (groupName group)) <$> groups);
              factory]
    ∧ (∀ text, moduleNameArgument = StringLiteral text
               ↔ moduleName importingFile = Some text ∧ text ≠ "")
    ∧ (moduleNameArgument = Absent ↔ truthyString (moduleName importingFile) = false)
    ∧ functionBody factory = Some body
    ∧ returnedProperty body "setters" = Some (ArrayLiteral setters)
    ∧ length setters = length groups
    ∧ exportFunctionForFile st
      = Some (UniqueName "exports" (nextAutoGenerateId exampleState))
    ∧ Forall2 (isSetterOf st exportStarFunction) groups setters.
Proof.
  destruct (transformSourceFile_register_call exampleContext
              exampleCollectExternalModuleInfo exampleFlatten importingFile exampleState
              eq_refl) as [Hshape Hreturns].
  destruct Hreturns as (updated & s' & Hrun);
    [reflexivity | repeat constructor | repeat constructor | repeat constructor |].
  destruct (Hshape updated s' Hrun)
    as (groups & moduleNameArgument & factory & body & setters & st & star & Hrest).
  exists updated, s', groups, moduleNameArgument, factory, body, setters, st, star.
  split; [exact Hrun|exact Hrest].
Defined.

Lemma transformSourceFile_moduleName_variable_witness :
  ∃ updated s' moduleNameArgument dependencies exporter contextObject rest,
    transformSourceFile exampleContext exampleCollectExternalModuleInfo exampleFlatten
      importingFile exampleState
    = (Returned updated, s')
    ∧ registerCallArguments updated
      = Some [moduleNameArgument; dependencies;
              FunctionExpression None None
                [NamedParameter exporter; NamedParameter (Some contextObject)]
                (Block
                   (prologueDirectives (sourceStatements importingFile) ++
                    VariableStatement []
                      [mkVariableDeclaration (BindingIdentifier (Named "__moduleName"))
                         (Some (Binary (EIdentifier contextObject) AmpersandAmpersandToken
                                  (PropertyAccess (EIdentifier contextObject) "id")))]
                    :: rest))].
Proof.
  destruct (transformSourceFile_moduleName_variable exampleContext
              exampleCollectExternalModuleInfo exampleFlatten importingFile exampleState
              eq_refl) as [Hshape Hreturns].
  destruct Hreturns as (updated & s' & Hrun);
    [reflexivity | repeat constructor | repeat constructor | repeat constructor |].
  destruct (Hshape updated s' Hrun)
    as (moduleNameArgument & dependencies & exporter & contextObject & rest & Hrest).
  exists updated, s', moduleNameArgument, dependencies, exporter, contextObject, rest.
  split; [exact Hrun|exact Hrest].
Defined.

Lemma transformSourceFile_resets_state_witness :
  (∃ updated s',
     transformSourceFile exampleContext exampleCollectExternalModuleInfo exampleFlatten
       importingFile exampleState
     = (Returned updated, s')
     ∧ transformState s' = clearedTransformState)
  ∧ (∃ s',
       transformSourceFile exampleContext exampleCollectExternalModuleInfo exampleFlatten
         importingFile exampleRunningState
       = (Threw AssertionFailure, s')
       ∧ exportFunctionForFile (transformState s')
         = exportFunctionForFile (transformState exampleRunningState)).
Proof.
  split.
  - apply (transformSourceFile_resets_state exampleContext exampleCollectExternalModuleInfo
             exampleFlatten importingFile exampleState eq_refl);
      [reflexivity | repeat constructor | repeat constructor | repeat constructor].
  - apply (transformSourceFile_resets_state exampleContext exampleCollectExternalModuleInfo
             exampleFlatten importingFile exampleRunningState eq_refl).
    by eexists.
Defined.

(** *** The export-star helper is always emitted; default functions *)

(** Every module that is transformed gets the helper, with or without
    [export *]. *)
Lemma transformSourceFile_adds_helper {LexEnv : Type} (context : TransformationContext LexEnv)
    collectExternalModuleInfo flattenVariableDestructuringToExpression node
    (s : EmitState LexEnv) updated s' :
  isExternalModule node || isolatedModules context = true →
  transformSourceFile context collectExternalModuleInfo
    flattenVariableDestructuringToExpression node s
  = (Returned updated, s') →
  ∃ arguments factory body,
    registerCallArguments updated = Some arguments
    ∧ arguments !! 2%nat = Some factory
    ∧ functionBody factory = Some body
    ∧ existsb isExportStarHelper body = true.
Proof.
  intros Hmodule Hrun.
  destruct (transformSourceFile_returned context collectExternalModuleInfo
              flattenVariableDestructuringToExpression node s updated s' Hmodule Hrun)
    as (_ & groups & executeStatements & s2 & star & setters & st & _ & _ & -> & _).
  eexists _, _, _. do 3 (split; [reflexivity|]).
  rewrite !existsb_app, exportStarStatements_helper. simpl.
  by rewrite !orb_true_r.
Qed.

(** C3, where the code departs from it: [export var x = 1;] has no
    [export * from ...], and the factory body of its transform holds the
    export-star helper all the same (with its exclusion map). *)
Theorem exportStar_helper_without_export_star :
  infoHasExportStars (exampleCollectExternalModuleInfo exportedVariableFile) = false
  ∧ existsb isExportStar
      (infoExternalImports (exampleCollectExternalModuleInfo exportedVariableFile)) = false
  ∧ (updated ← returnedValue
                 (transformSourceFile exampleContext exampleCollectExternalModuleInfo
                    exampleFlatten exportedVariableFile exampleState);
     body ← factoryBody updated;
     Some (List.filter isExportStarHelper body))
    = Some [exportStarFunctionDeclaration
              (setExportFunctionForFile (Some (UniqueName "exports" 1))
                 initialTransformState)
              (UniqueName "exportStar" 4) (Some (UniqueName "exportedNames" 3))].
Proof. split; [reflexivity|]. split; [reflexivity|]. vm_compute. reflexivity. Qed.

(** C4, where the code departs from it: for [export default function f() {}]
    the name [f] is recorded among the exported local names and the queued
    export is [exporter("f", f)], not [exporter("default", f)]; the check for
    the [default] modifier is made on the rebuilt declaration, which has no
    modifiers. The class path, which checks the original node, records
    nothing and exports under ["default"]. *)
Theorem visitFunctionDeclaration_default_export :
  hasModifier (declarationModifiers defaultFunction) Default = true
  ∧ (let s' := (visitFunctionDeclaration exampleContext defaultFunction
                  exampleRunningState).2 in
     exportedLocalNames (transformState s') = Some [Named "f"]
     ∧ exportedFunctionDeclarations (transformState s')
       = Some [ExpressionStatement
                 (Call (EIdentifier (UniqueName "exports" 1))
                    [StringLiteral "f"; EIdentifier (Named "f")])])
  ∧ visitClassDeclaration exampleContext defaultClass exampleRunningState
    = (Returned
         [ExpressionStatement
            (Binary (EIdentifier (Named "C")) EqualsToken
               (ClassExpression (Some (Named "C")) 0 0));
          ExpressionStatement
            (Call (EIdentifier (UniqueName "exports" 1))
               [StringLiteral "default"; EIdentifier (Named "C")])],
       {| transformState := exampleTransformState;
          nextAutoGenerateId := 2;
          lexicalEnvironment := ([Named "C"], []) |}).
Proof. split; [reflexivity|]. split; [split; vm_compute; reflexivity|vm_compute; reflexivity]. Qed.

(** An exported function declaration, default or not, is recorded under its
    own name. *)
Lemma visitFunctionDeclaration_exported {LexEnv : Type}
    (context : TransformationContext LexEnv) id modifiers asteriskToken name parameters body
    (s : EmitState LexEnv) :
  hasModifier modifiers Export = true →
  ∃ s',
    visitFunctionDeclaration context
      (FunctionDeclaration id modifiers asteriskToken (Some name) parameters body) s
    = (Returned [], s')
    ∧ exportedLocalNames (transformState s')
      = Some (default [] (exportedLocalNames (transformState s)) ++ [name])
    ∧ exportedFunctionDeclarations (transformState s')
      = Some (default [] (exportedFunctionDeclarations (transformState s)) ++
              [ExpressionStatement
                 (Call (identifierOrAbsent (exportFunctionForFile (transformState s)))
                    [StringLiteral (identifierText name); EIdentifier name])]).
Proof.
  intros Hexported. unfold visitFunctionDeclaration. rewrite Hexported.
  eexists. split; [reflexivity|]. split; reflexivity.
Qed.

Lemma setProperty_keys properties key value k :
  k ∈ (setProperty properties key value).*1 ↔ k = key ∨ k ∈ properties.*1.
Proof.
  induction properties as [|[k' v'] properties IH]; simpl.
  - rewrite elem_of_cons, elem_of_nil. naive_solver.
  - destruct (decide (key = k')) as [->|Hne]; simpl; rewrite !elem_of_cons.
    + naive_solver.
    + rewrite IH. naive_solver.
Qed.

Lemma evaluateProperties_exportedNames names : ∀ acc rt,
  ∃ properties,
    evaluateProperties evaluate (exportedNameProperty <$> names) acc rt
    = Some (VObject properties, rt)
    ∧ ∀ key, key ∈ properties.*1 ↔ key ∈ acc.*1 ∨ key ∈ names.
Proof.
  induction names as [|name names IH]; intros acc rt.
  - exists acc. split; [done|]. intros key. rewrite elem_of_nil. naive_solver.
  - destruct (IH (setProperty acc name (VBoolean true)) rt) as (properties & Hrun & Hkeys).
    exists properties. rewrite fmap_cons. cbn [evaluateProperties exportedNameProperty
      createPropertyAssignment createBooleanLiteral evaluate propertyNameText].
    rewrite Hrun. split; [done|]. intros key.
    rewrite Hkeys, setProperty_keys, elem_of_cons. naive_solver.
Qed.

(** The exclusion map that [addExportStarIfNeeded] emits holds, once
    evaluated, exactly the exported local names and the names re-exported
    through export clauses. *)
Lemma exportedNames_literal_keys st imports rt :
  ∃ properties,
    evaluate (createObjectLiteral (exportedNameProperty <$> exportedNamesOf st imports)) rt
    = Some (VObject properties, rt)
    ∧ ∀ key, key ∈ properties.*1 ↔ key ∈ exportedNamesOf st imports.
Proof.
  destruct (evaluateProperties_exportedNames (exportedNamesOf st imports) [] rt)
    as (properties & Hrun & Hkeys).
  exists properties. split; [exact Hrun|]. intros key. rewrite Hkeys, elem_of_nil.
  naive_solver.
Qed.

(** Star precedence: with [export var a] and [export * from "m"], the emitted
    map and helper, run on a namespace that holds [a], [b] and [default],
    hand only [b] to the exporter. *)
Example star_precedence_example :
  match returnedValue (addExportStarIfNeeded [] exampleStarState) with
  | Some ([mapStatement; helper], _) =>
      rt ← execute mapStatement
             {| scopes := [[(UniqueName "exports" 1, VExporter)]]; trace := [] |};
      trace <$> callFunction helper [VObject exampleNamespace] rt
  | _ => None
  end
  = Some [[VObject [("b", VNumber 2)]]].
Proof. vm_compute. reflexivity. Qed.

(** *** What the export-star helper copies *)

Lemma getProperty_app_fresh seen key value rest :
  key ∉ seen.*1 → getProperty (seen ++ (key, value) :: rest) key = value.
Proof.
  induction seen as [|[k v] seen IH]; simpl; intros Hfresh.
  - by rewrite decide_True.
  - apply not_elem_of_cons in Hfresh as [Hne Hfresh].
    rewrite decide_False by done. auto.
Qed.

Lemma setProperty_fresh properties key value :
  key ∉ properties.*1 → setProperty properties key value = properties ++ [(key, value)].
Proof.
  induction properties as [|[k v] properties IH]; simpl; intros Hfresh; [done|].
  apply not_elem_of_cons in Hfresh as [Hne Hfresh].
  rewrite decide_False by done. by rewrite IH.
Qed.

Lemma starExports_keys excluded namespace key :
  key ∈ (starExports excluded namespace).*1 → key ∈ namespace.*1.
Proof.
  intros Hin. apply list_elem_of_fmap in Hin as ([k v] & -> & Hin).
  apply list_elem_of_filter in Hin as [_ Hin].
  apply list_elem_of_fmap. by exists (k, v).
Qed.

Lemma starExports_snoc excluded seen key value :
  starExports excluded (seen ++ [(key, value)])
  = starExports excluded seen ++ (if keepsKey excluded key then [(key, value)] else []).
Proof.
  unfold starExports. rewrite filter_app. f_equal.
  destruct (keepsKey excluded key) eqn:Hkeep.
  - by rewrite filter_cons_True.
  - rewrite filter_cons_False; [done|]. simpl. by rewrite Hkeep.
Qed.

Lemma lookupScope_helper x a b c :
  x ∉ [Named "m"; Named "exports"; Named "n"] →
  lookupScope x [(Named "m", a); (Named "exports", b); (Named "n", c)] = None.
Proof.
  intros Hfresh. simpl.
  rewrite !not_elem_of_cons in Hfresh. destruct Hfresh as (?&?&?&_).
  by rewrite !decide_False.
Qed.

Section Helper.
Variable st : TransformState.
Variable exportStarFunction : Identifier.
Variable localNames : option Identifier.
Variable excluded : option (list (string * Value)).
Variable outer : list (list (Identifier * Value)).
Hypothesis Hmap : bindsExclusionMap localNames excluded outer.

(** The test of the helper on one key. *)
Lemma exportStarCondition_keepsKey namespace copied key calls :
  ∃ v,
    evaluate (exportStarCondition localNames)
      (helperRuntime namespace copied (VString key) outer calls)
    = Some (v, helperRuntime namespace copied (VString key) outer calls)
    ∧ truthy v = keepsKey excluded key.
Proof.
  unfold exportStarCondition, keepsKey, bindsExclusionMap in *.
  destruct localNames as [names|], excluded as [properties|]; try done.
  - destruct Hmap as [Hbound Hfresh].
    destruct (bool_decide (key = "default")) eqn:Hdefault.
    + eexists. simpl. rewrite Hdefault. simpl. done.
    + eexists. simpl. rewrite Hdefault. simpl.
      unfold lookupVariable. simpl.
      pose proof (lookupScope_helper names (VObject namespace) (VObject copied)
                    (VString key) Hfresh) as Hinner.
      simpl in Hinner. rewrite Hinner, Hbound. simpl. done.
  - eexists. simpl. split; [done|]. simpl. by rewrite andb_true_r.
Qed.

Lemma helperLoop_returns namespace calls : ∀ remaining seen n,
  namespace = seen ++ remaining →
  NoDup namespace.*1 →
  ∃ n',
    forEachKey (execute (helperLoopBody localNames)) (Named "n") remaining.*1
      (helperRuntime namespace (starExports excluded seen) n outer calls)
    = Some (helperRuntime namespace (starExports excluded (seen ++ remaining)) n' outer calls).
Proof.
  induction remaining as [|[key value] remaining IH]; intros seen n Hsplit Hnodup.
  - exists n. by rewrite app_nil_r.
  - assert (key ∉ seen.*1) as Hfresh.
    { rewrite Hsplit, fmap_app in Hnodup. apply NoDup_app in Hnodup as (_ & Hdisjoint & _).
      intros Hin. apply (Hdisjoint key Hin). simpl. apply list_elem_of_here. }
    destruct (IH (seen ++ [(key, value)]) (VString key)) as [n' Hrest];
      [by rewrite <- app_assoc | done |].
    exists n'. rewrite <- app_assoc in Hrest. simpl in Hrest.
    rewrite fmap_cons. cbn [forEachKey fst].
    replace (assignVariable (Named "n") (VString key)
               (helperRuntime namespace (starExports excluded seen) n outer calls))
      with (Some (helperRuntime namespace (starExports excluded seen) (VString key)
                    outer calls)) by done.
    destruct (exportStarCondition_keepsKey namespace (starExports excluded seen) key calls)
      as (v & Hcondition & Htruthy).
    assert (execute (helperLoopBody localNames)
              (helperRuntime namespace (starExports excluded seen) (VString key) outer calls)
            = Some (helperRuntime namespace
                      (starExports excluded (seen ++ [(key, value)]))
                      (VString key) outer calls)) as ->; [|exact Hrest].
    unfold helperLoopBody, createBlock, createIf. cbn [execute executeAll].
    rewrite Hcondition, Htruthy, starExports_snoc.
    destruct (keepsKey excluded key); [|by rewrite app_nil_r].
    simpl. unfold lookupVariable. simpl.
    rewrite Hsplit, (getProperty_app_fresh seen key value remaining Hfresh).
    rewrite setProperty_fresh; [done|].
    intros Hin. by apply Hfresh, (starExports_keys excluded).
Qed.

Lemma exportStarFunctionDeclaration_copies exporter namespace calls :
  exportFunctionForFile st = Some exporter →
  exporter ∉ [Named "m"; Named "exports"; Named "n"] →
  lookupScopes exporter outer = Some VExporter →
  NoDup namespace.*1 →
  callFunction (exportStarFunctionDeclaration st exportStarFunction localNames)
    [VObject namespace] {| scopes := outer; trace := calls |}
  = Some {| scopes := outer;
            trace := calls ++ [[VObject (starExports excluded namespace)]] |}.
Proof.
  intros Hexporter Hfresh Hbound Hnodup.
  unfold exportStarFunctionDeclaration, createFunctionDeclaration, callFunction.
  rewrite Hexporter. cbn [bindParameters createParameter mbind option_bind head tail default].
  unfold createBlock at 1. cbn [execute executeAll].
  cbn [createVariableStatement createVariableDeclarationList createVariableDeclaration
       createObjectLiteral execute evaluate evaluateProperties].
  unfold declare at 1. cbn [scopes trace declareVariable lookupScope].
  rewrite decide_False by done. cbn [default app].
  unfold createForIn, createVariableDeclarationList, createVariableDeclaration.
  cbn [execute evaluate].
  unfold lookupVariable at 1. cbn [scopes lookupScopes lookupScope].
  rewrite decide_True by done. cbn [mbind option_bind].
  unfold declare at 1. cbn [scopes trace declareVariable lookupScope].
  rewrite !decide_False by done. cbn [default app].
  destruct (helperLoop_returns namespace calls namespace [] VUndefined eq_refl Hnodup)
    as [n' Hloop].
  unfold id. cbv beta iota.
  change (forEachKey _ _ _ _) with
    (forEachKey (execute (helperLoopBody localNames)) (Named "n") namespace.*1
       (helperRuntime namespace (starExports excluded []) VUndefined outer calls)).
  rewrite Hloop. cbn [app].
  unfold createStatement, createCall, identifierOrAbsent. cbn [execute evaluate].
  unfold lookupVariable. cbn [helperRuntime scopes lookupScopes].
  rewrite (lookupScope_helper exporter _ _ _ Hfresh), Hbound.
  simpl. done.
Qed.

End Helper.



(** *** Hoisting the names of a declaration *)

(** *** The registries only grow during the walk *)

Section Registries.
Context {LexEnv : Type}.
Variable context : TransformationContext LexEnv.
Variable flattenVariableDestructuringToExpression :
  VariableDeclaration -> LexEnv -> Expression * LexEnv.

Local Abbreviation visit :=
  (visitSourceElement context flattenVariableDestructuringToExpression).


End Registries.

(** *** The layout of the factory body *)

Section Factory.
Context {LexEnv : Type}.
Variable context : TransformationContext LexEnv.
Variable collectExternalModuleInfo : SourceFile -> ExternalModuleInfo.
Variable flattenVariableDestructuringToExpression :
  VariableDeclaration -> LexEnv -> Expression * LexEnv.

Local Abbreviation visit :=
  (visitSourceElement context flattenVariableDestructuringToExpression).
Local Abbreviation transform :=
  (transformSourceFile context collectExternalModuleInfo
     flattenVariableDestructuringToExpression).

(** X5: whenever a module is transformed, the body of the factory function
    is, in this order: the prologue directives of the file, the
    [__moduleName] variable, the declarations that the lexical environment
    hands back when it is ended after the walk, the exporter calls queued for
    exported functions, the export-star helper (preceded by its exclusion map
    when there is one), and the [return] of the object with [setters] and
    [execute]; the body of [execute] is what the walk over the statements
    after the prologue returned. The transform does return when it is
    entered with no exporter set on a module whose export declarations are
    well formed, whose statements the walk goes through without a fault, and
    whose imports have string literals as module specifiers. *)
Theorem transformSourceFile_factory_body_layout node (s : EmitState LexEnv) :
  isExternalModule node || isolatedModules context = true →
  (∀ updated s',
     transform node s = (Returned updated, s') →
     ∃ executeStatements s2 setters,
       visitNodes (sourceStatements node) visit
         (length (prologueDirectives (sourceStatements node)))
         (walkState context collectExternalModuleInfo node s)
       = (Returned executeStatements, s2)
       ∧ factoryBody updated
         = Some (prologueDirectives (sourceStatements node)
                 ++ [moduleNameVariable
                       (Some (UniqueName "context" (S (nextAutoGenerateId s))))]
                 ++ (endLexicalEnvironment context (lexicalEnvironment s2)).1
                 ++ default [] (exportedFunctionDeclarations (transformState s2))
                 ++ exportStarStatements (transformState s2)
                      (infoExternalImports (collectExternalModuleInfo node))
                      (S (S (nextAutoGenerateId s)))
                 ++ [ReturnStatement
                       (ObjectLiteral [
                          PropertyAssignment (IdentifierName "setters")
                            (ArrayLiteral setters);
                          PropertyAssignment (IdentifierName "execute")
                            (FunctionExpression (Some (fileId node)) None []
                               (Block executeStatements))])]))
  ∧ (exportFunctionForFile (transformState s) = None →
     Forall (fun statement => wellFormedStatement statement = true) (sourceStatements node) →
     Forall (fun statement => walkable statement = true) (sourceStatements node) →
     Forall (fun entry => hasLiteralSpecifier entry = true)
       (infoExternalImports (collectExternalModuleInfo node)) →
     ∃ updated s', transform node s = (Returned updated, s')).
Proof.
  intros Hmodule. split; [|by apply transformSourceFile_returns].
  intros updated s' Hrun.
  destruct (transformSourceFile_returned context collectExternalModuleInfo
              flattenVariableDestructuringToExpression node s updated s' Hmodule Hrun)
    as (_ & groups & executeStatements & s2 & star & setters & st & _ & Hvisit & -> & _).
  exists executeStatements, s2, setters. split; [exact Hvisit|].
  unfold factoryBody, systemRegisterCall. simpl. by rewrite <- !app_assoc.
Qed.

Lemma visitFunctionDeclaration_queues id modifiers asteriskToken name parameters body
    (s : EmitState LexEnv) :
  hasModifier modifiers Export = true →
  ∃ s',
    visit (FunctionDeclaration id modifiers asteriskToken name parameters body) s
    = (Returned [], s')
    ∧ queuedFunctionExport (exportFunctionForFile (transformState s)) id name
      ∈ default [] (exportedFunctionDeclarations (transformState s')).
Proof.
  intros Hexported. unfold visitSourceElement, visitNestedNode, visitFunctionDeclaration.
  rewrite Hexported. eexists. split; [reflexivity|]. simpl.
  apply elem_of_app. right. apply list_elem_of_here.
Qed.

(** When the walk over [nodes] returns, the export of each exported function
    declaration among them has been queued. *)
Lemma mapM_visit_queues nodes : ∀ (s : EmitState LexEnv) results s',
  mapM visit nodes s = (Returned results, s') →
  ∀ id modifiers asteriskToken name parameters body,
    FunctionDeclaration id modifiers asteriskToken name parameters body ∈ nodes →
    hasModifier modifiers Export = true →
    queuedFunctionExport (exportFunctionForFile (transformState s)) id name
    ∈ default [] (exportedFunctionDeclarations (transformState s')).
Proof.
  induction nodes as [|node nodes IH]; intros s results s' Hrun
    id modifiers asteriskToken name parameters body Hin Hexported.
  - by apply elem_of_nil in Hin.
  - simpl in Hrun. apply bind_returned_inv in Hrun as (result & s1 & Hnode & Hrun).
    apply bind_returned_inv in Hrun as (rest & s2 & Hrest & Hrun).
    injection Hrun as _ <-.
    pose proof (keeps_visitSourceElement context flattenVariableDestructuringToExpression
                  node s) as (_ & _ & Hgrow).
    pose proof (keeps_mapM_visit context flattenVariableDestructuringToExpression
                  nodes s1) as (_ & _ & Hgrow').
    rewrite Hnode in Hgrow. rewrite Hrest in Hgrow'. simpl in Hgrow, Hgrow'.
    apply elem_of_cons in Hin as [<-|Hin].
    + destruct (visitFunctionDeclaration_queues id modifiers asteriskToken name parameters
                  body s Hexported) as (s1' & Hrun1 & Hin).
      rewrite Hnode in Hrun1. injection Hrun1 as _ <-.
      destruct Hgrow' as (_ & _ & [exports ->]). apply elem_of_app. by left.
    + destruct Hgrow as ((_&_&_&_&_&Hexporter&_) & _). rewrite <- Hexporter.
      by eapply IH.
Qed.

(** X6: whenever a module is transformed, then for every function
    declaration with the [export] modifier among its top-level statements
    the body of the factory function (not the body of [execute]) holds an
    exporter call on the exporter of the file, so the function is published
    before [execute] runs: [exporter("f", f)] for a function named [f], and
    for a declaration without a name the call has the empty string as key
    and the name generated for the declaration as value. The transform does
    return when it is entered with no exporter set on a module whose export
    declarations are well formed, whose statements the walk goes through
    without a fault, and whose imports have string literals as module
    specifiers. *)
Theorem transformSourceFile_exported_function_published node (s : EmitState LexEnv)
    id modifiers asteriskToken name parameters body :
  isExternalModule node || isolatedModules context = true →
  FunctionDeclaration id modifiers asteriskToken name parameters body
    ∈ sourceStatements node →
  hasModifier modifiers Export = true →
  (∀ updated s',
     transform node s = (Returned updated, s') →
     ∃ factory,
       factoryBody updated = Some factory
       ∧ ExpressionStatement
           (Call (EIdentifier (UniqueName "exports" (nextAutoGenerateId s)))
              [StringLiteral (identifierText (default (GeneratedNameForNode id) name));
               EIdentifier (default (GeneratedNameForNode id) name)])
         ∈ factory)
  ∧ identifierText (GeneratedNameForNode id) = ""
  ∧ (exportFunctionForFile (transformState s) = None →
     Forall (fun statement => wellFormedStatement statement = true) (sourceStatements node) →
     Forall (fun statement => walkable statement = true) (sourceStatements node) →
     Forall (fun entry => hasLiteralSpecifier entry = true)
       (infoExternalImports (collectExternalModuleInfo node)) →
     ∃ updated s', transform node s = (Returned updated, s')).
Proof.
  intros Hmodule Hin Hexported.
  split; [|split; [reflexivity|by apply transformSourceFile_returns]].
  intros updated s' Hrun.
  destruct (transformSourceFile_returned context collectExternalModuleInfo
              flattenVariableDestructuringToExpression node s updated s' Hmodule Hrun)
    as (_ & groups & executeStatements & s2 & star & setters & st & _ & Hvisit & -> & _).
  unfold visitNodes in Hvisit.
  apply bind_returned_inv in Hvisit as (results & s2' & Hwalk & Hvisit).
  injection Hvisit as _ <-.
  pose proof (mapM_visit_queues _ _ _ _ Hwalk id modifiers asteriskToken name parameters body
                (elem_of_drop_prologueDirectives _ _ Hin eq_refl) Hexported) as Hqueued.
  eexists. split; [reflexivity|].
  rewrite !elem_of_app. right. right. left. right. left. exact Hqueued.
Qed.

Lemma mapM_visit_plain nodes (s : EmitState LexEnv) :
  Forall (fun node => isPlainStatement node = true) nodes →
  mapM visit nodes s = (Returned ((fun node => [node]) <$> nodes), s).
Proof.
  induction 1 as [|node nodes Hnode _ IH]; [done|]. simpl.
  assert (visit node s = (Returned [node], s)) as Hrun.
  { destruct node; try done. }
  rewrite (bind_returned _ _ _ _ _ Hrun), (bind_returned _ _ _ _ _ IH). done.
Qed.

Lemma concat_singletons {A : Type} (l : list A) : concat ((fun x => [x]) <$> l) = l.
Proof. induction l as [|x l IH]; [done|]. rewrite fmap_cons. simpl. by f_equal. Qed.

(** X7: the walk has no case for expression statements, [return], [if] and
    the statement kinds it does not name, and it does not look into them: a
    module made of such statements alone has them moved, as they are and in
    order, into the body of [execute] (after the prologue directives, which
    stay in the factory body), whatever is nested in them; the walk hoists
    nothing and queues no export. *)
Theorem transformSourceFile_plain_statements node (s : EmitState LexEnv) :
  isExternalModule node || isolatedModules context = true →
  exportFunctionForFile (transformState s) = None →
  Forall (fun statement => isPlainStatement statement = true) (sourceStatements node) →
  Forall (fun entry => hasLiteralSpecifier entry = true)
    (infoExternalImports (collectExternalModuleInfo node)) →
  ∃ updated s' setters,
    transform node s = (Returned updated, s')
    ∧ factoryBody updated
      = Some (prologueDirectives (sourceStatements node)
              ++ [moduleNameVariable (Some (UniqueName "context" (S (nextAutoGenerateId s))))]
              ++ (endLexicalEnvironment context
                    (startLexicalEnvironment context (lexicalEnvironment s))).1
              ++ default [] (exportedFunctionDeclarations (transformState s))
              ++ exportStarStatements
                   (transformState (walkState context collectExternalModuleInfo node s))
                   (infoExternalImports (collectExternalModuleInfo node))
                   (S (S (nextAutoGenerateId s)))
              ++ [ReturnStatement
                    (ObjectLiteral [
                       PropertyAssignment (IdentifierName "setters") (ArrayLiteral setters);
                       PropertyAssignment (IdentifierName "execute")
                         (FunctionExpression (Some (fileId node)) None []
                            (Block
                               (drop (length (prologueDirectives (sourceStatements node)))
                                  (sourceStatements node))))])]).
Proof.
  intros Hmodule Hclean Hplain Hliteral.
  pose proof (transformSourceFile_run context collectExternalModuleInfo
                flattenVariableDestructuringToExpression node s Hmodule Hclean) as Hrun.
  destruct (collectDependencyGroups_returns node _ Hliteral) as (groups & Hgroups & _).
  rewrite Hgroups in Hrun. unfold visitNodes in Hrun.
  rewrite (bind_returned _ _ _ _ _
             (mapM_visit_plain _ (walkState context collectExternalModuleInfo node s)
                (Forall_drop _ _ _ Hplain))) in Hrun.
  cbn [ret] in Hrun. rewrite concat_singletons in Hrun.
  destruct Hrun as (star & setters & st & s' & Hrun & _).
  eexists _, s', setters. split; [exact Hrun|].
  unfold factoryBody, systemRegisterCall. simpl. by rewrite <- !app_assoc.
Qed.

End Factory.

(** *** Faults and what they leave behind *)

Section Faults.
Context {LexEnv : Type}.
Variable context : TransformationContext LexEnv.
Variable collectExternalModuleInfo : SourceFile -> ExternalModuleInfo.
Variable flattenVariableDestructuringToExpression :
  VariableDeclaration -> LexEnv -> Expression * LexEnv.

Local Abbreviation visit :=
  (visitSourceElement context flattenVariableDestructuringToExpression).
Local Abbreviation transform :=
  (transformSourceFile context collectExternalModuleInfo
     flattenVariableDestructuringToExpression).

(** X9: when a module has an external import whose specifier is not a string
    literal, or an export declaration with neither clause nor module
    specifier, [transformSourceFile] throws a [TypeError] and skips its
    reset: the exporter of the failed file stays set. From then on every
    module handed to the same transformer fails the assertion of the worker,
    and the exporter is still the one of the failed file. *)
Theorem transformSourceFile_fault_stays node (s : EmitState LexEnv) :
  isExternalModule node || isolatedModules context = true →
  exportFunctionForFile (transformState s) = None →
  Exists (fun statement => wellFormedStatement statement = false) (sourceStatements node)
  ∨ Exists (fun entry => hasLiteralSpecifier entry = false)
      (infoExternalImports (collectExternalModuleInfo node)) →
  ∃ s1,
    transform node s = (Threw TypeError, s1)
    ∧ exportFunctionForFile (transformState s1)
      = Some (UniqueName "exports" (nextAutoGenerateId s))
    ∧ ∀ next,
        isExternalModule next || isolatedModules context = true →
        ∃ s2,
          transform next s1 = (Threw AssertionFailure, s2)
          ∧ exportFunctionForFile (transformState s2)
            = Some (UniqueName "exports" (nextAutoGenerateId s)).
Proof.
  intros Hmodule Hclean Hfault.
  destruct (transformSourceFile_throws context collectExternalModuleInfo
              flattenVariableDestructuringToExpression node s Hmodule Hclean Hfault)
    as (s1 & Hthrow & Hexporter).
  exists s1. split; [exact Hthrow|]. split; [exact Hexporter|].
  intros next Hnext. eexists. split.
  - apply transformSourceFile_asserts; [exact Hnext|]. rewrite Hexporter. by eexists.
  - simpl. exact Hexporter.
Qed.


End Faults.

(** *** Star precedence, from the emitted statements to the exporter *)

Lemma lookupScope_app_fresh x v scope :
  lookupScope x scope = None → lookupScope x (scope ++ [(x, v)]) = Some v.
Proof.
  induction scope as [|[y w] scope IH]; simpl.
  - by rewrite decide_True.
  - destruct (decide (x = y)); [done|auto].
Qed.

Lemma lookupScope_app_ne x y v scope :
  y ≠ x → lookupScope y (scope ++ [(x, v)]) = lookupScope y scope.
Proof.
  intros Hne. induction scope as [|[z w] scope IH]; simpl.
  - by rewrite decide_False.
  - destruct (decide (y = z)); [done|auto].
Qed.

Lemma lookupScopes_declareVariable_eq x v scopes :
  lookupScopes x (declareVariable x (Some v) scopes) = Some v.
Proof.
  destruct scopes as [|scope outer]; simpl.
  - by rewrite decide_True.
  - destruct (lookupScope x scope) as [w|] eqn:Hscope; simpl.
    + by rewrite (lookupScope_updateScope_eq _ _ w).
    + by rewrite lookupScope_app_fresh.
Qed.

Lemma lookupScopes_declareVariable_ne x y init scopes :
  y ≠ x → lookupScopes y (declareVariable x init scopes) = lookupScopes y scopes.
Proof.
  intros Hne. destruct scopes as [|scope outer]; simpl.
  - by rewrite decide_False.
  - destruct (lookupScope x scope) as [w|] eqn:Hscope, init as [v|]; simpl;
      by rewrite ?lookupScope_updateScope_ne, ?lookupScope_app_ne.
Qed.

Lemma exportedNamesOf_nothing_exported st imports :
  exportedLocalNames st = None →
  hasExportDeclarationWithExportClause imports = false →
  exportedNamesOf st imports = [].
Proof.
  intros Hnames Hclause. unfold exportedNamesOf. rewrite Hnames. simpl.
  induction imports as [|entry imports IH]; [done|].
  unfold hasExportDeclarationWithExportClause in *. cbn [existsb] in Hclause.
  apply orb_false_iff in Hclause as [Hentry Hrest].
  rewrite fmap_cons. cbn [concat]. rewrite (IH Hrest), app_nil_r.
  destruct entry as [d|d|d]; try done. simpl.
  destruct (exportClause d); [|done].
  apply bool_decide_eq_false in Hentry. by destruct Hentry.
Qed.


(** *** Substitution of assignments *)

Ltac searched_element recursive_call node :=
  let operatorToken := fresh "operatorToken" in
  let spread := fresh "spread" in
  let Hnode := fresh "Hnode" in
  pose proof (recursive_call node) as Hnode;
  destruct node as [?|?|?|? operatorToken|spread|];
  cbn [arrayDestructuringElementWith destructuringElementWith elementIdentifiersWith
       isExportedSpread spreadIdentifiers existsb];
  [ by rewrite orb_false_r
  | exact Hnode
  | exact Hnode
  | destruct (bool_decide (operatorToken = EqualsToken)); cbn [andb]; [|done];
    match goal with
    | |- isDestructuringPattern ?target && _ = _ =>
        destruct (isDestructuringPattern target); cbn [andb];
        [apply recursive_call|done]
    end
  | destruct spread; cbn [isExportedSpread spreadIdentifiers existsb];
    by rewrite ?orb_false_r
  | done ].

Fixpoint hasExportedReference_searched (resolver : EmitResolver) (node : DestructuringNode)
    {struct node} :
  hasExportedReferenceInDestructuringPattern resolver node
  = existsb (isExportedBinding resolver) (searchedIdentifiers node).
Proof.
  destruct node as [name|properties|elements| | |]; simpl; try done.
  - by rewrite orb_false_r.
  - induction properties as [|property properties IH]; simpl; [done|].
    rewrite existsb_app, IH. f_equal.
    destruct property as [name|initializer|];
      cbn [objectDestructuringElementWith existsb]; [by rewrite orb_false_r| |done].
    searched_element (hasExportedReference_searched resolver) initializer.
  - induction elements as [|element elements IH]; simpl; [done|].
    rewrite existsb_app, IH. f_equal.
    searched_element (hasExportedReference_searched resolver) element.
Qed.

Section AssignmentSubstitution.
Context {LexEnv : Type}.
Variable context : TransformationContext LexEnv.
Variable isCompoundAssignment : nat -> bool.
Variable flattenDestructuringAssignment : Expression -> LexEnv -> Expression * LexEnv.

Local Abbreviation substituteBinary :=
  (substituteBinaryExpression context isCompoundAssignment flattenDestructuringAssignment).

(** X11: an assignment (with [=] or a compound assignment operator) to an
    identifier that the resolver reports as exported, from the source file
    or from a namespace, becomes [exporter("x", x = value)], with the
    assignment itself as the second argument, and nothing else changes; a
    binary expression whose operator is no assignment operator, and an
    assignment to an identifier that is not exported, are returned as they
    are. When the rewritten [x = value] runs, its value and its effect on
    the variables are those of the assignment, and the exporter has received
    the name and the assigned value. *)
Theorem substituteBinaryExpression_exported_identifier target operatorToken value
    (s : EmitState LexEnv) :
  (∀ container,
     isAssignmentOperator isCompoundAssignment operatorToken = true →
     getReferencedExportContainer (resolver context) target = Some container →
     substituteBinary (Binary (EIdentifier target) operatorToken value) s
     = (Returned
          (Call (identifierOrAbsent (exportFunctionForFile (transformState s)))
             [StringLiteral (identifierText target);
              Binary (EIdentifier target) operatorToken value]), s))
  ∧ (getReferencedExportContainer (resolver context) target = None →
     substituteBinary (Binary (EIdentifier target) operatorToken value) s
     = (Returned (Binary (EIdentifier target) operatorToken value), s))
  ∧ (∀ lhs,
       isAssignmentOperator isCompoundAssignment operatorToken = false →
       substituteBinary (Binary lhs operatorToken value) s
       = (Returned (Binary lhs operatorToken value), s))
  ∧ (∀ container exporter rt v rt',
       getReferencedExportContainer (resolver context) target = Some container →
       exportFunctionForFile (transformState s) = Some exporter →
       lookupVariable exporter rt = Some VExporter →
       evaluate (Binary (EIdentifier target) EqualsToken value) rt = Some (v, rt') →
       ∃ substituted,
         substituteBinary (Binary (EIdentifier target) EqualsToken value) s
         = (Returned substituted, s)
         ∧ evaluate substituted rt
           = Some (v, {| scopes := scopes rt';
                         trace := trace rt' ++ [[VString (identifierText target); v]] |})).
Proof.
  split; [|split; [|split]].
  - intros container Hoperator Hexported. unfold substituteBinaryExpression.
    rewrite Hoperator. unfold substituteAssignmentExpression. by rewrite Hexported.
  - intros Hlocal. unfold substituteBinaryExpression, substituteAssignmentExpression.
    rewrite Hlocal. by destruct (isAssignmentOperator _ _).
  - intros lhs Hoperator. unfold substituteBinaryExpression. by rewrite Hoperator.
  - intros container exporter rt v rt' Hexported Hset Hexporter Hassign.
    eexists. split.
    { unfold substituteBinaryExpression, substituteAssignmentExpression.
      cbn [isAssignmentOperator]. rewrite Hexported. reflexivity. }
    unfold createExportExpression, createCall, createLiteral. rewrite Hset.
    cbn [identifierOrAbsent evaluate]. rewrite Hexporter.
    cbn [evaluateArguments evaluate app].
    change (match evaluate value rt with
            | Some (v0, rt'0) => rt'' ← assignVariable target v0 rt'0; Some (v0, rt'')
            | None => None
            end) with (evaluate (Binary (EIdentifier target) EqualsToken value) rt).
    by rewrite Hassign.
Qed.

(** X12: the test that decides whether a destructuring assignment is
    flattened is true exactly when one of the identifiers it reaches has the
    source file as its export container. It reaches identifiers through
    nested object and array literals, shorthand properties, property
    initializers, defaulted targets and spread elements on an identifier; it
    does not look into a spread element on a nested pattern, and an
    identifier exported from a namespace does not count. An object or array
    assignment for which the test is false is returned as it is, and the
    flattener is not run. *)
Theorem hasExportedReferenceInDestructuringPattern_searched node :
  (hasExportedReferenceInDestructuringPattern (resolver context) node = true
   ↔ ∃ name, name ∈ searchedIdentifiers node
             ∧ getReferencedExportContainer (resolver context) name
               = Some SourceFileContainer)
  ∧ (∀ nested,
       hasExportedReferenceInDestructuringPattern (resolver context)
         (TargetArrayLiteral [TargetSpreadElement (TargetArrayLiteral nested)]) = false)
  ∧ (∀ name,
       getReferencedExportContainer (resolver context) name
       = Some ModuleDeclarationContainer →
       hasExportedReferenceInDestructuringPattern (resolver context)
         (TargetArrayLiteral [TargetIdentifier name]) = false)
  ∧ (∀ elements operatorToken value (s : EmitState LexEnv),
       node = destructuringTarget (ArrayLiteral elements) →
       hasExportedReferenceInDestructuringPattern (resolver context) node = false →
       substituteAssignmentExpression context flattenDestructuringAssignment
         (Binary (ArrayLiteral elements) operatorToken value) s
       = (Returned (Binary (ArrayLiteral elements) operatorToken value), s))
  ∧ (∀ properties operatorToken value (s : EmitState LexEnv),
       node = destructuringTarget (ObjectLiteral properties) →
       hasExportedReferenceInDestructuringPattern (resolver context) node = false →
       substituteAssignmentExpression context flattenDestructuringAssignment
         (Binary (ObjectLiteral properties) operatorToken value) s
       = (Returned (Binary (ObjectLiteral properties) operatorToken value), s)).
Proof.
  split; [|split; [|split; [|split]]].
  - rewrite hasExportedReference_searched, existsb_exists. split.
    + intros (name & Hin & Hexported). exists name. split; [by apply list_elem_of_In|].
      unfold isExportedBinding in Hexported.
      by destruct (getReferencedExportContainer (resolver context) name) as [[]|].
    + intros (name & Hin & Hexported). exists name. split; [by apply list_elem_of_In|].
      unfold isExportedBinding. by rewrite Hexported.
  - done.
  - intros name Hnamespace. simpl. unfold isExportedBinding. by rewrite Hnamespace.
  - intros elements operatorToken value s -> Hnone.
    unfold substituteAssignmentExpression. by rewrite Hnone.
  - intros properties operatorToken value s -> Hnone.
    unfold substituteAssignmentExpression. by rewrite Hnone.
Qed.

End AssignmentSubstitution.

(** *** Reads of imported bindings *)

Lemma lookupScopes_assignScopes_eq x v scopes scopes' :
  assignScopes x v scopes = Some scopes' → lookupScopes x scopes' = Some v.
Proof.
  revert scopes'. induction scopes as [|scope outer IH]; simpl; intros scopes' Ha; [done|].
  destruct (lookupScope x scope) as [w|] eqn:Hscope.
  - injection Ha as <-. simpl. by rewrite (lookupScope_updateScope_eq _ _ w).
  - destruct (assignScopes x v outer) as [outer'|]; simplify_eq/=.
    rewrite Hscope. by apply IH.
Qed.

Lemma getLocalNameForExternalImport_declaredBy binding d :
  declaredBy binding d →
  is_Some (importClause d)
  ∧ getLocalNameForExternalImport (ExternalImportDeclaration d)
    = Some (GeneratedNameForNode (importId d)).
Proof.
  unfold getLocalNameForExternalImport. destruct binding as [clause parent|specifier dd|]; simpl.
  - intros (-> & Hclause & [name Hname]). rewrite Hclause. split; [by eexists|].
    rewrite Hname. simpl. by destruct (namedBindings clause) as [[]|].
  - intros (-> & clause & elements & Hclause & Hbindings & _).
    rewrite Hclause, Hbindings. split; [by eexists|]. done.
  - done.
Qed.

Section ImportReads.
Context {LexEnv : Type}.
Variable context : TransformationContext LexEnv.
Variable getReferencedImportDeclaration : Identifier -> option ImportBinding.
Variable languageVersion : ScriptTarget.
Variable originalKeywordKind : Identifier -> option KeywordKind.

(** X13: an identifier that the resolver binds to a default import or to a
    named import of the declaration [d] is rewritten to an access, under
    ["default"] or under the imported name, on the name generated for [d].
    That name is the variable which [visitImportDeclaration] hoists for [d]
    and which the setter of the group of [d] assigns its parameter to; so
    once the setter has run on a namespace object, the rewritten identifier
    evaluates to the property of that namespace. An identifier bound to any
    other kind of declaration makes the substitution throw, and one bound to
    no import is returned as it is. *)
Theorem substituteExpressionIdentifier_reads_import x binding d st exportStarFunction
    parameterName :
  getReferencedImportDeclaration x = Some binding →
  declaredBy binding d →
  ∃ access,
    substituteExpressionIdentifier getReferencedImportDeclaration languageVersion
      originalKeywordKind x
    = Returned access
    ∧ (access = PropertyAccess (EIdentifier (GeneratedNameForNode (importId d)))
                  (importedName binding)
       ∨ languageVersion = ES3
         ∧ access = ElementAccess (EIdentifier (GeneratedNameForNode (importId d)))
                      (StringLiteral (importedName binding)))
    ∧ (∀ s : EmitState LexEnv,
         contains (externalImports (transformState s)) (ExternalImportDeclaration d) = true →
         visitImportDeclaration context d s
         = (Returned [],
            {| transformState := transformState s;
               nextAutoGenerateId := nextAutoGenerateId s;
               lexicalEnvironment :=
                 hoistVariableDeclaration context (GeneratedNameForNode (importId d))
                   (lexicalEnvironment s) |}))
    ∧ setterStatements st exportStarFunction parameterName (ExternalImportDeclaration d)
      = Returned
          [ExpressionStatement
             (Binary (EIdentifier (GeneratedNameForNode (importId d))) EqualsToken
                (EIdentifier parameterName))]
    ∧ (∀ rt namespace previous,
         lookupVariable parameterName rt = Some (VObject namespace) →
         lookupVariable (GeneratedNameForNode (importId d)) rt = Some previous →
         ∃ rt',
           execute
             (ExpressionStatement
                (Binary (EIdentifier (GeneratedNameForNode (importId d))) EqualsToken
                   (EIdentifier parameterName))) rt
           = Some rt'
           ∧ trace rt' = trace rt
           ∧ evaluate access rt'
             = Some (getProperty namespace (importedName binding), rt'))
    ∧ (∀ y, getReferencedImportDeclaration y = None →
         substituteExpressionIdentifier getReferencedImportDeclaration languageVersion
           originalKeywordKind y = Returned (EIdentifier y))
    ∧ (∀ y node, getReferencedImportDeclaration y = Some (OtherImportBinding node) →
         substituteExpressionIdentifier getReferencedImportDeclaration languageVersion
           originalKeywordKind y = Threw TypeError).
Proof.
  intros Hbinding Hdeclared.
  destruct (getLocalNameForExternalImport_declaredBy binding d Hdeclared)
    as [[clause Hclause] Hlocal].
  assert (∃ access,
            createImportBinding languageVersion originalKeywordKind binding = Returned access
            ∧ (access = PropertyAccess (EIdentifier (GeneratedNameForNode (importId d)))
                          (importedName binding)
               ∨ languageVersion = ES3
                 ∧ access = ElementAccess (EIdentifier (GeneratedNameForNode (importId d)))
                              (StringLiteral (importedName binding))))
    as (access & Hcreate & Haccess).
  { destruct binding as [c parent|specifier dd|]; simpl in *; [| |done].
    - destruct Hdeclared as (-> & _). eexists. split; [reflexivity|].
      unfold importBindingAccess. simpl.
      destruct (bool_decide (languageVersion = ES3)) eqn:Hversion; [|by left].
      apply bool_decide_eq_true in Hversion. by right.
    - destruct Hdeclared as (-> & _). eexists. split; [reflexivity|].
      unfold importBindingAccess.
      destruct (bool_decide (is_Some _) && bool_decide (languageVersion = ES3)) eqn:Hversion;
        [|by left].
      apply andb_true_iff in Hversion as [_ Hversion].
      apply bool_decide_eq_true in Hversion. by right. }
  exists access. split.
  { unfold substituteExpressionIdentifier. by rewrite Hbinding. }
  split; [exact Haccess|]. split.
  { intros s Hcontains. unfold visitImportDeclaration.
    rewrite (bind_returned _ _ s (transformState s) s) by done.
    rewrite Hcontains, Hclause, Hlocal. simpl. done. }
  split.
  { unfold setterStatements. by rewrite Hclause, Hlocal. }
  split; [|split; unfold substituteExpressionIdentifier;
           [by intros y ->|by intros y node ->]].
  intros rt namespace previous Hparameter Halias.
  destruct (assignVariable_is_Some (GeneratedNameForNode (importId d)) (VObject namespace)
              _ rt Halias) as [rt' Hassign].
  exists rt'. cbn [execute evaluate]. rewrite Hparameter. simpl. rewrite Hassign. simpl.
  split; [done|]. split; [by eapply assignVariable_trace|].
  assert (lookupVariable (GeneratedNameForNode (importId d)) rt' = Some (VObject namespace))
    as Hread.
  { unfold assignVariable in Hassign. unfold lookupVariable.
    destruct (assignScopes _ _ (scopes rt)) as [scopes'|] eqn:Hscopes; [|done].
    injection Hassign as <-. simpl. by eapply lookupScopes_assignScopes_eq. }
  destruct Haccess as [->|[_ ->]]; cbn [evaluate]; by rewrite Hread.
Qed.

End ImportReads.

(** *** Substitution once the file is done *)

Section LateSubstitution.
Context {LexEnv : Type}.
Variable context : TransformationContext LexEnv.
Variable collectExternalModuleInfo : SourceFile -> ExternalModuleInfo.
Variable flattenVariableDestructuringToExpression :
  VariableDeclaration -> LexEnv -> Expression * LexEnv.
Variable isCompoundAssignment : nat -> bool.
Variable flattenDestructuringAssignment : Expression -> LexEnv -> Expression * LexEnv.

(** X14: the substitutions read the exporter from the closure variable that
    [transformSourceFile] resets before it returns. Applied in the state in
    which a module has been transformed, the substitution of an assignment to
    an exported identifier, and that of a postfix increment of one, build a
    call whose callee is missing where the exporter of the file should be;
    such a call cannot be evaluated. *)
Theorem substitution_after_transformSourceFile node (s : EmitState LexEnv) updated s'
    target container value :
  isExternalModule node || isolatedModules context = true →
  transformSourceFile context collectExternalModuleInfo
    flattenVariableDestructuringToExpression node s
  = (Returned updated, s') →
  getReferencedExportContainer (resolver context) target = Some container →
  substituteBinaryExpression context isCompoundAssignment flattenDestructuringAssignment
    (Binary (EIdentifier target) EqualsToken value) s'
  = (Returned
       (Call Absent
          [StringLiteral (identifierText target);
           Binary (EIdentifier target) EqualsToken value]), s')
  ∧ substitutePostfixUnaryExpression (resolver context) (transformState s')
      (PostfixUnary PlusPlusToken (EIdentifier target))
    = Binary
        (Call Absent
           [StringLiteral (identifierText target);
            PrefixUnary PlusPlusToken (EIdentifier target)])
        MinusToken (NumericLiteral 1)
  ∧ ∀ arguments rt, evaluate (Call Absent arguments) rt = None.
Proof.
  intros Hmodule Hrun Hexported.
  pose proof (transformSourceFile_clears context collectExternalModuleInfo
                flattenVariableDestructuringToExpression
                node s updated s' Hmodule Hrun) as Hcleared.
  split; [|split; [|done]].
  - unfold substituteBinaryExpression, substituteAssignmentExpression.
    cbn [isAssignmentOperator]. rewrite Hexported.
    unfold bind, getTransformState, ret, createExportExpression. by rewrite Hcleared.
  - unfold substitutePostfixUnaryExpression, createExportExpression.
    by rewrite Hexported, Hcleared.
Qed.

(** *** The binding of a [for]-[in] or [for]-[of] loop *)

(** X15: [transformForBinding] looks at the first declaration only. It
    hoists the names that this declaration binds and never records them as
    exported: the closure variables and the counter of unique names are not
    touched. For an identifier the loop variable is that identifier, and the
    lexical environment has only received its name. On an empty declaration
    list it throws, and so it does, after hoisting the names before it, on
    an omitted element in the pattern of the first declaration; otherwise it
    returns. *)
Theorem transformForBinding_first_declaration (s : EmitState LexEnv) :
  transformForBinding context flattenVariableDestructuringToExpression [] s
  = (Threw TypeError, s)
  ∧ (∀ node rest,
       declaresOmittedElement node = false →
       ∃ expression s',
         transformForBinding context flattenVariableDestructuringToExpression
           (node :: rest) s
         = (Returned expression, s')
         ∧ transformForBinding context flattenVariableDestructuringToExpression [node] s
           = (Returned expression, s')
         ∧ transformState s' = transformState s
         ∧ nextAutoGenerateId s' = nextAutoGenerateId s)
  ∧ (∀ name initializer rest,
       hasOmittedElement name = true →
       transformForBinding context flattenVariableDestructuringToExpression
         (mkVariableDeclaration name initializer :: rest) s
       = (Threw TypeError,
          {| transformState := transformState s;
             nextAutoGenerateId := nextAutoGenerateId s;
             lexicalEnvironment :=
               foldl (fun env n => hoistVariableDeclaration context n env)
                 (lexicalEnvironment s) (namesBeforeOmittedElement name) |}))
  ∧ (∀ x initializer rest,
       transformForBinding context flattenVariableDestructuringToExpression
         (mkVariableDeclaration (BindingIdentifier x) initializer :: rest) s
       = (Returned (EIdentifier x),
          {| transformState := transformState s;
             nextAutoGenerateId := nextAutoGenerateId s;
             lexicalEnvironment :=
               hoistVariableDeclaration context x (lexicalEnvironment s) |})).
Proof.
  split; [done|]. split; [|split].
  - intros [name initializer] rest Hnone. unfold transformForBinding. cbn [head].
    pose proof (hoistBindingElement_run context name false s) as Hrun.
    cbn [declaresOmittedElement] in Hnone. rewrite Hnone in Hrun.
    rewrite (bind_returned _ _ _ _ _ Hrun).
    destruct name as [x|elements].
    + eexists _, _. split; [reflexivity|]. done.
    + unfold withLexicalEnvironment.
      destruct (flattenVariableDestructuringToExpression _ _) as [flattened env].
      eexists _, _. split; [reflexivity|]. done.
  - intros name initializer rest Hhole. unfold transformForBinding. cbn [head].
    pose proof (hoistBindingElement_run context name false s) as Hrun.
    rewrite Hhole in Hrun. by rewrite (bind_threw _ _ _ _ _ Hrun).
  - intros x initializer rest. reflexivity.
Qed.

End LateSubstitution.

(** *** The setter of a re-export with a clause *)

Lemma evaluateProperties_reexport parameterName namespace rt elements : ∀ acc,
  lookupVariable parameterName rt = Some (VObject namespace) →
  evaluateProperties evaluate
    ((fun e =>
        createPropertyAssignment
          (StringLiteralName (identifierText (exportSpecifierName e)))
          (createElementAccess (EIdentifier parameterName)
             (createLiteral
                (identifierText (default (exportSpecifierName e) (propertyName e))))))
       <$> elements) acc rt
  = Some (VObject
            (foldl
               (fun object element =>
                  setProperty object (identifierText (exportSpecifierName element))
                    (getProperty namespace
                       (identifierText
                          (default (exportSpecifierName element) (propertyName element)))))
               acc elements), rt).
Proof.
  intros acc Hparameter. revert acc.
  induction elements as [|element elements IH]; intros acc; [done|].
  rewrite fmap_cons.
  cbn [evaluateProperties createPropertyAssignment createElementAccess createLiteral
       evaluate propertyNameText foldl].
  rewrite Hparameter. cbn [mbind option_bind]. apply IH.
Qed.

Lemma foldl_setProperty_fresh {A : Type} (key : A → string) (value : A → Value) elements :
  ∀ acc,
    NoDup (acc.*1 ++ (key <$> elements)) →
    foldl (fun object element => setProperty object (key element) (value element)) acc
      elements
    = acc ++ ((fun element => (key element, value element)) <$> elements).
Proof.
  induction elements as [|element elements IH]; intros acc Hnodup.
  - by rewrite app_nil_r.
  - rewrite fmap_cons in Hnodup. cbn [foldl]. rewrite fmap_cons.
    assert (key element ∉ acc.*1) as Hfresh.
    { apply NoDup_app in Hnodup as (_ & Hdisjoint & _). intros Hin.
      apply (Hdisjoint _ Hin), list_elem_of_here. }
    rewrite (setProperty_fresh _ _ _ Hfresh), IH.
    + by rewrite <- app_assoc.
    + rewrite fmap_app. simpl. rewrite <- app_assoc. exact Hnodup.
Qed.


(** *** An exported variable, from the walk to the exporter *)

Section ExportedVariable.
Context {LexEnv : Type}.
Variable context : TransformationContext LexEnv.
Variable flattenVariableDestructuringToExpression :
  VariableDeclaration -> LexEnv -> Expression * LexEnv.
Variable getReferencedImportDeclaration : Identifier -> option ImportBinding.
Variable languageVersion : ScriptTarget.
Variable originalKeywordKind : Identifier -> option KeywordKind.
Variable isCompoundAssignment : nat -> bool.
Variable previousExpressionSubstitution : Expression -> LexEnv -> Expression * LexEnv.
Variable flattenDestructuringAssignment : Expression -> LexEnv -> Expression * LexEnv.

Local Abbreviation substitute :=
  (substituteExpression context getReferencedImportDeclaration languageVersion
     originalKeywordKind isCompoundAssignment previousExpressionSubstitution
     flattenDestructuringAssignment).

(** X17: [export var x = value] on an identifier. The walk hoists [x],
    records it among the exported local names and leaves the assignment
    [x = value] in its place, without a call of the exporter. The call comes
    from the substitution hook: when the resolver reports [x] as exported and
    the hook installed before leaves the assignment alone,
    [substituteExpression] turns that assignment into
    [exporter("x", x = value)], which, run where the exporter is bound,
    assigns as before and hands the exporter the name and the value. *)
Theorem exported_variable_initializer_published modifiers x value container
    (s : EmitState LexEnv) :
  hasModifier modifiers Export = true →
  getReferencedExportContainer (resolver context) x = Some container →
  (∀ env, previousExpressionSubstitution (Binary (EIdentifier x) EqualsToken value) env
          = (Binary (EIdentifier x) EqualsToken value, env)) →
  ∃ s1,
    visitSourceElement context flattenVariableDestructuringToExpression
      (VariableStatement modifiers [mkVariableDeclaration (BindingIdentifier x) (Some value)])
      s
    = (Returned [ExpressionStatement (Binary (EIdentifier x) EqualsToken value)], s1)
    ∧ exportedLocalNames (transformState s1)
      = Some (default [] (exportedLocalNames (transformState s)) ++ [x])
    ∧ lexicalEnvironment s1 = hoistVariableDeclaration context x (lexicalEnvironment s)
    ∧ substitute (Binary (EIdentifier x) EqualsToken value) s1
      = (Returned
           (Call (identifierOrAbsent (exportFunctionForFile (transformState s)))
              [StringLiteral (identifierText x); Binary (EIdentifier x) EqualsToken value]),
         s1)
    ∧ ∀ exporter rt v rt',
        exportFunctionForFile (transformState s) = Some exporter →
        lookupVariable exporter rt = Some VExporter →
        evaluate (Binary (EIdentifier x) EqualsToken value) rt = Some (v, rt') →
        evaluate
          (Call (identifierOrAbsent (exportFunctionForFile (transformState s)))
             [StringLiteral (identifierText x); Binary (EIdentifier x) EqualsToken value]) rt
        = Some (v, {| scopes := scopes rt';
                      trace := trace rt' ++ [[VString (identifierText x); v]] |}).
Proof.
  intros Hexport Hexported Hprevious.
  eexists. split.
  { unfold visitSourceElement, visitNestedNode, visitVariableStatement. rewrite Hexport.
    reflexivity. }
  split; [reflexivity|]. split; [reflexivity|]. split.
  - unfold substituteExpression, withLexicalEnvironment, bind at 1. rewrite Hprevious.
    cbn [lexicalEnvironment transformState nextAutoGenerateId].
    unfold substituteBinaryExpression, substituteAssignmentExpression.
    cbn [isAssignmentOperator]. rewrite Hexported. reflexivity.
  - intros exporter rt v rt' Hset Hexporter Hassign. rewrite Hset.
    cbn [identifierOrAbsent evaluate]. rewrite Hexporter.
    cbn [evaluateArguments evaluate app].
    change (match evaluate value rt with
            | Some (v0, rt'0) => rt'' ← assignVariable x v0 rt'0; Some (v0, rt'')
            | None => None
            end) with (evaluate (Binary (EIdentifier x) EqualsToken value) rt).
    by rewrite Hassign.
Qed.

End ExportedVariable.

(** *** No declaration is left in [execute] *)

Lemma yields_ret {S A : Type} (Q : A → Prop) (a : A) : Q a → yields (S := S) Q (ret a).
Proof. intros Ha s b s' [= <- _]. exact Ha. Qed.

Lemma yields_throw {S A : Type} (Q : A → Prop) e : yields (S := S) Q (throw e).
Proof. by intros s a s'. Qed.

Lemma yields_bind {S A B : Type} (Q : B → Prop) (m : M S A) (k : A → M S B) :
  (∀ a, yields Q (k a)) → yields Q (bind m k).
Proof.
  intros Hk s b s' Hrun. apply bind_returned_inv in Hrun as (a & s1 & _ & Hrun).
  by eapply Hk.
Qed.

Lemma yields_visitedNode {LexEnv : Type} (Q : list Statement → Prop)
    (visit : M (EmitState LexEnv) Statement) :
  yields (fun node => Q [node]) visit → yields Q (visitedNode visit).
Proof.
  intros Hvisit s result s' Hrun. unfold visitedNode in Hrun.
  apply bind_returned_inv in Hrun as (node & s1 & Hnode & Hrun).
  injection Hrun as <- _. by eapply Hvisit.
Qed.

Ltac yields_step :=
  first
    [ apply yields_throw
    | apply yields_ret; by repeat constructor
    | apply yields_bind; intros ?
    | match goal with
      | |- yields _ (if ?b then _ else _) => destruct b
      | |- yields _ (match ?x with _ => _ end) => destruct x
      end ].

Section Erasure.
Context {LexEnv : Type}.
Variable context : TransformationContext LexEnv.
Variable collectExternalModuleInfo : SourceFile -> ExternalModuleInfo.
Variable flattenVariableDestructuringToExpression :
  VariableDeclaration -> LexEnv -> Expression * LexEnv.

Local Abbreviation nested :=
  (visitNestedNode context flattenVariableDestructuringToExpression).
Local Abbreviation visit :=
  (visitSourceElement context flattenVariableDestructuringToExpression).
Local Abbreviation erased :=
  (Forall (fun statement => isDeclarationStatement statement = false)).

(** A statement that holds other statements comes back from its visitor as
    one statement, which is no declaration. *)
Lemma visitNestedNode_erases node :
  isDeclarationStatement node = false → yields erased (nested node).
Proof.
  intros Hnode.
  destruct node as [| | | | | | | | | |initializer ? ? ?|initializer ? ?|initializer ? ?
                    | | | | |? caseBlock| | | |];
    try done;
    cbn [visitNestedNode]; try (apply yields_ret; by repeat constructor);
    apply yields_visitedNode;
    cbn [visitForStatement visitForInStatement visitForOfStatement visitDoStatement
         visitWhileStatement visitLabeledStatement visitWithStatement visitSwitchStatement
         visitTryStatement visitBlock visitEachChild].
  - destruct initializer as [[declarations|?]|]; repeat yields_step.
  - destruct initializer as [declarations|?]; repeat yields_step.
  - destruct initializer as [declarations|?]; repeat yields_step.
  - repeat yields_step.
  - repeat yields_step.
  - repeat yields_step.
  - repeat yields_step.
  - repeat yields_step.
  - repeat yields_step.
  - repeat yields_step.
Qed.

Lemma visitSourceElement_erases node : yields erased (visit node).
Proof.
  destruct node as [d|d|d|id isExportEquals e|modifiers declarations|
                    id modifiers asteriskToken name parameters body|
                    id modifiers name heritageClauses members| | | | | | | | | | | | | | |];
    try (by apply visitNestedNode_erases); unfold visitSourceElement.
  - unfold visitImportDeclaration. repeat yields_step.
  - unfold visitImportEqualsDeclaration. repeat yields_step.
  - intros s result s'. rewrite visitExportDeclaration_run.
    destruct (moduleSpecifier d); [intros [= <- _]; constructor|].
    destruct (exportClause d) as [elements|]; [|done].
    intros [= <- _]. apply Forall_fmap, Forall_forall. done.
  - unfold visitExportAssignment. repeat yields_step.
  - intros s result s' Hrun. cbn [visitNestedNode] in Hrun.
    apply visitVariableStatement_returned in Hrun as [->|[expression ->]];
      repeat constructor.
  - cbn [visitNestedNode]. unfold visitFunctionDeclaration. repeat yields_step.
  - cbn [visitNestedNode]. unfold visitClassDeclaration. repeat yields_step.
Qed.

Lemma mapM_visit_erases nodes : ∀ (s : EmitState LexEnv) results s',
  mapM visit nodes s = (Returned results, s') → erased (concat results).
Proof.
  induction nodes as [|node nodes IH]; intros s results s'; simpl.
  - intros [= <- _]. constructor.
  - unfold bind at 1. destruct (visit node s) as [[result|e] s1] eqn:Hnode; [|done].
    unfold bind at 1. destruct (mapM visit nodes s1) as [[rest|e] s2] eqn:Hrest; [|done].
    intros [= <- _]. simpl. apply Forall_app. split.
    + by eapply visitSourceElement_erases.
    + by eapply IH.
Qed.

(** X18: whenever [transformSourceFile] returns for a module, no declaration
    is left at the top level of the body of [execute]: every import and
    export declaration, export assignment, and variable, function and class
    declaration of the file has been removed or replaced by expression
    statements, and a loop, a labeled, [with], [switch] or [try] statement
    or a block comes back from its visitor as one statement of these
    kinds. *)
Theorem transformSourceFile_execute_has_no_declaration node (s : EmitState LexEnv)
    updated s' :
  isExternalModule node || isolatedModules context = true →
  transformSourceFile context collectExternalModuleInfo
    flattenVariableDestructuringToExpression node s
  = (Returned updated, s') →
  ∃ factory executeStatements,
    factoryBody updated = Some factory
    ∧ returnedProperty factory "execute"
      = Some (FunctionExpression (Some (fileId node)) None [] (Block executeStatements))
    ∧ Forall (fun statement => isDeclarationStatement statement = false) executeStatements.
Proof.
  intros Hmodule Hrun.
  destruct (transformSourceFile_returned context collectExternalModuleInfo
              flattenVariableDestructuringToExpression node s updated s' Hmodule Hrun)
    as (_ & groups & executeStatements & s2 & star & setters & st & _ & Hvisit & -> & _).
  unfold visitNodes in Hvisit.
  apply bind_returned_inv in Hvisit as (results & s2' & Hwalk & Hvisit).
  injection Hvisit as <- _. apply mapM_visit_erases in Hwalk.
  eexists _, (concat results). split; [reflexivity|]. split; [|exact Hwalk].
  unfold returnedProperty. rewrite !app_assoc. by rewrite last_snoc.
Qed.

End Erasure.

(** *** Class declarations *)

(** X19: a class declaration is replaced, in place, by the assignment of a
    class expression (with the members and the name, if any, of the
    declaration) to the name of the class, or to the name generated for the
    declaration when it has none; that name is hoisted as a variable. When
    the class is exported the exporter call follows at once, under
    ["default"] for a default export and under the class name otherwise, and
    only in the latter case is the name recorded among the exported local
    names. Nothing else in the state changes. *)
Theorem visitClassDeclaration_statements {LexEnv : Type}
    (context : TransformationContext LexEnv) flattenVariableDestructuringToExpression
    id modifiers name heritageClauses members
    (s : EmitState LexEnv) :
  visitSourceElement context flattenVariableDestructuringToExpression
    (ClassDeclaration id modifiers name heritageClauses members) s
  = (Returned
       (ExpressionStatement
          (Binary (EIdentifier (default (GeneratedNameForNode id) name)) EqualsToken
             (ClassExpression name heritageClauses members))
        :: (if hasModifier modifiers Export
            then [ExpressionStatement
                    (Call (identifierOrAbsent (exportFunctionForFile (transformState s)))
                       [StringLiteral
                          (if hasModifier modifiers Default then "default"
                           else identifierText (default (GeneratedNameForNode id) name));
                        EIdentifier (default (GeneratedNameForNode id) name)])]
            else [])),
     {| transformState :=
          (if hasModifier modifiers Export && negb (hasModifier modifiers Default)
           then recordedNames [default (GeneratedNameForNode id) name] (transformState s)
           else transformState s);
        nextAutoGenerateId := nextAutoGenerateId s;
        lexicalEnvironment :=
          hoistVariableDeclaration context (default (GeneratedNameForNode id) name)
            (lexicalEnvironment s) |}).
Proof.
  unfold visitSourceElement, visitNestedNode, visitClassDeclaration, createDeclarationExport,
    getDeclarationName.
  cbn [declarationName declarationModifiers declarationId].
  destruct name as [className|], (hasModifier modifiers Export),
    (hasModifier modifiers Default); reflexivity.
Qed.

(** *** The statements above on the example inputs *)

Lemma collectDependencyGroups_groups_without_proto_witness :
  ∃ groups,
    collectDependencyGroups (Some importingFile) exampleEntries = Returned groups
    ∧ NoDup (groupName <$> groups)
    ∧ (∀ entry, entry ∈ exampleEntries →
         ∃ group, group ∈ groups ∧ entry ∈ groupExternalImports group
                  ∧ ∀ other, other ∈ groups → entry ∈ groupExternalImports other →
                             other = group)
    ∧ concat (groupExternalImports <$> groups) ≡ₚ exampleEntries
    ∧ groupName <$> groups
      = firstOccurrences (omap (resolvedSpecifierText importingFile) exampleEntries)
    ∧ (∀ group, group ∈ groups →
         groupExternalImports group
         = filter (fun entry =>
                     resolvedSpecifierText importingFile entry = Some (groupName group))
             exampleEntries).
Proof.
  apply (collectDependencyGroups_groups_without_proto importingFile exampleEntries).
  - repeat constructor.
  - repeat constructor; discriminate.
Defined.

(** [export var [a, , b] = arr;] makes the transform throw on the omitted
    element, after [a] has been hoisted and recorded, and the exporter of
    the file stays set. *)
Example transformSourceFile_omitted_element :
  (transformSourceFile exampleContext exampleCollectExternalModuleInfo exampleFlatten
     omittedElementFile exampleState).1
  = Threw TypeError
  ∧ exportedLocalNames
      (transformState
         (transformSourceFile exampleContext exampleCollectExternalModuleInfo exampleFlatten
            omittedElementFile exampleState).2)
    = Some [Named "a"]
  ∧ exportFunctionForFile
      (transformState
         (transformSourceFile exampleContext exampleCollectExternalModuleInfo exampleFlatten
            omittedElementFile exampleState).2)
    = Some (UniqueName "exports" 1).
Proof. split; [|split]; vm_compute; reflexivity. Qed.

(** [export var x = 1; for (var item of items) { var y = item; }]: the loop
    variable and the variable in the body are hoisted, and the loop stays in
    [execute] with the declarations turned into expressions. *)
Example transformSourceFile_loop :
  (updated ← returnedValue
               (transformSourceFile exampleContext exampleCollectExternalModuleInfo
                  exampleFlatten loopFile exampleState);
   body ← factoryBody updated;
   execute ← returnedProperty body "execute";
   statements ← functionBody execute;
   Some (take 2 body, statements))
  = Some
      ([moduleNameVariable (Some (UniqueName "context" 2));
        VariableStatement []
          [mkVariableDeclaration (BindingIdentifier (Named "x")) None;
           mkVariableDeclaration (BindingIdentifier (Named "item")) None;
           mkVariableDeclaration (BindingIdentifier (Named "y")) None]],
       [ExpressionStatement
          (Binary (EIdentifier (Named "x")) EqualsToken (NumericLiteral 1));
        ForOfStatement (InitializerExpression (EIdentifier (Named "item")))
          (EIdentifier (Named "items"))
          (Block
             [ExpressionStatement
                (Binary (EIdentifier (Named "y")) EqualsToken
                   (EIdentifier (Named "item")))])]).
Proof. vm_compute. reflexivity. Qed.

Lemma transformSourceFile_factory_body_layout_witness :
  ∃ updated s' executeStatements s2 setters,
    transformSourceFile exampleContext exampleCollectExternalModuleInfo exampleFlatten
      loopFile exampleState
    = (Returned updated, s')
    ∧ visitNodes (sourceStatements loopFile)
        (visitSourceElement exampleContext exampleFlatten)
        (length (prologueDirectives (sourceStatements loopFile)))
        (walkState exampleContext exampleCollectExternalModuleInfo loopFile exampleState)
      = (Returned executeStatements, s2)
    ∧ factoryBody updated
      = Some (prologueDirectives (sourceStatements loopFile)
              ++ [moduleNameVariable
                    (Some (UniqueName "context" (S (nextAutoGenerateId exampleState))))]
              ++ (endLexicalEnvironment exampleContext (lexicalEnvironment s2)).1
              ++ default [] (exportedFunctionDeclarations (transformState s2))
              ++ exportStarStatements (transformState s2)
                   (infoExternalImports (exampleCollectExternalModuleInfo loopFile))
                   (S (S (nextAutoGenerateId exampleState)))
              ++ [ReturnStatement
                    (ObjectLiteral [
                       PropertyAssignment (IdentifierName "setters") (ArrayLiteral setters);
                       PropertyAssignment (IdentifierName "execute")
                         (FunctionExpression (Some (fileId loopFile)) None []
                            (Block executeStatements))])]).
Proof.
  destruct (transformSourceFile_factory_body_layout exampleContext
              exampleCollectExternalModuleInfo exampleFlatten loopFile exampleState
              eq_refl) as [Hshape Hreturns].
  destruct Hreturns as (updated & s' & Hrun);
    [reflexivity | repeat constructor | repeat constructor | repeat constructor |].
  destruct (Hshape updated s' Hrun) as (executeStatements & s2 & setters & Hrest).
  exists updated, s', executeStatements, s2, setters.
  split; [exact Hrun|exact Hrest].
Defined.

Lemma transformSourceFile_exported_function_published_witness :
  ∃ updated s' factory,
    transformSourceFile exampleContext exampleCollectExternalModuleInfo exampleFlatten
      exportedFunctionFile exampleState
    = (Returned updated, s')
    ∧ factoryBody updated = Some factory
    ∧ ExpressionStatement
        (Call (EIdentifier (UniqueName "exports" (nextAutoGenerateId exampleState)))
           [StringLiteral
              (identifierText (default (GeneratedNameForNode 4) (Some (Named "f"))));
            EIdentifier (default (GeneratedNameForNode 4) (Some (Named "f")))])
      ∈ factory.
Proof.
  destruct (transformSourceFile_exported_function_published exampleContext
              exampleCollectExternalModuleInfo exampleFlatten
              exportedFunctionFile exampleState 4%nat [Export] None (Some (Named "f")) []
              (Block []))
    as (Hshape & _ & Hreturns);
    [reflexivity | repeat constructor | reflexivity |].
  destruct Hreturns as (updated & s' & Hrun);
    [reflexivity | repeat constructor | repeat constructor | repeat constructor |].
  destruct (Hshape updated s' Hrun) as (factory & Hrest).
  exists updated, s', factory. split; [exact Hrun|exact Hrest].
Defined.

Lemma transformSourceFile_plain_statements_witness :
  ∃ updated s' setters,
    transformSourceFile exampleContext exampleCollectExternalModuleInfo exampleFlatten
      plainFile exampleState
    = (Returned updated, s')
    ∧ factoryBody updated
      = Some (prologueDirectives (sourceStatements plainFile)
              ++ [moduleNameVariable
                    (Some (UniqueName "context" (S (nextAutoGenerateId exampleState))))]
              ++ (endLexicalEnvironment exampleContext
                    (startLexicalEnvironment exampleContext
                       (lexicalEnvironment exampleState))).1
              ++ default [] (exportedFunctionDeclarations (transformState exampleState))
              ++ exportStarStatements
                   (transformState
                      (walkState exampleContext exampleCollectExternalModuleInfo plainFile
                         exampleState))
                   (infoExternalImports (exampleCollectExternalModuleInfo plainFile))
                   (S (S (nextAutoGenerateId exampleState)))
              ++ [ReturnStatement
                    (ObjectLiteral [
                       PropertyAssignment (IdentifierName "setters") (ArrayLiteral setters);
                       PropertyAssignment (IdentifierName "execute")
                         (FunctionExpression (Some (fileId plainFile)) None []
                            (Block
                               (drop (length (prologueDirectives (sourceStatements plainFile)))
                                  (sourceStatements plainFile))))])]).
Proof.
  apply (transformSourceFile_plain_statements exampleContext
           exampleCollectExternalModuleInfo exampleFlatten
           plainFile exampleState);
    [reflexivity | reflexivity | repeat constructor | repeat constructor].
Defined.

Lemma transformSourceFile_fault_stays_witness :
  ∃ s1,
    transformSourceFile exampleContext exampleCollectExternalModuleInfo exampleFlatten
      computedImportFile exampleState
    = (Threw TypeError, s1)
    ∧ exportFunctionForFile (transformState s1)
      = Some (UniqueName "exports" (nextAutoGenerateId exampleState))
    ∧ ∀ next,
        isExternalModule next || isolatedModules exampleContext = true →
        ∃ s2,
          transformSourceFile exampleContext exampleCollectExternalModuleInfo exampleFlatten next s1
          = (Threw AssertionFailure, s2)
          ∧ exportFunctionForFile (transformState s2)
            = Some (UniqueName "exports" (nextAutoGenerateId exampleState)).
Proof.
  apply (transformSourceFile_fault_stays exampleContext exampleCollectExternalModuleInfo
           exampleFlatten computedImportFile exampleState);
    [reflexivity | reflexivity | right; constructor; reflexivity].
Defined.



Lemma substituteExpressionIdentifier_reads_import_witness :
  ∃ access,
    substituteExpressionIdentifier exampleReferencedImport ES5 (fun _ => None) (Named "d")
    = Returned access
    ∧ (access = PropertyAccess (EIdentifier (GeneratedNameForNode 10)) "default"
       ∨ ES5 = ES3
         ∧ access = ElementAccess (EIdentifier (GeneratedNameForNode 10))
                      (StringLiteral "default"))
    ∧ (∀ s : EmitState ExampleLexEnv,
         contains (externalImports (transformState s))
           (ExternalImportDeclaration exampleDefaultImport) = true →
         visitImportDeclaration exampleContext exampleDefaultImport s
         = (Returned [],
            {| transformState := transformState s;
               nextAutoGenerateId := nextAutoGenerateId s;
               lexicalEnvironment :=
                 hoistVariableDeclaration exampleContext (GeneratedNameForNode 10)
                   (lexicalEnvironment s) |}))
    ∧ setterStatements exampleTransformState (UniqueName "exportStar" 2)
        (UniqueName "dep" 3) (ExternalImportDeclaration exampleDefaultImport)
      = Returned
          [ExpressionStatement
             (Binary (EIdentifier (GeneratedNameForNode 10)) EqualsToken
                (EIdentifier (UniqueName "dep" 3)))]
    ∧ (∀ rt namespace previous,
         lookupVariable (UniqueName "dep" 3) rt = Some (VObject namespace) →
         lookupVariable (GeneratedNameForNode 10) rt = Some previous →
         ∃ rt',
           execute
             (ExpressionStatement
                (Binary (EIdentifier (GeneratedNameForNode 10)) EqualsToken
                   (EIdentifier (UniqueName "dep" 3)))) rt
           = Some rt'
           ∧ trace rt' = trace rt
           ∧ evaluate access rt' = Some (getProperty namespace "default", rt'))
    ∧ (∀ y, exampleReferencedImport y = None →
         substituteExpressionIdentifier exampleReferencedImport ES5 (fun _ => None) y
         = Returned (EIdentifier y))
    ∧ (∀ y node, exampleReferencedImport y = Some (OtherImportBinding node) →
         substituteExpressionIdentifier exampleReferencedImport ES5 (fun _ => None) y
         = Threw TypeError).
Proof.
  apply (substituteExpressionIdentifier_reads_import exampleContext exampleReferencedImport
           ES5 (fun _ => None) (Named "d")
           (ImportClauseBinding exampleDefaultClause exampleDefaultImport)
           exampleDefaultImport exampleTransformState (UniqueName "exportStar" 2)
           (UniqueName "dep" 3)).
  - reflexivity.
  - simpl. split; [reflexivity|]. split; [reflexivity|]. by eexists.
Defined.


Lemma exported_variable_initializer_published_witness :
  ∃ s1,
    visitSourceElement exampleContext exampleFlatten
      (VariableStatement [Export]
         [mkVariableDeclaration (BindingIdentifier (Named "x")) (Some (NumericLiteral 1))])
      exampleRunningState
    = (Returned
         [ExpressionStatement (Binary (EIdentifier (Named "x")) EqualsToken (NumericLiteral 1))],
       s1)
    ∧ exportedLocalNames (transformState s1)
      = Some (default [] (exportedLocalNames (transformState exampleRunningState))
              ++ [Named "x"])
    ∧ lexicalEnvironment s1
      = hoistVariableDeclaration exampleContext (Named "x")
          (lexicalEnvironment exampleRunningState)
    ∧ substituteExpression exampleContext exampleReferencedImport ES5 (fun _ => None)
        (fun _ => false) noSubstitution noSubstitution
        (Binary (EIdentifier (Named "x")) EqualsToken (NumericLiteral 1)) s1
      = (Returned
           (Call (identifierOrAbsent
                    (exportFunctionForFile (transformState exampleRunningState)))
              [StringLiteral (identifierText (Named "x"));
               Binary (EIdentifier (Named "x")) EqualsToken (NumericLiteral 1)]),
         s1)
    ∧ ∀ exporter rt v rt',
        exportFunctionForFile (transformState exampleRunningState) = Some exporter →
        lookupVariable exporter rt = Some VExporter →
        evaluate (Binary (EIdentifier (Named "x")) EqualsToken (NumericLiteral 1)) rt
        = Some (v, rt') →
        evaluate
          (Call (identifierOrAbsent
                   (exportFunctionForFile (transformState exampleRunningState)))
             [StringLiteral (identifierText (Named "x"));
              Binary (EIdentifier (Named "x")) EqualsToken (NumericLiteral 1)]) rt
        = Some (v, {| scopes := scopes rt';
                      trace := trace rt' ++ [[VString (identifierText (Named "x")); v]] |}).
Proof.
  apply (exported_variable_initializer_published exampleContext exampleFlatten
    exampleReferencedImport ES5 (fun _ => None)
           (fun _ => false) noSubstitution noSubstitution [Export] (Named "x")
           (NumericLiteral 1) SourceFileContainer exampleRunningState);
    [reflexivity | reflexivity | intros env; reflexivity].
Defined.

Lemma substitution_after_transformSourceFile_witness :
  substituteBinaryExpression exampleContext (fun _ => false) noSubstitution
    (Binary (EIdentifier (Named "x")) EqualsToken (NumericLiteral 2))
    (transformSourceFile exampleContext exampleCollectExternalModuleInfo exampleFlatten
     exportedVariableFile exampleState).2
  = (Returned
       (Call Absent
          [StringLiteral (identifierText (Named "x"));
           Binary (EIdentifier (Named "x")) EqualsToken (NumericLiteral 2)]),
     (transformSourceFile exampleContext exampleCollectExternalModuleInfo exampleFlatten
      exportedVariableFile exampleState).2)
  ∧ substitutePostfixUnaryExpression (resolver exampleContext)
      (transformState
         (transformSourceFile exampleContext exampleCollectExternalModuleInfo exampleFlatten
          exportedVariableFile exampleState).2)
      (PostfixUnary PlusPlusToken (EIdentifier (Named "x")))
    = Binary
        (Call Absent
           [StringLiteral (identifierText (Named "x"));
            PrefixUnary PlusPlusToken (EIdentifier (Named "x"))])
        MinusToken (NumericLiteral 1)
  ∧ ∀ arguments rt, evaluate (Call Absent arguments) rt = None.
Proof.
  apply (substitution_after_transformSourceFile exampleContext
           exampleCollectExternalModuleInfo exampleFlatten
           (fun _ => false) noSubstitution exportedVariableFile exampleState
           (default exportedVariableFile
              (returnedValue
                 (transformSourceFile exampleContext exampleCollectExternalModuleInfo
                    exampleFlatten exportedVariableFile exampleState)))
           (transformSourceFile exampleContext exampleCollectExternalModuleInfo exampleFlatten
            exportedVariableFile exampleState).2
           (Named "x") SourceFileContainer (NumericLiteral 2));
    [reflexivity | vm_compute; reflexivity | reflexivity].
Defined.

Lemma transformSourceFile_execute_has_no_declaration_witness :
  ∃ factory executeStatements,
    factoryBody
      (default loopFile
         (returnedValue
            (transformSourceFile exampleContext exampleCollectExternalModuleInfo
               exampleFlatten loopFile exampleState)))
    = Some factory
    ∧ returnedProperty factory "execute"
      = Some (FunctionExpression (Some (fileId loopFile)) None []
                (Block executeStatements))
    ∧ Forall (fun statement => isDeclarationStatement statement = false) executeStatements.
Proof.
  apply (transformSourceFile_execute_has_no_declaration exampleContext
           exampleCollectExternalModuleInfo exampleFlatten)
    with (s := exampleState)
         (s' := (transformSourceFile exampleContext exampleCollectExternalModuleInfo
                   exampleFlatten loopFile exampleState).2).
  - reflexivity.
  - vm_compute. reflexivity.
Defined.
